(** * Google Meet MCP server: OAuth callback flow and calendar gateway

    A shallow embedding of [src/AuthServer.js] (the local authorization
    server) and of [GoogleMeetAPI.js] (the calendar wrapper), followed by
    the properties of the specification that can be settled on them.

    Conventions of the embedding:
    - a JavaScript property that may be missing is a value of [Js A]
      ([Undefined], [Null] or [Val a]); truthiness is written out, so the
      empty string and the number 0 are falsy as in the source;
    - [async] functions that may reject return [Exc A]; a [try]/[catch] is a
      [match] on that result;
    - the file system, the OAuth provider, the calendar provider, the clock
      and the random generator are inputs (an [Env] record or arguments);
    - the Node event loop is a list of events delivered in order. *)

From Stdlib Require Import ZArith String Ascii List DecimalString Lia Bool.
From stdpp Require Import base gmap strings list.
Import ListNotations.
Open Scope Z_scope.

(* ===================================================================== *)
(** ** JavaScript values                                                  *)
(* ===================================================================== *)

Module JS.

(** A property read: missing ([undefined]), [null], or a value. *)
Inductive Js (A : Type) : Type :=
| Undefined
| Null
| Val (a : A).
Arguments Undefined {A}.
Arguments Null {A}.
Arguments Val {A} a.

(** ToBoolean on strings, numbers, booleans and objects. *)
Definition truthy_str (x : Js string) : bool :=
  match x with
  | Val s => negb (String.eqb s "")
  | _ => false
  end.

Definition truthy_num (x : Js Z) : bool :=
  match x with
  | Val n => negb (n =? 0)
  | _ => false
  end.

Definition truthy_bool (x : Js bool) : bool :=
  match x with
  | Val b => b
  | _ => false
  end.

(** Objects and arrays are always truthy. *)
Definition truthy_obj {A : Type} (x : Js A) : bool :=
  match x with
  | Val _ => true
  | _ => false
  end.

(** [x !== undefined] *)
Definition defined {A : Type} (x : Js A) : bool :=
  match x with
  | Undefined => false
  | _ => true
  end.

(** [x || 'literal'] where the result is used as a string. *)
Definition or_str (x : Js string) (d : string) : string :=
  match x with
  | Val s => if String.eqb s "" then d else s
  | _ => d
  end.

(** [x || y] on two property reads of string type. *)
Definition or_js (x y : Js string) : Js string :=
  if truthy_str x then x else y.

(** [x || false] *)
Definition or_false (x : Js bool) : bool := truthy_bool x.

(** [x || []] *)
Definition or_nil {A : Type} (x : Js (list A)) : list A :=
  match x with
  | Val l => l
  | _ => []
  end.

(** [Array.prototype.find] *)
Fixpoint find {A : Type} (p : A -> bool) (l : list A) : Js A :=
  match l with
  | [] => Undefined
  | x :: l' => if p x then Val x else find p l'
  end.

(** [s === 'literal'] on a property read. *)
Definition strict_eq_str (x : Js string) (lit : string) : bool :=
  match x with
  | Val s => String.eqb s lit
  | _ => false
  end.

(** Template-literal rendering of an integer. *)
Definition show_int (n : Z) : string := NilZero.string_of_int (Z.to_int n).

(** [String.prototype.substr(start, length)] for non-negative arguments. *)
Definition substr (start len : nat) (s : string) : string := substring start len s.

(** *** [String.prototype.trim]

    Strings are byte strings in UTF-8; the white space and line terminator
    code points of ECMAScript are recognised in their encoded form. *)

Definition byte_is (c : ascii) (n : N) : bool := (N_of_ascii c =? n)%N.

(** U+0009..U+000D and U+0020. *)
Definition ws1 (c : ascii) : bool :=
  let n := N_of_ascii c in
  ((9 <=? n) && (n <=? 13) || (n =? 32))%N.

(** U+00A0 = C2 A0. *)
Definition ws2 (c1 c2 : ascii) : bool := byte_is c1 194 && byte_is c2 160.

(** U+1680, U+2000..U+200A, U+2028, U+2029, U+202F, U+205F, U+3000, U+FEFF. *)
Definition ws3 (c1 c2 c3 : ascii) : bool :=
  let n3 := N_of_ascii c3 in
  (byte_is c1 225 && byte_is c2 154 && byte_is c3 128)
  || (byte_is c1 226 && byte_is c2 128 &&
      ((128 <=? n3) && (n3 <=? 138) || (n3 =? 168) || (n3 =? 169) || (n3 =? 175))%N)
  || (byte_is c1 226 && byte_is c2 129 && byte_is c3 159)
  || (byte_is c1 227 && byte_is c2 128 && byte_is c3 128)
  || (byte_is c1 239 && byte_is c2 187 && byte_is c3 191).

Fixpoint trimStart_bytes (s : list ascii) : list ascii :=
  match s with
  | [] => []
  | c1 :: r1 =>
    if ws1 c1 then trimStart_bytes r1
    else match r1 with
         | [] => s
         | c2 :: r2 =>
           if ws2 c1 c2 then trimStart_bytes r2
           else match r2 with
                | [] => s
                | c3 :: r3 => if ws3 c1 c2 c3 then trimStart_bytes r3 else s
                end
         end
  end.

(** The same scan on the reversed byte list, for the end of the string. *)
Fixpoint trimEnd_rev (s : list ascii) : list ascii :=
  match s with
  | [] => []
  | c1 :: r1 =>
    if ws1 c1 then trimEnd_rev r1
    else match r1 with
         | [] => s
         | c2 :: r2 =>
           if ws2 c2 c1 then trimEnd_rev r2
           else match r2 with
                | [] => s
                | c3 :: r3 => if ws3 c3 c2 c1 then trimEnd_rev r3 else s
                end
         end
  end.

Definition trim (s : string) : string :=
  string_of_list_ascii
    (rev (trimEnd_rev (rev (trimStart_bytes (list_ascii_of_string s))))).

(** Interpolation of a property read in a template literal. *)
Definition template (x : Js string) : string :=
  match x with
  | Undefined => "undefined"
  | Null => "null"
  | Val s => s
  end.

(** [s || 'literal'] on a string. *)
Definition or_text (s d : string) : string :=
  if String.eqb s "" then d else s.

(** The line feed of a template literal. *)
Definition nl : string := String (ascii_of_nat 10) EmptyString.

End JS.
Export JS.

(* ===================================================================== *)
(** ** Errors, files and OAuth data shared by both source files           *)
(* ===================================================================== *)

(** The errors the two files raise or receive. *)
Inductive Error : Type :=
| FsError (code : string)                  (* a rejected fs call: ENOENT, EACCES, ... *)
| SyntaxError                              (* JSON.parse *)
| TypeError                                (* property read on undefined or null *)
| InvalidCredentialsFormat                 (* neither web nor installed *)
| LoadCredentialsFailed (cause : Error)    (* loadCredentials' wrapper *)
| SaveTokensFailed (cause : Error)         (* saveTokens' wrapper *)
| ProviderError (message : string)         (* rejected call of the Google client *)
| ListenError (code : string)              (* 'error' event other than EADDRINUSE *)
| NoPortAvailable (startPort endPort : Z)  (* findAvailablePort's final throw *)
| CredentialsFileNotFound                  (* GoogleMeetAPI.initialize, fs.access *)
| NoValidToken (cause : Error)             (* GoogleMeetAPI.initialize, token block *)
| GatewayError (operation : string) (cause : Error)   (* a wrapper of GoogleMeetAPI *)
| NoConferenceData (meetingId : string)    (* getMeeting *)
| CannotFormat.                            (* the formatter returned null *)

Inductive Exc (A : Type) : Type :=
| Return (a : A)
| Throw (e : Error).
Arguments Return {A} a.
Arguments Throw {A} e.

Definition bind {A B : Type} (m : Exc A) (k : A -> Exc B) : Exc B :=
  match m with
  | Return a => k a
  | Throw e => Throw e
  end.

(** [let! x := await m in k]: the continuation runs unless [m] rejected. *)
Notation "'let!' x ':=' m 'in' k" := (bind m (fun x => k))
  (at level 10, x pattern, m at level 100, k at level 200).

(** [CredentialBundle]: the content of the token file. *)
Record Tokens : Type := mkTokens {
  access_token : Js string;
  refresh_token : Js string;
  expiry_date : Js Z;
  scope : Js string;
  token_type : Js string
}.

(** One OAuth client configuration of the credentials file. *)
Record ClientConfig : Type := mkClientConfig {
  client_id : Js string;
  client_secret : Js string;
  redirect_uris : Js (list string)
}.

Record CredentialsFile : Type := mkCredentialsFile {
  web : Js ClientConfig;
  installed : Js ClientConfig
}.

(** What [JSON.parse(await fs.readFile(path))] finds at a path. *)
Inductive FileContent (A : Type) : Type :=
| Absent                 (* readFile rejects *)
| Garbage                (* JSON.parse throws *)
| Json (a : A).
Arguments Absent {A}.
Arguments Garbage {A}.
Arguments Json {A} a.

Record FS : Type := mkFS {
  credentialsFile : FileContent CredentialsFile;   (* at credentialsPath *)
  tokenFile : FileContent Tokens                   (* at tokenPath *)
}.

Definition readJson {A : Type} (f : FileContent A) : Exc A :=
  match f with
  | Absent => Throw (FsError "ENOENT")
  | Garbage => Throw SyntaxError
  | Json a => Return a
  end.

(** [new google.auth.OAuth2(client_id, client_secret, redirectUri)] *)
Record OAuth2Client : Type := mkOAuth2Client {
  oa_client_id : Js string;
  oa_client_secret : Js string;
  oa_redirectUri : Js string
}.

(** Calls recorded while a function runs, in order. The result of a refresh
    is what the caller destructures from it: the [credentials] property of
    the object the call resolved with, [None] when that object has no such
    property. *)
Inductive IO : Type :=
| IORefresh (refreshTok : Js string) (result : Exc (option Tokens))
| IOWriteTokenFile (content : Tokens).

(* ===================================================================== *)
(** ** src/AuthServer.js                                                  *)
(* ===================================================================== *)

Module AuthServer.

(** Outcome of [testServer.listen(port)]: the 'listening' callback, or an
    'error' event with its code. *)
Inductive ListenResult : Type :=
| Listening
| EADDRINUSE
| ListenFailed (code : string).

(** The collaborators of one run. [refreshToken] gives what
    [const { credentials } = await oAuth2Client.refreshToken(...)] binds:
    the [credentials] property of the object the call resolves with, [None]
    when that object has no such property (the [refreshToken] of
    google-auth-library resolves with [{ tokens, res }]). *)
Record Env : Type := mkEnv {
  Date_now : Z;                                         (* Date.now() *)
  refreshToken : OAuth2Client -> Js string -> Exc (option Tokens);
  generateAuthUrl : OAuth2Client -> string;             (* oAuth2Client.generateAuthUrl *)
  fs_write : Exc unit;                                  (* fs.mkdir then fs.writeFile *)
  listen : Z -> ListenResult;                           (* server.listen(port) *)
  open : string -> Exc unit;                            (* open(authUrl) *)
  close_after : option Z                                (* ms until server.close calls back *)
}.

(** The fields of an [AuthServer] instance ([credentialsPath] and
    [tokenPath] name the two files of [FS]). [server] holds the port of the
    listener the instance keeps. *)
Record t : Type := mkAuthServer {
  server : option Z;
  oAuth2Client : option OAuth2Client;
  authCompletedSuccessfully : bool;
  activeConnections : gset nat
}.

(** [constructor(credentialsPath, tokenPath)] *)
Definition new : t :=
  {| server := None;
     oAuth2Client := None;
     authCompletedSuccessfully := false;
     activeConnections := ∅ |}.

(** The instance together with what it acts on: the files and the sockets
    on which [destroy()] was called. *)
Record World : Type := mkWorld {
  self : t;
  fs : FS;
  destroyed : gset nat
}.

Definition set_server (s : option Z) (w : World) : World :=
  {| self := {| server := s;
                oAuth2Client := oAuth2Client (self w);
                authCompletedSuccessfully := authCompletedSuccessfully (self w);
                activeConnections := activeConnections (self w) |};
     fs := fs w; destroyed := destroyed w |}.

Definition set_oAuth2Client (c : option OAuth2Client) (w : World) : World :=
  {| self := {| server := server (self w);
                oAuth2Client := c;
                authCompletedSuccessfully := authCompletedSuccessfully (self w);
                activeConnections := activeConnections (self w) |};
     fs := fs w; destroyed := destroyed w |}.

Definition set_authCompletedSuccessfully (b : bool) (w : World) : World :=
  {| self := {| server := server (self w);
                oAuth2Client := oAuth2Client (self w);
                authCompletedSuccessfully := b;
                activeConnections := activeConnections (self w) |};
     fs := fs w; destroyed := destroyed w |}.

Definition set_activeConnections (c : gset nat) (w : World) : World :=
  {| self := {| server := server (self w);
                oAuth2Client := oAuth2Client (self w);
                authCompletedSuccessfully := authCompletedSuccessfully (self w);
                activeConnections := c |};
     fs := fs w; destroyed := destroyed w |}.

Definition set_fs (f : FS) (w : World) : World :=
  {| self := self w; fs := f; destroyed := destroyed w |}.

Definition set_destroyed (d : gset nat) (w : World) : World :=
  {| self := self w; fs := fs w; destroyed := d |}.

(** [loadCredentials()] *)
Definition loadCredentials (f : FS) : Exc ClientConfig :=
  match
    (let! credentials := readJson (credentialsFile f) in
     match web credentials with
     | Val clientConfig => Return clientConfig
     | _ =>
       match installed credentials with
       | Val clientConfig => Return clientConfig
       | _ => Throw InvalidCredentialsFormat
       end
     end)
  with
  | Return clientConfig => Return clientConfig
  | Throw error => Throw (LoadCredentialsFailed error)
  end.

(** [createOAuth2Client(credentials, redirectUri)] *)
Definition createOAuth2Client (credentials : ClientConfig) (redirectUri : string)
  : OAuth2Client :=
  {| oa_client_id := client_id credentials;
     oa_client_secret := client_secret credentials;
     oa_redirectUri := Val redirectUri |}.

(** [saveTokens(tokens)]: the directory is created, then the file written.
    [tokens] is [None] when the caller passes [undefined]: then
    [JSON.stringify(tokens, null, 2)] is [undefined] too, and [fs.writeFile]
    refuses it with a [TypeError] before it opens the file, so nothing is
    written. (A failing [write] is taken there as [fs.mkdir] failing.) *)
Definition saveTokens (write : Exc unit) (f : FS) (tokens : option Tokens) : Exc FS :=
  match write, tokens with
  | Return _, Some bundle =>
    Return {| credentialsFile := credentialsFile f; tokenFile := Json bundle |}
  | Return _, None => Throw (SaveTokensFailed TypeError)
  | Throw error, _ => Throw (SaveTokensFailed error)
  end.

(** [tokens.expiry_date && tokens.expiry_date < Date.now()] *)
Definition expired (now : Z) (tokens : Tokens) : bool :=
  truthy_num (expiry_date tokens) &&
  match expiry_date tokens with
  | Val e => e <? now
  | _ => false
  end.

(** The refresh block of [hasValidTokens]: its inner [try]. *)
Definition refreshAndSave (env : Env) (f : FS) (tokens : Tokens)
  : Exc FS * list IO :=
  match loadCredentials f with
  | Throw e => (Throw e, [])
  | Return credentials =>
    let client := createOAuth2Client credentials "http://localhost:3000/oauth2callback" in
    let response := refreshToken env client (refresh_token tokens) in
    match response with
    | Throw e => (Throw e, [IORefresh (refresh_token tokens) response])
    | Return newCredentials =>
      match saveTokens (fs_write env) f newCredentials with
      | Throw e => (Throw e, [IORefresh (refresh_token tokens) response])
      | Return f' =>
        (Return f',
         IORefresh (refresh_token tokens) response
         :: match newCredentials with
            | Some bundle => [IOWriteTokenFile bundle]
            | None => []
            end)
      end
    end
  end.

(** [hasValidTokens()]: the answer, the files afterwards and the calls made. *)
Definition hasValidTokens (env : Env) (f : FS) : bool * FS * list IO :=
  match readJson (tokenFile f) with
  | Throw _ => (false, f, [])
  | Return tokens =>
    if negb (truthy_str (access_token tokens)) || negb (truthy_str (refresh_token tokens))
    then (false, f, [])
    else if expired (Date_now env) tokens then
      match refreshAndSave env f tokens with
      | (Return f', log) => (true, f', log)
      | (Throw _, log) => (false, f, log)
      end
    else (true, f, [])
  end.

(** *** The HTTP handler of [createServer] *)

(** The parts of an incoming request the handler reads: the path and
    [url.searchParams.get] of the two parameters ([Null] when missing). *)
Record Request : Type := mkRequest {
  pathname : string;
  code : Js string;
  error : Js string
}.

(** What the outside answers while one callback request is handled. *)
Record Exchange : Type := mkExchange {
  getToken : Exc Tokens;     (* oAuth2Client.getToken(code) *)
  write : Exc unit           (* fs.mkdir then fs.writeFile, inside saveTokens *)
}.

Inductive Page : Type :=
| AuthLinkPage (authUrl : string)     (* root route: the consent link *)
| AuthFailedPage (error : string)     (* the error parameter is shown *)
| MissingCodeText                     (* plain text, no code in the query *)
| AuthSucceededPage
| SaveFailedPage (cause : Error)      (* the catch block of the exchange *)
| NotFoundText.

Record Response : Type := mkResponse {
  status : Z;
  body : Page
}.

(** The [async (req, res) => ...] callback from its second statement on,
    [req] being the parts of the URL its first statement has parsed. [None]
    as response: the callback rejected before writing one. *)
Definition requestHandler (env : Env) (req : Request) (x : Exchange) (w : World)
  : World * option Response :=
  if String.eqb (pathname req) "/" then
    match oAuth2Client (self w) with
    | None => (w, None)
    | Some client =>
      (w, Some {| status := 200; body := AuthLinkPage (generateAuthUrl env client) |})
    end
  else if String.eqb (pathname req) "/oauth2callback" then
    if truthy_str (error req) then
      (w, Some {| status := 400; body := AuthFailedPage (or_str (error req) "") |})
    else if negb (truthy_str (code req)) then
      (w, Some {| status := 400; body := MissingCodeText |})
    else
      match
        (let! client := match oAuth2Client (self w) with
                        | Some c => Return c
                        | None => Throw TypeError
                        end in
         let! tokens := getToken x in
         saveTokens (write x) (fs w) (Some tokens))
      with
      | Return f' =>
        (set_authCompletedSuccessfully true (set_fs f' w),
         Some {| status := 200; body := AuthSucceededPage |})
      | Throw e =>
        (set_authCompletedSuccessfully false w,
         Some {| status := 500; body := SaveFailedPage e |})
      end
  else
    (w, Some {| status := 404; body := NotFoundText |}).


(** *** [findAvailablePort] *)

(** The [for] loop, [n] ports left to try from [port] on. *)
Fixpoint scanPorts (env : Env) (startPort endPort : Z) (n : nat) (port : Z) (w : World)
  : Exc Z * World :=
  match n with
  | O => (Throw (NoPortAvailable startPort endPort), w)
  | S n' =>
    match listen env port with
    | Listening => (Return port, set_server (Some port) w)
    | EADDRINUSE => scanPorts env startPort endPort n' (port + 1) w
    | ListenFailed c => (Throw (ListenError c), w)
    end
  end.

Definition findAvailablePort (env : Env) (startPort endPort : Z) (w : World)
  : Exc Z * World :=
  scanPorts env startPort endPort (Z.to_nat (endPort - startPort + 1)) startPort w.

(** *** [start] *)

(** What the event loop delivers while [start] waits. *)
Inductive Event : Type :=
| Connection (socket : nat)                 (* 'connection' on the server *)
| SocketClose (socket : nat)                (* 'close' on a tracked socket *)
| HttpRequest (req : Request) (x : Exchange)   (* one request, handled to its end *)
| UnparsedRequest                           (* one request whose URL does not parse *)
| IntervalTick                              (* the setInterval callback, 1000 ms *)
| TimeoutFired.                             (* the setTimeout callback, 300000 ms *)

(** The promise [start] returns. *)
Inductive Outcome : Type :=
| Resolved (b : bool)
| Rejected (e : Error)
| Pending.

(** Events other than the two timers. *)
Definition deliver (env : Env) (ev : Event) (w : World) : World :=
  match ev with
  | Connection socket =>
    set_activeConnections (activeConnections (self w) ∪ {[socket]}) w
  | SocketClose socket =>
    set_activeConnections (activeConnections (self w) ∖ {[socket]}) w
  | HttpRequest req x => fst (requestHandler env req x w)
  | UnparsedRequest => w       (* the callback rejects at its first statement *)
  | IntervalTick | TimeoutFired => w
  end.

(** The executor of the promise: [polling] tells whether [checkInterval] is
    still set. The world returned is the one at the moment the promise
    resolves, or after the last event when it has not. *)
Fixpoint awaitAuth (env : Env) (polling : bool) (w : World) (evs : list Event)
  : Outcome * World :=
  match evs with
  | [] => (Pending, w)
  | IntervalTick :: evs' =>
    if polling && authCompletedSuccessfully (self w)
    then (Resolved true, w)                       (* clearInterval; resolve(true) *)
    else awaitAuth env polling w evs'
  | TimeoutFired :: evs' =>
    if authCompletedSuccessfully (self w)
    then awaitAuth env false w evs'               (* clearInterval only *)
    else (Resolved false, w)                      (* clearInterval; resolve(false) *)
  | ev :: evs' => awaitAuth env polling (deliver env ev w) evs'
  end.

(** The world after a run of events, whatever the two timers do. *)
Definition deliverAll (env : Env) (w : World) (evs : list Event) : World :=
  fold_left (fun w' ev => deliver env ev w') evs w.

(** The body of the [try] block. *)
Definition start_try (env : Env) (openBrowser : bool) (w : World) (evs : list Event)
  : Exc Outcome * World :=
  let '(valid, f1, _) := hasValidTokens env (fs w) in
  let w1 := set_fs f1 w in
  if valid then
    (Return (Resolved true), set_authCompletedSuccessfully true w1)
  else
    match loadCredentials (fs w1) with
    | Throw e => (Throw e, w1)
    | Return credentials =>
      match findAvailablePort env 3000 3010 w1 with
      | (Throw e, w2) => (Throw e, w2)
      | (Return port, w2) =>
        let client :=
          createOAuth2Client credentials
            ("http://localhost:" ++ show_int port ++ "/oauth2callback")%string in
        let w3 := set_oAuth2Client (Some client) w2 in
        let authUrl := generateAuthUrl env client in
        let opened := if openBrowser then open env authUrl else Return tt in
        let '(o, w4) := awaitAuth env true w3 evs in
        (Return o, w4)
      end
    end.

(** [start(openBrowser = true)]: the [catch] logs and returns [false]. *)
Definition start (env : Env) (openBrowser : bool) (w : World) (evs : list Event)
  : Outcome * World :=
  match start_try env openBrowser w evs with
  | (Return o, w') => (o, w')
  | (Throw _, w') => (Resolved false, w')
  end.

(** *** [stop] *)

Inductive Stopped : Type :=
| NoServer              (* this.server was null *)
| ClosedInTime          (* the callback of server.close ran first *)
| GraceExpired.         (* the 2000 ms timer ran first *)

(** [stop()]: the world once the promise resolves, how it resolved, and the
    milliseconds that took. *)
Definition stop (env : Env) (w : World) : World * Stopped * Z :=
  match server (self w) with
  | None => (w, NoServer, 0)
  | Some _ =>
    let w1 := set_destroyed (destroyed w ∪ activeConnections (self w)) w in
    let w2 := set_activeConnections ∅ w1 in
    match close_after env with
    | Some d =>
      if d <? 2000
      then (set_server None w2, ClosedInTime, d)
      else (set_server None w2, GraceExpired, 2000)
    | None => (set_server None w2, GraceExpired, 2000)
    end
  end.

End AuthServer.

(* ===================================================================== *)
(** ** GoogleMeetAPI.js                                                   *)
(* ===================================================================== *)

Module GoogleMeetAPI.

(** *** Calendar events as the provider returns them *)

(** [event.start] and [event.end]. *)
Module EventTime.
Record t : Type := mk {
  dateTime : Js string;
  date : Js string;
  timeZone : Js string
}.
End EventTime.

Module EntryPoint.
Record t : Type := mk {
  entryPointType : Js string;
  uri : Js string;
  label : Js string
}.
End EntryPoint.

Module ConferenceData.
Record t : Type := mk {
  entryPoints : Js (list EntryPoint.t);
  conferenceId : Js string;
  createRequest_requestId : Js string     (* createRequest.requestId *)
}.
End ConferenceData.

Module Attendee.
Record t : Type := mk {
  email : Js string;
  responseStatus : Js string;
  optional : Js bool
}.
End Attendee.

(** A calendar event. [creator] and [organizer] are objects the code only
    passes on; they are kept as their e-mail. *)
Module Event.
Record t : Type := mk {
  id : Js string;
  summary : Js string;
  description : Js string;
  start : Js EventTime.t;
  end_ : Js EventTime.t;
  attendees : Js (list Attendee.t);
  conferenceData : Js ConferenceData.t;
  created : Js string;
  updated : Js string;
  creator : Js string;
  organizer : Js string;
  status : Js string;
  htmlLink : Js string;
  location : Js string
}.
End Event.

(** *** The meeting record [_formatMeetingData] builds *)

Module MeetingAttendee.
Record t : Type := mk {
  email : Js string;
  status : string;
  optional : bool
}.
End MeetingAttendee.

Module Meeting.
Record t : Type := mk {
  id : Js string;
  summary : string;
  description : string;
  start_time : Js string;
  end_time : Js string;
  meet_link : Js string;
  phone_info : string;
  attendees : list MeetingAttendee.t;
  created : Js string;
  updated : Js string;
  creator : Js string;
  organizer : Js string;
  status : Js string;
  html_link : Js string;
  conference_id : string;
  location : string
}.
End Meeting.

(** An entry of the list [checkTimeConflicts] returns. *)
Module Conflict.
Record t : Type := mk {
  id : Js string;
  summary : string;
  start_time : Js string;
  end_time : Js string;
  calendar : string
}.
End Conflict.

(** *** The calendar client [this.calendar] *)

Record GetParams : Type := mkGetParams {
  get_calendarId : string;
  get_eventId : string;
  get_conferenceDataVersion : Z
}.

Record WriteParams : Type := mkWriteParams {
  wr_calendarId : string;
  wr_eventId : Js string;             (* events.update only *)
  wr_conferenceDataVersion : Z;
  wr_sendUpdates : string;
  wr_resource : Event.t
}.

Record ListParams : Type := mkListParams {
  ls_calendarId : string;
  ls_maxResults : Js Z;
  ls_timeMin : Js string;
  ls_timeMax : Js string;
  ls_orderBy : string;
  ls_singleEvents : bool;
  ls_conferenceDataVersion : Z
}.

(** The calls of [calendar.events]; each resolves to [response.data] or
    rejects. [events_list] resolves to [response.data.items]. *)
Record Calendar : Type := mkCalendar {
  events_get : GetParams -> Exc Event.t;
  events_insert : WriteParams -> Exc Event.t;
  events_update : WriteParams -> Exc Event.t;
  events_list : ListParams -> Exc (Js (list Event.t))
}.

(** A property read on [this.calendar], which is [null] before
    [initialize]. *)
Definition the_calendar (calendar : option Calendar) : Exc Calendar :=
  match calendar with
  | Some c => Return c
  | None => Throw TypeError
  end.

(** [x.dateTime || x.date] on [event.start] or [event.end]; reading a
    property of a missing object throws. *)
Definition time_of (x : Js EventTime.t) : Exc (Js string) :=
  match x with
  | Val t => Return (or_js (EventTime.dateTime t) (EventTime.date t))
  | _ => Throw TypeError
  end.

(** *** [_formatMeetingData] *)

Definition is_type (ty : string) (ep : EntryPoint.t) : bool :=
  strict_eq_str (EntryPoint.entryPointType ep) ty.

(** The two [let] variables after the [if (entryPoints)] block. *)
Definition meetLink_of (cd : ConferenceData.t) : Js string :=
  match ConferenceData.entryPoints cd with
  | Val eps =>
    match find (is_type "video") eps with
    | Val videoEntry => EntryPoint.uri videoEntry
    | _ => Val ""%string
    end
  | _ => Val ""%string
  end.

Definition phoneInfo_of (cd : ConferenceData.t) : string :=
  match ConferenceData.entryPoints cd with
  | Val eps =>
    match find (is_type "phone") eps with
    | Val phoneEntry =>
      trim (or_str (EntryPoint.label phoneEntry) "" ++ " "
            ++ or_str (EntryPoint.uri phoneEntry) "")%string
    | _ => ""%string
    end
  | _ => ""%string
  end.

Definition formatAttendee (attendee : Attendee.t) : MeetingAttendee.t :=
  {| MeetingAttendee.email := Attendee.email attendee;
     MeetingAttendee.status := or_str (Attendee.responseStatus attendee) "needsAction";
     MeetingAttendee.optional := or_false (Attendee.optional attendee) |}.

(** [_formatMeetingData(event)]: [Return None] is the [null] result. *)
Definition _formatMeetingData (event : Js Event.t) : Exc (option Meeting.t) :=
  match event with
  | Val ev =>
    match Event.conferenceData ev with
    | Val cd =>
      let meetLink := meetLink_of cd in
      let phoneInfo := phoneInfo_of cd in
      let attendees := map formatAttendee (or_nil (Event.attendees ev)) in
      let! start_time := time_of (Event.start ev) in
      let! end_time := time_of (Event.end_ ev) in
      Return (Some
        {| Meeting.id := Event.id ev;
           Meeting.summary := or_str (Event.summary ev) "無標題";
           Meeting.description := or_str (Event.description ev) "";
           Meeting.start_time := start_time;
           Meeting.end_time := end_time;
           Meeting.meet_link := meetLink;
           Meeting.phone_info := phoneInfo;
           Meeting.attendees := attendees;
           Meeting.created := Event.created ev;
           Meeting.updated := Event.updated ev;
           Meeting.creator := Event.creator ev;
           Meeting.organizer := Event.organizer ev;
           Meeting.status := Event.status ev;
           Meeting.html_link := Event.htmlLink ev;
           Meeting.conference_id := or_str (ConferenceData.conferenceId cd) "";
           Meeting.location := or_str (Event.location ev) "" |})
    | _ => Return None
    end
  | _ => Return None
  end.

(** Every public method wraps what its [try] block throws. *)
Definition wrap {A : Type} (operation : string) (m : Exc A) : Exc A :=
  match m with
  | Return a => Return a
  | Throw e => Throw (GatewayError operation e)
  end.

(** [if (!meeting) throw ...; return meeting] *)
Definition formatted (event : Event.t) : Exc Meeting.t :=
  let! meeting := _formatMeetingData (Val event) in
  match meeting with
  | Some m => Return m
  | None => Throw CannotFormat
  end.

(** *** [getMeeting] *)

Definition getMeeting (calendar : option Calendar) (meetingId : string)
  : Exc Meeting.t :=
  wrap "getMeeting"
    (let! cal := the_calendar calendar in
     let! event := events_get cal
                     {| get_calendarId := "primary";
                        get_eventId := meetingId;
                        get_conferenceDataVersion := 1 |} in
     if negb (truthy_obj (Event.conferenceData event))
     then Throw (NoConferenceData meetingId)
     else formatted event).

(** *** [createMeeting] *)

(** [`meet-${Date.now()}-${Math.random().toString(36).substr(2, 9)}`];
    [random36] is the string [Math.random().toString(36)]. *)
Definition requestId (now : Z) (random36 : string) : string :=
  ("meet-" ++ show_int now ++ "-" ++ substr 2 9 random36)%string.

(** A default parameter value: it applies to [undefined] only. *)
Definition default {A : Type} (x : Js A) (d : A) : Js A :=
  match x with
  | Undefined => Val d
  | _ => x
  end.

(** [attendees.map(email => ({ email }))] *)
Definition formatEmails (attendees : Js (list string)) : Exc (list Attendee.t) :=
  match attendees with
  | Val l =>
    Return (map (fun email => {| Attendee.email := Val email;
                                 Attendee.responseStatus := Undefined;
                                 Attendee.optional := Undefined |}) l)
  | _ => Throw TypeError
  end.

Definition utc (t : Js string) : EventTime.t :=
  {| EventTime.dateTime := t; EventTime.date := Undefined;
     EventTime.timeZone := Val "UTC"%string |}.

(** The [event] object literal. *)
Definition newEvent (now : Z) (random36 : string)
    (summary startTime endTime description : Js string)
    (formattedAttendees : list Attendee.t) : Event.t :=
  {| Event.id := Undefined;
     Event.summary := summary;
     Event.description := description;
     Event.start := Val (utc startTime);
     Event.end_ := Val (utc endTime);
     Event.attendees := Val formattedAttendees;
     Event.conferenceData :=
       Val {| ConferenceData.entryPoints := Undefined;
              ConferenceData.conferenceId := Undefined;
              ConferenceData.createRequest_requestId := Val (requestId now random36) |};
     Event.created := Undefined;
     Event.updated := Undefined;
     Event.creator := Undefined;
     Event.organizer := Undefined;
     Event.status := Undefined;
     Event.htmlLink := Undefined;
     Event.location := Undefined |}.

(** The argument of [calendar.events.insert]. *)
Definition insertParams (event : Event.t) : WriteParams :=
  {| wr_calendarId := "primary";
     wr_eventId := Undefined;
     wr_conferenceDataVersion := 1;
     wr_sendUpdates := "all";
     wr_resource := event |}.

(** [createMeeting(summary, startTime, endTime, description = "", attendees = [])];
    the first component is the request sent to the provider, if any. *)
Definition createMeeting (calendar : option Calendar) (now : Z) (random36 : string)
    (summary startTime endTime description : Js string)
    (attendees : Js (list string)) : option WriteParams * Exc Meeting.t :=
  match formatEmails (default attendees []) with
  | Throw e => (None, Throw e)
  | Return formattedAttendees =>
    let event :=
      newEvent now random36 summary startTime endTime
               (default description ""%string) formattedAttendees in
    match the_calendar calendar with
    | Throw e => (None, Throw (GatewayError "createMeeting" e))
    | Return cal =>
      (Some (insertParams event),
       wrap "createMeeting"
         (let! createdEvent := events_insert cal (insertParams event) in
          formatted createdEvent))
    end
  end.

(** *** [updateMeeting] *)

(** The destructured second parameter. *)
Record Updates : Type := mkUpdates {
  u_summary : Js string;
  u_description : Js string;
  u_startTime : Js string;
  u_endTime : Js string;
  u_attendees : Js (list string)
}.

(** [{ ...existingEvent }] followed by the five guarded assignments. *)
Definition applyUpdates (existingEvent : Event.t) (u : Updates) : Exc Event.t :=
  let! newAttendees :=
    (if defined (u_attendees u)
     then let! l := formatEmails (u_attendees u) in Return (Val l)
     else Return (Event.attendees existingEvent)) in
  Return
    {| Event.id := Event.id existingEvent;
       Event.summary :=
         if defined (u_summary u) then u_summary u else Event.summary existingEvent;
       Event.description :=
         if defined (u_description u) then u_description u
         else Event.description existingEvent;
       Event.start :=
         if defined (u_startTime u) then Val (utc (u_startTime u))
         else Event.start existingEvent;
       Event.end_ :=
         if defined (u_endTime u) then Val (utc (u_endTime u))
         else Event.end_ existingEvent;
       Event.attendees := newAttendees;
       Event.conferenceData := Event.conferenceData existingEvent;
       Event.created := Event.created existingEvent;
       Event.updated := Event.updated existingEvent;
       Event.creator := Event.creator existingEvent;
       Event.organizer := Event.organizer existingEvent;
       Event.status := Event.status existingEvent;
       Event.htmlLink := Event.htmlLink existingEvent;
       Event.location := Event.location existingEvent |}.

(** The argument of [calendar.events.update]. *)
Definition updateParams (meetingId : string) (resource : Event.t) : WriteParams :=
  {| wr_calendarId := "primary";
     wr_eventId := Val meetingId;
     wr_conferenceDataVersion := 1;
     wr_sendUpdates := "all";
     wr_resource := resource |}.

(** The object [updateMeeting] writes back, when it gets that far. *)
Definition updateMeeting_resource (calendar : option Calendar) (meetingId : string)
    (u : Updates) : Exc Event.t :=
  let! cal := the_calendar calendar in
  let! existingEvent := events_get cal
                          {| get_calendarId := "primary";
                             get_eventId := meetingId;
                             get_conferenceDataVersion := 1 |} in
  applyUpdates existingEvent u.

(** [updateMeeting(meetingId, { summary, description, startTime, endTime, attendees } = {})],
    once the second argument is bound to the pattern: [u] holds the five
    fields read from it. *)
Definition updateMeeting (calendar : option Calendar) (meetingId : string)
    (u : Updates) : Exc Meeting.t :=
  wrap "updateMeeting"
    (let! cal := the_calendar calendar in
     let! updates := updateMeeting_resource calendar meetingId u in
     let! updatedEvent := events_update cal (updateParams meetingId updates) in
     formatted updatedEvent).

(** The binding of the second parameter, which comes before the [try]: the
    default [{}] stands in for [undefined] only, and [null] cannot be
    destructured. *)
Definition bindUpdates (arg : Js Updates) : Exc Updates :=
  match arg with
  | Undefined => Return (mkUpdates Undefined Undefined Undefined Undefined Undefined)
  | Null => Throw TypeError
  | Val u => Return u
  end.

(** [updateMeeting(meetingId, arg)] as a caller invokes it. *)
Definition updateMeeting_call (calendar : option Calendar) (meetingId : string)
    (arg : Js Updates) : Exc Meeting.t :=
  let! u := bindUpdates arg in
  updateMeeting calendar meetingId u.

(** *** [checkTimeConflicts] and [checkAvailability] *)

(** A [Date] object is its time value; [None] is an invalid date, for which
    every comparison is false. *)
Definition date_lt (a b : option Z) : bool :=
  match a, b with
  | Some x, Some y => x <? y
  | _, _ => false
  end.

Section Conflicts.

(** [new Date(value)] *)
Variable Date_new : Js string -> option Z.

(** [eventStart < checkEnd && checkStart < eventEnd] *)
Definition overlaps (eventStart eventEnd checkStart checkEnd : option Z) : bool :=
  date_lt eventStart checkEnd && date_lt checkStart eventEnd.

(** The body of the inner [for]: the conflict pushed for one event, if any. *)
Definition conflictOf (startTime endTime : Js string) (calendarId : string)
    (event : Event.t) : Exc (option Conflict.t) :=
  let! start_time := time_of (Event.start event) in
  let! end_time := time_of (Event.end_ event) in
  if overlaps (Date_new start_time) (Date_new end_time)
              (Date_new startTime) (Date_new endTime)
  then Return (Some {| Conflict.id := Event.id event;
                       Conflict.summary := or_str (Event.summary event) "無標題";
                       Conflict.start_time := start_time;
                       Conflict.end_time := end_time;
                       Conflict.calendar := calendarId |})
  else Return None.

(** The inner [for]: [conflicts] is the array being filled. *)
Fixpoint scanEvents (startTime endTime : Js string) (calendarId : string)
    (events : list Event.t) (conflicts : list Conflict.t) : Exc (list Conflict.t) :=
  match events with
  | [] => Return conflicts
  | event :: rest =>
    let! c := conflictOf startTime endTime calendarId event in
    scanEvents startTime endTime calendarId rest
      (match c with
       | Some x => conflicts ++ [x]
       | None => conflicts
       end)
  end.

Definition conflictListParams (startTime endTime : Js string) (calendarId : string)
  : ListParams :=
  {| ls_calendarId := calendarId;
     ls_maxResults := Undefined;
     ls_timeMin := startTime;
     ls_timeMax := endTime;
     ls_orderBy := "startTime";
     ls_singleEvents := true;
     ls_conferenceDataVersion := 1 |}.

(** The outer [for] over the calendars; [this.calendar] is read in its
    body, once per calendar. *)
Fixpoint scanCalendars (calendar : option Calendar) (startTime endTime : Js string)
    (calendars : list string) (conflicts : list Conflict.t) : Exc (list Conflict.t) :=
  match calendars with
  | [] => Return conflicts
  | calendarId :: rest =>
    let! cal := the_calendar calendar in
    let! items := events_list cal (conflictListParams startTime endTime calendarId) in
    let! conflicts' :=
      scanEvents startTime endTime calendarId (or_nil items) conflicts in
    scanCalendars calendar startTime endTime rest conflicts'
  end.

(** [checkTimeConflicts(startTime, endTime, calendars = ['primary'])] *)
Definition checkTimeConflicts (calendar : option Calendar)
    (startTime endTime : Js string) (calendars : Js (list string))
  : Exc (list Conflict.t) :=
  wrap "checkTimeConflicts"
    (match default calendars ["primary"%string] with
     | Val l => scanCalendars calendar startTime endTime l []
     | _ => Throw TypeError
     end).

Record Availability : Type := mkAvailability {
  available : bool;
  conflicts : list Conflict.t;
  checked_calendars : Js (list string);
  time_range : Js string * Js string
}.

(** [checkAvailability(startTime, endTime, calendars = ['primary'])] *)
Definition checkAvailability (calendar : option Calendar)
    (startTime endTime : Js string) (calendars : Js (list string))
  : Exc Availability :=
  wrap "checkAvailability"
    (let! found := checkTimeConflicts calendar startTime endTime
                     (default calendars ["primary"%string]) in
     Return {| available := (Z.of_nat (length found) =? 0);
               conflicts := found;
               checked_calendars := default calendars ["primary"%string];
               time_range := (startTime, endTime) |}).

End Conflicts.

(** *** [initialize] *)

(** The token block of [initialize]: the inner [try], whose [catch] rethrows.
    It yields its result, the files afterwards and the calls made. *)
Definition loadToken (now : Z) (refresh : Js string -> Exc (option Tokens))
    (writeFile : Exc unit) (f : FS) : Exc unit * FS * list IO :=
  match readJson (tokenFile f) with
  | Throw e => (Throw (NoValidToken e), f, [])
  | Return token =>
    if AuthServer.expired now token then
      let response := refresh (refresh_token token) in
      match response with
      | Throw e =>
        (Throw (NoValidToken e), f, [IORefresh (refresh_token token) response])
      | Return None =>
        (* fs.writeFile(tokenPath, JSON.stringify(undefined)) *)
        (Throw (NoValidToken TypeError), f, [IORefresh (refresh_token token) response])
      | Return (Some newCredentials) =>
        match writeFile with
        | Throw e =>
          (Throw (NoValidToken e), f, [IORefresh (refresh_token token) response])
        | Return _ =>
          (Return tt,
           {| credentialsFile := credentialsFile f; tokenFile := Json newCredentials |},
           [IORefresh (refresh_token token) response; IOWriteTokenFile newCredentials])
        end
      end
    else (Return tt, f, [])
  end.

(** [redirect_uris[0]] *)
Definition first_redirect (c : ClientConfig) : Exc (Js string) :=
  match redirect_uris c with
  | Val (u :: _) => Return (Val u)
  | Val [] => Return Undefined
  | _ => Throw TypeError
  end.

(** [initialize()]: on success [this.calendar] is the client [google.calendar]
    builds, here [client]. *)
Definition initialize (now : Z)
    (refresh : OAuth2Client -> Js string -> Exc (option Tokens))
    (writeFile : Exc unit) (client : Calendar) (f : FS)
  : Exc Calendar * FS * list IO :=
  match credentialsFile f with
  | Absent => (Throw CredentialsFileNotFound, f, [])
  | Garbage => (Throw SyntaxError, f, [])
  | Json credentials =>
    match
      (let! clientConfig :=
         match web credentials with
         | Val c => Return c
         | _ => match installed credentials with
                | Val c => Return c
                | _ => Throw InvalidCredentialsFormat
                end
         end in
       let! redirect := first_redirect clientConfig in
       Return {| oa_client_id := client_id clientConfig;
                 oa_client_secret := client_secret clientConfig;
                 oa_redirectUri := redirect |})
    with
    | Throw e => (Throw e, f, [])
    | Return oAuth2Client =>
      match loadToken now (refresh oAuth2Client) writeFile f with
      | (Throw e, f', log) => (Throw e, f', log)
      | (Return _, f', log) => (Return client, f', log)
      end
    end
  end.

(** *** [listMeetings] *)

(** The [params] object; [nowISO] is [new Date().toISOString()]. *)
Definition listMeetingsParams (nowISO : string) (maxResults : Js Z)
    (timeMin timeMax : Js string) : ListParams :=
  {| ls_calendarId := "primary";
     ls_maxResults := default maxResults 10;
     ls_timeMin := if truthy_str timeMin then timeMin else Val nowISO;
     ls_timeMax := if truthy_str timeMax then timeMax else Undefined;
     ls_orderBy := "startTime";
     ls_singleEvents := true;
     ls_conferenceDataVersion := 1 |}.

(** The [for] loop filling [meetings]. *)
Fixpoint collectMeetings (events : list Event.t) (meetings : list Meeting.t)
  : Exc (list Meeting.t) :=
  match events with
  | [] => Return meetings
  | event :: rest =>
    if truthy_obj (Event.conferenceData event) then
      let! meeting := _formatMeetingData (Val event) in
      collectMeetings rest
        (match meeting with
         | Some m => meetings ++ [m]
         | None => meetings
         end)
    else collectMeetings rest meetings
  end.

(** [listMeetings(maxResults = 10, timeMin = null, timeMax = null)] *)
Definition listMeetings (calendar : option Calendar) (nowISO : string)
    (maxResults : Js Z) (timeMin timeMax : Js string) : Exc (list Meeting.t) :=
  wrap "listMeetings"
    (let! cal := the_calendar calendar in
     let! items := events_list cal (listMeetingsParams nowISO maxResults timeMin timeMax) in
     collectMeetings (or_nil items) []).

(** *** [deleteMeeting] *)

Record DeleteParams : Type := mkDeleteParams {
  del_calendarId : string;
  del_eventId : string;
  del_sendUpdates : string
}.

(** [deleteMeeting(meetingId)]; [events_delete] is [calendar.events.delete],
    kept apart from the record [Calendar]. *)
Definition deleteMeeting (calendar : option Calendar)
    (events_delete : DeleteParams -> Exc unit) (meetingId : string) : Exc unit :=
  wrap "deleteMeeting"
    (let! cal := the_calendar calendar in
     events_delete {| del_calendarId := "primary";
                      del_eventId := meetingId;
                      del_sendUpdates := "all" |}).

(** *** [getFreeBusy] *)

Module FreeBusy.

(** A busy interval: its [start] and [end]. *)
Definition interval : Type := (Js string * Js string)%type.

(** One calendar of [response.data.calendars]. *)
Record data : Type := mkData {
  busy : Js (list interval);
  errors : Js (list string)
}.

(** One calendar of the result. *)
Record times : Type := mkTimes {
  t_busy : list interval;
  t_errors : list string
}.

(** The argument of [calendar.freebusy.query]: [resource]. *)
Record query : Type := mkQuery {
  timeMin : Js string;
  timeMax : Js string;
  items : list string          (* the [id] of each item *)
}.

Record result : Type := mkResult {
  time_range : Js string * Js string;
  calendars : gmap string times
}.

End FreeBusy.

(** The body of the [for ... of Object.entries(freebusyData)] loop. *)
Definition reshape (d : FreeBusy.data) : FreeBusy.times :=
  {| FreeBusy.t_busy := or_nil (FreeBusy.busy d);
     FreeBusy.t_errors := or_nil (FreeBusy.errors d) |}.

(** The loop: every entry is assigned into [busyTimes]. *)
Definition fillBusyTimes (freebusyData : gmap string FreeBusy.data)
  : gmap string FreeBusy.times :=
  map_fold (fun calendarId d busyTimes => <[calendarId := reshape d]> busyTimes)
           ∅ freebusyData.

(** [getFreeBusy(startTime, endTime, calendars = ['primary'])];
    [freebusy_query] is [calendar.freebusy.query], resolving to
    [response.data.calendars]. *)
Definition getFreeBusy (calendar : option Calendar)
    (freebusy_query : FreeBusy.query -> Exc (Js (gmap string FreeBusy.data)))
    (startTime endTime : Js string) (calendars : Js (list string))
  : Exc FreeBusy.result :=
  wrap "getFreeBusy"
    (let! cal := the_calendar calendar in
     let! ids := match default calendars ["primary"%string] with
                 | Val l => Return l
                 | _ => Throw TypeError
                 end in
     let! freebusyData := freebusy_query {| FreeBusy.timeMin := startTime;
                                            FreeBusy.timeMax := endTime;
                                            FreeBusy.items := ids |} in
     match freebusyData with
     | Val d => Return {| FreeBusy.time_range := (startTime, endTime);
                          FreeBusy.calendars := fillBusyTimes d |}
     | _ => Throw TypeError
     end).

End GoogleMeetAPI.

(* ===================================================================== *)
(** ** index.js: the two methods that drive the authorization server      *)
(* ===================================================================== *)

Module McpServer.

Import AuthServer.

(** The fields of [GoogleMeetMcpServer] that [initializeAuthentication] and
    [cleanup] touch, with the files and the destroyed sockets. *)
Record t : Type := mk {
  googleMeet_calendar : option GoogleMeetAPI.Calendar;   (* this.googleMeet.calendar *)
  authServer : option AuthServer.t;
  isAuthenticated : bool;
  files : FS;
  destroyedSockets : gset nat
}.

(** [await this.googleMeet.initialize()] on the current files. *)
Definition tryInitialize (env : Env) (client : GoogleMeetAPI.Calendar) (s : t)
  : Exc t :=
  match GoogleMeetAPI.initialize (Date_now env) (refreshToken env) (fs_write env)
                                 client (files s) with
  | (Return cal, f', _) =>
    Return {| googleMeet_calendar := Some cal;
              authServer := authServer s;
              isAuthenticated := true;
              files := f';
              destroyedSockets := destroyedSockets s |}
  | (Throw e, _, _) => Throw e
  end.

(** [initializeAuthentication()] *)
Definition initializeAuthentication (env : Env) (client : GoogleMeetAPI.Calendar)
    (evs : list Event) (s0 : t) : Outcome * t :=
  (* this.googleMeet = new GoogleMeetAPI(...): its calendar is null *)
  let s := {| googleMeet_calendar := None;
              authServer := authServer s0;
              isAuthenticated := isAuthenticated s0;
              files := files s0;
              destroyedSockets := destroyedSockets s0 |} in
  match tryInitialize env client s with
  | Return s' => (Resolved true, s')
  | Throw _ =>
    let '(authSuccess, w) :=
      start env true
        {| self := AuthServer.new; fs := files s; destroyed := destroyedSockets s |}
        evs in
    let s1 := {| googleMeet_calendar := googleMeet_calendar s;
                 authServer := Some (self w);
                 isAuthenticated := isAuthenticated s;
                 files := fs w;
                 destroyedSockets := destroyed w |} in
    match authSuccess with
    | Resolved true =>
      match tryInitialize env client s1 with
      | Return s2 => (Resolved true, s2)
      | Throw _ => (Resolved false, s1)
      end
    | Resolved false => (Resolved false, s1)
    | Rejected _ => (Resolved false, s1)
    | Pending => (Pending, s1)
    end
  end.

(** [cleanup()], as far as the authorization server goes. *)
Definition cleanup (env : Env) (s : t) : t :=
  match authServer s with
  | Some a =>
    let '(w, _, _) :=
      stop env {| self := a; fs := files s; destroyed := destroyedSockets s |} in
    {| googleMeet_calendar := googleMeet_calendar s;
       authServer := Some (self w);
       isAuthenticated := isAuthenticated s;
       files := fs w;
       destroyedSockets := destroyed w |}
  | None => s
  end.

End McpServer.

(* ===================================================================== *)
(** ** index.js: authentication guard and tool handlers                   *)
(* ===================================================================== *)

Module ToolHandlers.

Import GoogleMeetAPI.

(** [McpError]: its code with what the message is made of. *)
Inductive McpError : Type :=
| InvalidRequest (message : string)
| InvalidParams (message : string)
| InternalError (prefix : string) (cause : Error).   (* `${prefix}${error.message}` *)

(** What a handler resolves to: the text of its single content item, or the
    error it throws. *)
Inductive Reply : Type :=
| Content (text : string)
| McpThrow (e : McpError).

(** How [ensureAuthenticated()] settles: it returns, throws its [McpError],
    rejects with what [initializeAuthentication] rejected with, or stays
    pending with it. *)
Inductive Guard : Type :=
| Passed
| Refused (e : McpError)
| Crashed (e : Error)
| Waiting.

(** [ensureAuthenticated()] *)
Definition ensureAuthenticated (env : AuthServer.Env) (client : Calendar)
    (evs : list AuthServer.Event) (s : McpServer.t) : Guard * McpServer.t :=
  if McpServer.isAuthenticated s then (Passed, s)
  else
    match McpServer.initializeAuthentication env client evs s with
    | (AuthServer.Resolved true, s') => (Passed, s')
    | (AuthServer.Resolved false, s') =>
      (Refused (InvalidRequest "認證失敗。請檢查您的憑證設定並重新啟動服務。"), s')
    | (AuthServer.Rejected e, s') => (Crashed e, s')
    | (AuthServer.Pending, s') => (Waiting, s')
    end.

Section Handlers.

(** [new Date(value).toLocaleString('zh-TW')] *)
Variable toLocaleString : Js string -> string.

(** [new Date(value)], for the conflict check. *)
Variable Date_new : Js string -> option Z.

(** *** [handleListMeetings] *)

Record ListArgs : Type := mkListArgs {
  max_results : Js Z;
  time_min : Js string;
  time_max : Js string
}.

(** The callback of [meetings.map((meeting, index) => ...)]. *)
Definition listEntry (index : nat) (meeting : Meeting.t) : string :=
  ("**" ++ show_int (Z.of_nat index + 1) ++ ". " ++ Meeting.summary meeting ++ "**" ++ nl
   ++ "🕐 時間：" ++ toLocaleString (Meeting.start_time meeting) ++ " - "
   ++ toLocaleString (Meeting.end_time meeting) ++ nl
   ++ "🔗 會議連結：" ++ template (Meeting.meet_link meeting) ++ nl
   ++ "👥 參與者：" ++ show_int (Z.of_nat (length (Meeting.attendees meeting))) ++ " 人" ++ nl
   ++ "📋 ID：" ++ template (Meeting.id meeting) ++ nl)%string.

Fixpoint listEntries (index : nat) (meetings : list Meeting.t) : list string :=
  match meetings with
  | [] => []
  | meeting :: rest => listEntry index meeting :: listEntries (S index) rest
  end.

(** The [text] of the reply: the sum of the header and the joined entries,
    or, were that sum empty, the fallback. *)
Definition listText (meetings : list Meeting.t) : string :=
  or_text
    ("📅 **找到 " ++ show_int (Z.of_nat (length meetings))
     ++ " 個即將到來的 Google Meet 會議**" ++ nl ++ nl
     ++ String.concat nl (listEntries 0 meetings))%string
    "目前沒有即將到來的會議。".

Definition handleListMeetings (calendar : option Calendar) (nowISO : string)
    (args : ListArgs) : Reply :=
  match listMeetings calendar nowISO (default (max_results args) 10)
                     (time_min args) (time_max args) with
  | Return meetings => Content (listText meetings)
  | Throw e => McpThrow (InternalError "列出會議時發生錯誤: " e)
  end.

(** *** [handleUpdateMeeting] *)

(** The keys of [args] that the schema declares or that [updateMeeting]
    reads from the rest object [updateFields]. *)
Record UpdateArgs : Type := mkUpdateArgs {
  ua_meeting_id : Js string;
  ua_summary : Js string;
  ua_description : Js string;
  ua_start_time : Js string;        (* declared by the schema *)
  ua_end_time : Js string;          (* declared by the schema *)
  ua_attendees : Js (list string);
  ua_startTime : Js string;         (* read by updateMeeting *)
  ua_endTime : Js string            (* read by updateMeeting *)
}.

(** What [updateMeeting] destructures from [updateFields]. *)
Definition updateFields (args : UpdateArgs) : Updates :=
  {| u_summary := ua_summary args;
     u_description := ua_description args;
     u_startTime := ua_startTime args;
     u_endTime := ua_endTime args;
     u_attendees := ua_attendees args |}.

Definition updateText (meeting : Meeting.t) : string :=
  ("✅ **會議更新成功！**" ++ nl ++ nl
   ++ "**更新後的會議資訊：**" ++ nl
   ++ "📋 標題：" ++ Meeting.summary meeting ++ nl
   ++ "📝 描述：" ++ or_text (Meeting.description meeting) "無" ++ nl
   ++ "🕐 開始時間：" ++ toLocaleString (Meeting.start_time meeting) ++ nl
   ++ "🕐 結束時間：" ++ toLocaleString (Meeting.end_time meeting) ++ nl
   ++ "🔗 Google Meet 連結：" ++ template (Meeting.meet_link meeting) ++ nl
   ++ "👥 參與者：" ++ show_int (Z.of_nat (length (Meeting.attendees meeting))) ++ " 人" ++ nl
   ++ "🆔 會議 ID：" ++ template (Meeting.id meeting) ++ nl ++ nl
   ++ "📧 **更新通知已發送給所有參與者。**")%string.

Definition handleUpdateMeeting (calendar : option Calendar) (args : UpdateArgs)
  : Reply :=
  match ua_meeting_id args with
  | Val meeting_id =>
    if String.eqb meeting_id "" then McpThrow (InvalidParams "缺少必要參數: meeting_id")
    else
      match updateMeeting calendar meeting_id (updateFields args) with
      | Return meeting => Content (updateText meeting)
      | Throw e => McpThrow (InternalError "更新會議時發生錯誤: " e)
      end
  | _ => McpThrow (InvalidParams "缺少必要參數: meeting_id")
  end.

(** *** [handleCreateMeeting] *)

Record CreateArgs : Type := mkCreateArgs {
  ca_summary : Js string;
  ca_description : Js string;
  ca_start_time : Js string;
  ca_end_time : Js string;
  ca_attendees : Js (list string);
  ca_check_conflicts : Js bool
}.

(** The callback of [conflicts.map(conflict => ...)]. *)
Definition conflictLine (conflict : Conflict.t) : string :=
  ("• " ++ Conflict.summary conflict ++ " ("
   ++ toLocaleString (Conflict.start_time conflict) ++ " - "
   ++ toLocaleString (Conflict.end_time conflict) ++ ")")%string.

(** [conflictWarning] after the check. *)
Definition conflictWarning (found : list Conflict.t) : string :=
  match found with
  | [] => ""
  | _ => (nl ++ "⚠️ **時間衝突警告：**" ++ nl
          ++ String.concat nl (map conflictLine found) ++ nl)%string
  end.

Definition createText (warning : string) (meeting : Meeting.t) (attendees : list string)
  : string :=
  ("✅ **會議創建成功！**" ++ nl ++ nl
   ++ warning
   ++ "**會議資訊：**" ++ nl
   ++ "📋 標題：" ++ Meeting.summary meeting ++ nl
   ++ "📝 描述：" ++ or_text (Meeting.description meeting) "無" ++ nl
   ++ "🕐 開始時間：" ++ toLocaleString (Meeting.start_time meeting) ++ nl
   ++ "🕐 結束時間：" ++ toLocaleString (Meeting.end_time meeting) ++ nl
   ++ "🔗 **Google Meet 連結：** " ++ template (Meeting.meet_link meeting) ++ nl
   ++ "📞 電話撥入：" ++ or_text (Meeting.phone_info meeting) "無" ++ nl
   ++ "👥 參與者：" ++ show_int (Z.of_nat (length (Meeting.attendees meeting))) ++ " 人" ++ nl
   ++ "📧 邀請已發送給：" ++ or_text (String.concat ", " attendees) "無" ++ nl
   ++ "🆔 會議 ID：" ++ template (Meeting.id meeting) ++ nl ++ nl
   ++ "💡 **提示：** 您可以複製上方的 Google Meet 連結分享給參與者，或者他們會收到日曆邀請。")%string.

(** [handleCreateMeeting(args)]: the request sent to [events.insert], if
    any, and the reply. [now] and [random36] are the clock and the random
    draw [createMeeting] reads. *)
Definition handleCreateMeeting (calendar : option Calendar) (now : Z)
    (random36 : string) (args : CreateArgs) : option WriteParams * Reply :=
  let description := default (ca_description args) ""%string in
  let attendees := default (ca_attendees args) [] in
  let check_conflicts := default (ca_check_conflicts args) true in
  if negb (truthy_str (ca_summary args)) || negb (truthy_str (ca_start_time args))
     || negb (truthy_str (ca_end_time args))
  then (None, McpThrow (InvalidParams "缺少必要參數: summary, start_time, end_time"))
  else
    match
      (if truthy_bool check_conflicts
       then let! found := checkTimeConflicts Date_new calendar (ca_start_time args)
                            (ca_end_time args) Undefined in
            Return (conflictWarning found)
       else Return ""%string)
    with
    | Throw e => (None, McpThrow (InternalError "創建會議時發生錯誤: " e))
    | Return warning =>
      match createMeeting calendar now random36 (ca_summary args) (ca_start_time args)
                          (ca_end_time args) description attendees with
      | (sent, Throw e) => (sent, McpThrow (InternalError "創建會議時發生錯誤: " e))
      | (sent, Return meeting) =>
        (sent, Content (createText warning meeting (or_nil attendees)))
      end
    end.

End Handlers.

End ToolHandlers.

(* ===================================================================== *)
(** ** Conditions in the words of the specification                       *)
(* ===================================================================== *)

Module Spec.

(** The validity condition of [TokenStore.isValid] as the specification
    words it: both token fields present, and the expiry absent, or not
    before now, or a successful refresh among the calls just made. *)
Definition valid_as_specified (now : Z) (tokens : Tokens) (log : list IO) : Prop :=
  (exists a, access_token tokens = Val a) /\
  (exists r, refresh_token tokens = Val r) /\
  (expiry_date tokens = Undefined
   \/ (exists e, expiry_date tokens = Val e /\ now <= e)
   \/ (exists rt nc, In (IORefresh rt (Return nc)) log)).

(** A callback on the redirect path that carries a code and no error, whose
    exchange for tokens succeeds and whose tokens are written to disk. *)
Definition successfulCallback (ev : AuthServer.Event) : bool :=
  match ev with
  | AuthServer.HttpRequest req x =>
    String.eqb (AuthServer.pathname req) "/oauth2callback"
    && negb (truthy_str (AuthServer.error req))
    && truthy_str (AuthServer.code req)
    && match AuthServer.getToken x, AuthServer.write x with
       | Return _, Return _ => true
       | _, _ => false
       end
  | _ => false
  end.

(** Such a callback arrives before the timeout fires. *)
Definition callback_before_timeout (evs : list AuthServer.Event) : Prop :=
  exists pre ev post,
    evs = pre ++ ev :: post
    /\ successfulCallback ev = true
    /\ ~ In AuthServer.TimeoutFired pre.

(** A session marked failed has ended: whatever is delivered next, the
    flow does not complete with success. *)
Definition marked_failed (env : AuthServer.Env) (w : AuthServer.World) : Prop :=
  forall polling evs,
    (AuthServer.awaitAuth env polling w evs).1 <> AuthServer.Resolved true.

(** The entry point of a given type a meeting offers, if any. *)
Definition entry_of (ty : string) (cd : GoogleMeetAPI.ConferenceData.t)
  : Js GoogleMeetAPI.EntryPoint.t :=
  match GoogleMeetAPI.ConferenceData.entryPoints cd with
  | Val eps => find (GoogleMeetAPI.is_type ty) eps
  | _ => Undefined
  end.

(** The Meet link of a conference: the [uri] of its video entry point. It
    is missing when there is no such entry point, or none with a [uri]. *)
Definition link_of (cd : GoogleMeetAPI.ConferenceData.t) : Js string :=
  match entry_of "video" cd with
  | Val ep => GoogleMeetAPI.EntryPoint.uri ep
  | _ => Undefined
  end.

(** The default of [meet_link] as the specification words it: the empty
    string when the link is missing. *)
Definition meet_link_defaulted (cd : GoogleMeetAPI.ConferenceData.t)
    (m : GoogleMeetAPI.Meeting.t) : Prop :=
  truthy_str (link_of cd) = false -> GoogleMeetAPI.Meeting.meet_link m = Val ""%string.

End Spec.

(* ===================================================================== *)
(** ** Vocabulary of the further properties                               *)
(* ===================================================================== *)

Module Vocabulary.

(** A request that reaches the token exchange: on the redirect path, with
    no error shown and a code to exchange. *)
Definition exchangeAttempt (ev : AuthServer.Event) : bool :=
  match ev with
  | AuthServer.HttpRequest req x =>
    String.eqb (AuthServer.pathname req) "/oauth2callback"
    && negb (truthy_str (AuthServer.error req))
    && truthy_str (AuthServer.code req)
  | _ => false
  end.

(** The last exchange attempt of a run of events, if there is one. *)
Fixpoint lastAttempt (evs : list AuthServer.Event) : option AuthServer.Event :=
  match evs with
  | [] => None
  | ev :: rest =>
    match lastAttempt rest with
    | Some later => Some later
    | None => if exchangeAttempt ev then Some ev else None
    end
  end.

(** The events among [events] that carry conference data. *)
Definition conferenceEvents (events : list GoogleMeetAPI.Event.t)
  : list GoogleMeetAPI.Event.t :=
  List.filter (fun ev => truthy_obj (GoogleMeetAPI.Event.conferenceData ev)) events.

(** The client configuration a credentials file offers: [web], else
    [installed]. *)
Definition clientConfigOf (credentials : CredentialsFile) : option ClientConfig :=
  match web credentials with
  | Val c => Some c
  | _ => match installed credentials with
         | Val c => Some c
         | _ => None
         end
  end.

(** The server keeps a calendar client once it calls itself authenticated. *)
Definition authenticatedWithClient (s : McpServer.t) : Prop :=
  McpServer.isAuthenticated s = true -> is_Some (McpServer.googleMeet_calendar s).

End Vocabulary.

(* ===================================================================== *)
(** ** Concrete inputs used by the examples below                         *)
(* ===================================================================== *)

Module Fixtures.

Import AuthServer.

Definition someTokens (expiry : Js Z) : Tokens :=
  {| access_token := Val "ya29.a0"%string;
     refresh_token := Val "1//0g"%string;
     expiry_date := expiry;
     scope := Val "https://www.googleapis.com/auth/calendar"%string;
     token_type := Val "Bearer"%string |}.

Definition desktopCredentials : CredentialsFile :=
  {| web := Undefined;
     installed := Val {| client_id := Val "id.apps.googleusercontent.com"%string;
                         client_secret := Val "secret"%string;
                         redirect_uris := Val ["http://localhost"%string] |} |}.

(** Files before the first authorization: credentials, no token file. *)
Definition freshFiles : FS :=
  {| credentialsFile := Json desktopCredentials; tokenFile := Absent |}.

Definition freshWorld : World :=
  {| self := AuthServer.new; fs := freshFiles; destroyed := ∅ |}.

(** Ports 3000, 3001 and 3002 are taken, every other port is free. *)
Definition listen_3003 (port : Z) : ListenResult :=
  if (3000 <=? port) && (port <=? 3002) then EADDRINUSE else Listening.

(** An environment whose provider refreshes every token to one that expires
    an hour after [now], handed over as [credentials], and whose disk
    accepts writes. *)
Definition envAt (now : Z) (listening : Z -> ListenResult) : Env :=
  {| Date_now := now;
     refreshToken := fun _ _ => Return (Some (someTokens (Val (now + 3600000))));
     generateAuthUrl := fun _ => "https://accounts.google.com/o/oauth2/v2/auth"%string;
     fs_write := Return tt;
     listen := listening;
     open := fun _ => Return tt;
     close_after := Some 5 |}.

(** The same with a provider that rejects every refresh. *)
Definition envRefreshFails (now : Z) : Env :=
  {| Date_now := now;
     refreshToken := fun _ _ => Throw (ProviderError "invalid_grant");
     generateAuthUrl := fun _ => "https://accounts.google.com/o/oauth2/v2/auth"%string;
     fs_write := Return tt;
     listen := fun _ => Listening;
     open := fun _ => Return tt;
     close_after := Some 5 |}.

(** The same with a refresh that resolves as the [refreshToken] of
    google-auth-library does, with [{ tokens, res }]: the caller finds no
    [credentials] in it. *)
Definition envRefreshResolvesTokens (now : Z) : Env :=
  {| Date_now := now;
     refreshToken := fun _ _ => Return None;
     generateAuthUrl := fun _ => "https://accounts.google.com/o/oauth2/v2/auth"%string;
     fs_write := Return tt;
     listen := fun _ => Listening;
     open := fun _ => Return tt;
     close_after := Some 5 |}.

(** A callback carrying a code, answered by a successful exchange. *)
Definition goodCallback : Event :=
  HttpRequest {| pathname := "/oauth2callback"; code := Val "4/0Ab"%string; error := Null |}
              {| getToken := Return (someTokens (Val 1800000000000)); write := Return tt |}.

(** A callback carrying a code the provider rejects. *)
Definition rejectedCallback : Event :=
  HttpRequest {| pathname := "/oauth2callback"; code := Val "4/0Ab"%string; error := Null |}
              {| getToken := Throw (ProviderError "invalid_grant"); write := Return tt |}.

(** A callback carrying [error=access_denied]. *)
Definition deniedCallback : Event :=
  HttpRequest {| pathname := "/oauth2callback"; code := Null;
                 error := Val "access_denied"%string |}
              {| getToken := Throw (ProviderError "unused"); write := Return tt |}.

(** A callback whose query is [?error=&code=4/0Ab]: an error parameter
    with an empty value next to a code. *)
Definition emptyErrorCallback : Event :=
  HttpRequest {| pathname := "/oauth2callback"; code := Val "4/0Ab"%string;
                 error := Val ""%string |}
              {| getToken := Return (someTokens (Val 1800000000000)); write := Return tt |}.

(** Every port free, the clock at 0. *)
Definition quietEnv : Env := envAt 0 (fun _ => Listening).

(** The world while [start] waits, no event delivered yet. *)
Definition waitingWorld : World := (start quietEnv true freshWorld []).2.

(** Files holding a bundle that expires at 5000. *)
Definition filesWithTokens : FS :=
  {| credentialsFile := Json desktopCredentials;
     tokenFile := Json (someTokens (Val 5000)) |}.

(** An event as the provider returns it for a meeting without title: one
    invited attendee who has not answered, a video entry point, no phone. *)
Definition untitledMeeting : GoogleMeetAPI.Event.t :=
  {| GoogleMeetAPI.Event.id := Val "evt1"%string;
     GoogleMeetAPI.Event.summary := Undefined;
     GoogleMeetAPI.Event.description := Undefined;
     GoogleMeetAPI.Event.start :=
       Val (GoogleMeetAPI.utc (Val "2025-01-01T09:30:00Z"%string));
     GoogleMeetAPI.Event.end_ :=
       Val (GoogleMeetAPI.utc (Val "2025-01-01T10:30:00Z"%string));
     GoogleMeetAPI.Event.attendees :=
       Val [ {| GoogleMeetAPI.Attendee.email := Val "ann@example.com"%string;
                GoogleMeetAPI.Attendee.responseStatus := Undefined;
                GoogleMeetAPI.Attendee.optional := Undefined |} ];
     GoogleMeetAPI.Event.conferenceData :=
       Val {| GoogleMeetAPI.ConferenceData.entryPoints :=
                Val [ {| GoogleMeetAPI.EntryPoint.entryPointType := Val "video"%string;
                         GoogleMeetAPI.EntryPoint.uri :=
                           Val "https://meet.google.com/abc-defg-hij"%string;
                         GoogleMeetAPI.EntryPoint.label := Undefined |} ];
              GoogleMeetAPI.ConferenceData.conferenceId := Undefined;
              GoogleMeetAPI.ConferenceData.createRequest_requestId := Undefined |};
     GoogleMeetAPI.Event.created := Val "2024-12-24T08:00:00Z"%string;
     GoogleMeetAPI.Event.updated := Val "2024-12-24T08:00:00Z"%string;
     GoogleMeetAPI.Event.creator := Val "me@example.com"%string;
     GoogleMeetAPI.Event.organizer := Val "me@example.com"%string;
     GoogleMeetAPI.Event.status := Val "confirmed"%string;
     GoogleMeetAPI.Event.htmlLink := Val "https://www.google.com/calendar/event?eid=1"%string;
     GoogleMeetAPI.Event.location := Undefined |}.

(** The untitled meeting with a video entry point that carries no [uri]. *)
Definition linklessMeeting : GoogleMeetAPI.Event.t :=
  {| GoogleMeetAPI.Event.id := Val "evt3"%string;
     GoogleMeetAPI.Event.summary := Undefined;
     GoogleMeetAPI.Event.description := Undefined;
     GoogleMeetAPI.Event.start := GoogleMeetAPI.Event.start untitledMeeting;
     GoogleMeetAPI.Event.end_ := GoogleMeetAPI.Event.end_ untitledMeeting;
     GoogleMeetAPI.Event.attendees := Undefined;
     GoogleMeetAPI.Event.conferenceData :=
       Val {| GoogleMeetAPI.ConferenceData.entryPoints :=
                Val [ {| GoogleMeetAPI.EntryPoint.entryPointType := Val "video"%string;
                         GoogleMeetAPI.EntryPoint.uri := Undefined;
                         GoogleMeetAPI.EntryPoint.label := Val "meet.google.com"%string |} ];
              GoogleMeetAPI.ConferenceData.conferenceId := Val "abc-defg-hij"%string;
              GoogleMeetAPI.ConferenceData.createRequest_requestId := Undefined |};
     GoogleMeetAPI.Event.created := Undefined;
     GoogleMeetAPI.Event.updated := Undefined;
     GoogleMeetAPI.Event.creator := Undefined;
     GoogleMeetAPI.Event.organizer := Undefined;
     GoogleMeetAPI.Event.status := Val "confirmed"%string;
     GoogleMeetAPI.Event.htmlLink := Undefined;
     GoogleMeetAPI.Event.location := Undefined |}.

(** The same day, 11:00 to 12:00. *)
Definition lateMeeting : GoogleMeetAPI.Event.t :=
  {| GoogleMeetAPI.Event.id := Val "evt2"%string;
     GoogleMeetAPI.Event.summary := Val "Review"%string;
     GoogleMeetAPI.Event.description := Undefined;
     GoogleMeetAPI.Event.start :=
       Val (GoogleMeetAPI.utc (Val "2025-01-01T11:00:00Z"%string));
     GoogleMeetAPI.Event.end_ :=
       Val (GoogleMeetAPI.utc (Val "2025-01-01T12:00:00Z"%string));
     GoogleMeetAPI.Event.attendees := Undefined;
     GoogleMeetAPI.Event.conferenceData := Undefined;
     GoogleMeetAPI.Event.created := Undefined;
     GoogleMeetAPI.Event.updated := Undefined;
     GoogleMeetAPI.Event.creator := Undefined;
     GoogleMeetAPI.Event.organizer := Undefined;
     GoogleMeetAPI.Event.status := Val "confirmed"%string;
     GoogleMeetAPI.Event.htmlLink := Undefined;
     GoogleMeetAPI.Event.location := Undefined |}.

(** [new Date] on the instants of 1 January 2025 used here, as epoch
    milliseconds; anything else is an invalid date. *)
Definition Date_new (x : Js string) : option Z :=
  match x with
  | Val s =>
    if String.eqb s "2025-01-01T09:30:00Z" then Some 1735723800000
    else if String.eqb s "2025-01-01T10:00:00Z" then Some 1735725600000
    else if String.eqb s "2025-01-01T10:30:00Z" then Some 1735727400000
    else if String.eqb s "2025-01-01T11:00:00Z" then Some 1735729200000
    else if String.eqb s "2025-01-01T12:00:00Z" then Some 1735732800000
    else None
  | _ => None
  end.

(** A provider holding the two events above in every calendar; it stores
    what is written and hands it back. *)
Definition twoEventCalendar : GoogleMeetAPI.Calendar :=
  {| GoogleMeetAPI.events_get := fun _ => Return untitledMeeting;
     GoogleMeetAPI.events_insert := fun p => Return (GoogleMeetAPI.wr_resource p);
     GoogleMeetAPI.events_update := fun p => Return (GoogleMeetAPI.wr_resource p);
     GoogleMeetAPI.events_list := fun _ => Return (Val [untitledMeeting; lateMeeting]) |}.

(** The server object before its first authentication. *)
Definition freshMcpServer : McpServer.t :=
  {| McpServer.googleMeet_calendar := None;
     McpServer.authServer := None;
     McpServer.isAuthenticated := false;
     McpServer.files := freshFiles;
     McpServer.destroyedSockets := ∅ |}.

(** A stand-in for [toLocaleString]: the date string as it is. *)
Definition plainLocale (x : Js string) : string := template x.

(** Arguments of the update tool that keep to its schema: a new title and
    new times. *)
Definition retimeArgs : ToolHandlers.UpdateArgs :=
  {| ToolHandlers.ua_meeting_id := Val "evt1"%string;
     ToolHandlers.ua_summary := Val "Moved"%string;
     ToolHandlers.ua_description := Undefined;
     ToolHandlers.ua_start_time := Val "2025-01-01T11:00:00Z"%string;
     ToolHandlers.ua_end_time := Val "2025-01-01T12:00:00Z"%string;
     ToolHandlers.ua_attendees := Undefined;
     ToolHandlers.ua_startTime := Undefined;
     ToolHandlers.ua_endTime := Undefined |}.

(** Arguments of the create tool for 10:00 to 11:00, conflict check on. *)
Definition syncArgs : ToolHandlers.CreateArgs :=
  {| ToolHandlers.ca_summary := Val "Sync"%string;
     ToolHandlers.ca_description := Undefined;
     ToolHandlers.ca_start_time := Val "2025-01-01T10:00:00Z"%string;
     ToolHandlers.ca_end_time := Val "2025-01-01T11:00:00Z"%string;
     ToolHandlers.ca_attendees := Val ["bob@example.com"%string];
     ToolHandlers.ca_check_conflicts := Undefined |}.

End Fixtures.

(* ===================================================================== *)
(** * Properties                                                          *)
(* ===================================================================== *)

(** ** Token validity and refresh *)

Section TokenStore.

Import AuthServer.

Variable env : Env.

Lemma set_fs_same (w : World) : set_fs (fs w) w = w.
Proof. by destruct w. Qed.

(** A negative answer of [hasValidTokens] leaves the files alone. *)
Lemma hasValidTokens_false_fs (f : FS) :
  (hasValidTokens env f).1.1 = false -> (hasValidTokens env f).1.2 = f.
Proof.
  unfold hasValidTokens.
  destruct (readJson (tokenFile f)) as [tokens|]; [|done].
  destruct (negb _ || negb _); [done|].
  destruct (expired _ _); [|done].
  by destruct (refreshAndSave env f tokens) as [[f'|] log].
Qed.

Lemma truthy_str_Val (x : Js string) :
  truthy_str x = true -> exists s, x = Val s /\ s <> ""%string.
Proof.
  destruct x as [| |s]; cbn; try done.
  intros H. exists s. split; [done|].
  intros ->. done.
Qed.

Lemma expired_false (tokens : Tokens) :
  expired (Date_now env) tokens = false ->
  truthy_num (expiry_date tokens) = false
  \/ exists e, expiry_date tokens = Val e /\ Date_now env <= e.
Proof.
  unfold expired. destruct (expiry_date tokens) as [| |e]; cbn; auto.
  destruct (e =? 0) eqn:He; cbn; auto.
  intros Hlt. right. exists e. split; [done|]. lia.
Qed.

Lemma expired_past (tokens : Tokens) :
  expired (Date_now env) tokens = true ->
  exists e, expiry_date tokens = Val e /\ e <> 0 /\ e < Date_now env.
Proof.
  unfold expired. destruct (expiry_date tokens) as [| |e]; cbn; try done.
  intros [H1 H2]%andb_prop. exists e.
  apply negb_true_iff in H1. repeat split; lia.
Qed.

(** The refresh block by what the refresh call gives. *)
Lemma refreshAndSave_cases (f : FS) (tokens : Tokens) (cfg : ClientConfig) :
  loadCredentials f = Return cfg ->
  let rt := refresh_token tokens in
  let response :=
    refreshToken env (createOAuth2Client cfg "http://localhost:3000/oauth2callback") rt in
  refreshAndSave env f tokens
  = match response, fs_write env with
    | Return (Some nc), Return _ =>
      (Return {| credentialsFile := credentialsFile f; tokenFile := Json nc |},
       [IORefresh rt response; IOWriteTokenFile nc])
    | Return (Some nc), Throw err => (Throw (SaveTokensFailed err), [IORefresh rt response])
    | Return None, Return _ => (Throw (SaveTokensFailed TypeError), [IORefresh rt response])
    | Return None, Throw err => (Throw (SaveTokensFailed err), [IORefresh rt response])
    | Throw err, _ => (Throw err, [IORefresh rt response])
    end.
Proof.
  intros Hc. unfold refreshAndSave. rewrite Hc. cbn zeta.
  destruct (refreshToken env _ _) as [[nc|]|err]; unfold saveTokens;
    destruct (fs_write env) as [[]|err']; done.
Qed.

(** The calls a refresh block makes when it goes through. *)
Lemma refreshAndSave_ok (f f' : FS) (tokens : Tokens) (log : list IO) :
  refreshAndSave env f tokens = (Return f', log) ->
  exists nc,
    fs_write env = Return tt
    /\ f' = {| credentialsFile := credentialsFile f; tokenFile := Json nc |}
    /\ log = [IORefresh (refresh_token tokens) (Return (Some nc)); IOWriteTokenFile nc].
Proof.
  unfold refreshAndSave.
  destruct (loadCredentials f) as [c|]; [|done].
  destruct (refreshToken env _ _) as [[nc|]|] eqn:Hr; unfold saveTokens;
    destruct (fs_write env) as [[]|] eqn:Hw; try done.
  intros [= <- <-]. by exists nc.
Qed.

(** C6 as amended. A bundle without a usable [access_token] or
    [refresh_token] (missing, [null] or empty) is never valid; and
    [hasValidTokens] answers [true] only for a parsed bundle with both
    token fields present and non-empty whose [expiry_date] is falsy
    (absent, [null] or 0), or not before [Date.now()], or was just
    refreshed with the new bundle written to the token file. Without a
    refresh the converse holds too. *)
Theorem C6_hasValidTokens_condition (f : FS) :
  (forall tokens,
      tokenFile f = Json tokens ->
      truthy_str (access_token tokens) = false
      \/ truthy_str (refresh_token tokens) = false ->
      hasValidTokens env f = (false, f, []))
  /\
  ((hasValidTokens env f).1.1 = true ->
   exists tokens a r,
     tokenFile f = Json tokens
     /\ access_token tokens = Val a /\ a <> ""%string
     /\ refresh_token tokens = Val r /\ r <> ""%string
     /\ (truthy_num (expiry_date tokens) = false
         \/ (exists e, expiry_date tokens = Val e /\ Date_now env <= e)
         \/ (exists nc,
                (hasValidTokens env f).2
                = [IORefresh (refresh_token tokens) (Return (Some nc));
                   IOWriteTokenFile nc]
                /\ tokenFile (hasValidTokens env f).1.2 = Json nc)))
  /\
  (forall tokens,
      tokenFile f = Json tokens ->
      truthy_str (access_token tokens) = true ->
      truthy_str (refresh_token tokens) = true ->
      truthy_num (expiry_date tokens) = false
      \/ (exists e, expiry_date tokens = Val e /\ Date_now env <= e) ->
      hasValidTokens env f = (true, f, [])).
Proof.
  repeat split.
  - intros tokens Hfile Hmissing. unfold hasValidTokens.
    rewrite Hfile. cbn [readJson].
    destruct Hmissing as [-> | ->]; cbn; [done|].
    by rewrite orb_true_r.
  - unfold hasValidTokens.
    destruct (tokenFile f) as [| |tokens] eqn:Hfile; cbn [readJson]; try done.
    destruct (truthy_str (access_token tokens)) eqn:Ha; [|done].
    destruct (truthy_str (refresh_token tokens)) eqn:Hr; [|done].
    cbn [negb orb].
    apply truthy_str_Val in Ha as (a & Ha & Hane).
    apply truthy_str_Val in Hr as (r & Hr & Hrne).
    destruct (expired (Date_now env) tokens) eqn:Hexp.
    + destruct (refreshAndSave env f tokens) as [[f'|err] log] eqn:Hrs; [|done].
      intros _. exists tokens, a, r. repeat split; try done.
      right. right.
      apply refreshAndSave_ok in Hrs as (nc & _ & -> & ->).
      by exists nc.
    + intros _. exists tokens, a, r. repeat split; try done.
      destruct (expired_false _ Hexp) as [H|H]; auto.
  - intros tokens Hfile Ha Hr Hexp. unfold hasValidTokens.
    rewrite Hfile. cbn [readJson]. rewrite Ha, Hr. cbn [negb orb].
    assert (expired (Date_now env) tokens = false) as ->; [|done].
    unfold expired. destruct Hexp as [-> | (e & -> & He)]; [done|].
    cbn. apply andb_false_iff. right. lia.
Qed.

(** The token block of [GoogleMeetAPI.initialize] for an expired bundle,
    by what the refresh call gives. *)
Lemma loadToken_expired (now : Z) (refresh : Js string -> Exc (option Tokens))
    (writeFile : Exc unit) (f : FS) (token : Tokens) :
  tokenFile f = Json token ->
  expired now token = true ->
  let rt := refresh_token token in
  GoogleMeetAPI.loadToken now refresh writeFile f
  = match refresh rt, writeFile with
    | Return (Some nc), Return _ =>
      (Return tt, {| credentialsFile := credentialsFile f; tokenFile := Json nc |},
       [IORefresh rt (refresh rt); IOWriteTokenFile nc])
    | Return (Some nc), Throw err => (Throw (NoValidToken err), f, [IORefresh rt (refresh rt)])
    | Return None, _ => (Throw (NoValidToken TypeError), f, [IORefresh rt (refresh rt)])
    | Throw err, _ => (Throw (NoValidToken err), f, [IORefresh rt (refresh rt)])
    end.
Proof.
  intros Hfile Hexp. unfold GoogleMeetAPI.loadToken.
  rewrite Hfile. cbn [readJson]. rewrite Hexp. cbn zeta.
  destruct (refresh (refresh_token token)) as [[nc|]|err];
    destruct writeFile as [[]|err']; done.
Qed.

End TokenStore.

Section RefreshOfExpiredBundle.

Import AuthServer.

Variable env : Env.
Variable client : GoogleMeetAPI.Calendar.
Variable f : FS.
Variable tokens : Tokens.
Variable credentials : CredentialsFile.
Variable cfg : ClientConfig.

(** The persisted bundle: both token fields usable, expired. *)
Hypothesis Hfile : tokenFile f = Json tokens.
Hypothesis Haccess : truthy_str (access_token tokens) = true.
Hypothesis Hrefresh : truthy_str (refresh_token tokens) = true.
Hypothesis Hexpired : expired (Date_now env) tokens = true.

(** The credentials file offers a client configuration. *)
Hypothesis Hcredentials : credentialsFile f = Json credentials.
Hypothesis Hconfig : Vocabulary.clientConfigOf credentials = Some cfg.

Lemma loadCredentials_config : loadCredentials f = Return cfg.
Proof using Hcredentials Hconfig.
  unfold loadCredentials. rewrite Hcredentials. cbn.
  unfold Vocabulary.clientConfigOf in Hconfig.
  destruct (web credentials); [| |by injection Hconfig as ->];
    destruct (installed credentials); try done; by injection Hconfig as ->.
Qed.

Lemma hasValidTokens_expired :
  hasValidTokens env f
  = match refreshAndSave env f tokens with
    | (Return f', log) => (true, f', log)
    | (Throw _, log) => (false, f, log)
    end.
Proof using Hfile Haccess Hrefresh Hexpired.
  unfold hasValidTokens. rewrite Hfile. cbn [readJson].
  by rewrite Haccess, Hrefresh, Hexpired.
Qed.

(** C5 on the code. For a persisted bundle whose [expiry_date] lies in the
    past, what [AuthServer.hasValidTokens] and [GoogleMeetAPI.initialize]
    do is fixed by what the refresh call gives. Both read the new bundle
    from the [credentials] property of the object the call resolves with.
    When the call resolves with an object that has no such property, as
    the [refreshToken] of google-auth-library does, the refresh has
    succeeded and yet nothing is written: [hasValidTokens] answers [false],
    [initialize] throws its missing-token error, and the token file is as
    before. When the object carries a bundle under [credentials] and the
    write goes through, the token file holds that bundle afterwards, with
    the [expiry_date] the provider gave it. When the call is rejected, or
    the write fails, the files are as before. *)
Theorem C5_refresh_outcomes (redirect : Js string) :
  GoogleMeetAPI.first_redirect cfg = Return redirect ->
  let rt := refresh_token tokens in
  let stored nc := {| credentialsFile := credentialsFile f; tokenFile := Json nc |} in
  let answer1 :=
    refreshToken env (createOAuth2Client cfg "http://localhost:3000/oauth2callback") rt in
  let answer2 :=
    refreshToken env (mkOAuth2Client (client_id cfg) (client_secret cfg) redirect) rt in
  hasValidTokens env f
  = match answer1, fs_write env with
    | Return (Some nc), Return _ =>
      (true, stored nc, [IORefresh rt answer1; IOWriteTokenFile nc])
    | _, _ => (false, f, [IORefresh rt answer1])
    end
  /\ GoogleMeetAPI.initialize (Date_now env) (refreshToken env) (fs_write env) client f
     = match answer2, fs_write env with
       | Return (Some nc), Return _ =>
         (Return client, stored nc, [IORefresh rt answer2; IOWriteTokenFile nc])
       | Return (Some nc), Throw err =>
         (Throw (NoValidToken err), f, [IORefresh rt answer2])
       | Return None, _ => (Throw (NoValidToken TypeError), f, [IORefresh rt answer2])
       | Throw err, _ => (Throw (NoValidToken err), f, [IORefresh rt answer2])
       end.
Proof using All.
  intros Hredirect rt stored answer1 answer2. split.
  - rewrite hasValidTokens_expired.
    rewrite (refreshAndSave_cases env f tokens cfg loadCredentials_config).
    fold rt. fold answer1.
    destruct answer1 as [[nc|]|err]; destruct (fs_write env) as [[]|err']; done.
  - unfold GoogleMeetAPI.initialize. rewrite Hcredentials.
    unfold Vocabulary.clientConfigOf in Hconfig.
    assert (Hcfg : match web credentials with
                   | Val c => Return c
                   | _ => match installed credentials with
                          | Val c => Return c
                          | _ => Throw InvalidCredentialsFormat
                          end
                   end = Return cfg).
    { destruct (web credentials); [| |by injection Hconfig as ->];
        destruct (installed credentials); try done; by injection Hconfig as ->. }
    rewrite Hcfg. cbn [bind]. rewrite Hredirect. cbn [bind].
    rewrite (loadToken_expired (Date_now env) _ (fs_write env) f tokens Hfile Hexpired).
    fold rt. fold answer2.
    destruct answer2 as [[nc|]|err]; destruct (fs_write env) as [[]|err']; done.
Qed.

End RefreshOfExpiredBundle.

(** A bundle that expired at 500, checked at 1000, with a refresh that
    resolves without [credentials]: nothing is stored, [hasValidTokens]
    answers [false] and [initialize] fails. With a refresh that hands the
    bundle over as [credentials], the token file holds it afterwards. *)
Lemma C5_witness :
  let f := {| credentialsFile := Json Fixtures.desktopCredentials;
              tokenFile := Json (Fixtures.someTokens (Val 500)) |} in
  let bare := Fixtures.envRefreshResolvesTokens 1000 in
  let handing := Fixtures.envAt 1000 (fun _ => AuthServer.Listening) in
  AuthServer.hasValidTokens bare f
  = (false, f, [IORefresh (refresh_token (Fixtures.someTokens (Val 500))) (Return None)])
  /\ (GoogleMeetAPI.initialize 1000 (AuthServer.refreshToken bare) (Return tt)
        Fixtures.twoEventCalendar f).1
     = (Throw (NoValidToken TypeError), f)
  /\ tokenFile (AuthServer.hasValidTokens handing f).1.2
     = Json (Fixtures.someTokens (Val 3601000)).
Proof.
  intros f bare handing.
  pose proof (C5_refresh_outcomes bare Fixtures.twoEventCalendar f
                (Fixtures.someTokens (Val 500)) Fixtures.desktopCredentials _
                eq_refl eq_refl eq_refl eq_refl eq_refl eq_refl _ eq_refl) as [H1 H2].
  pose proof (C5_refresh_outcomes handing Fixtures.twoEventCalendar f
                (Fixtures.someTokens (Val 500)) Fixtures.desktopCredentials _
                eq_refl eq_refl eq_refl eq_refl eq_refl eq_refl _ eq_refl) as [H3 _].
  split; [exact H1|]. split.
  - exact (f_equal fst H2).
  - exact (f_equal (fun r => tokenFile r.1.2) H3).
Defined.

(** A bundle whose [expiry_date] is 0 is present and long past, no refresh
    is attempted, and [hasValidTokens] still answers [true]: the condition
    as specified does not hold of it. *)
Lemma C6_counterexample :
  let env := Fixtures.envAt 1700000000000 (fun _ => AuthServer.Listening) in
  let tokens := Fixtures.someTokens (Val 0) in
  let f := {| credentialsFile := Json Fixtures.desktopCredentials;
              tokenFile := Json tokens |} in
  AuthServer.hasValidTokens env f = (true, f, [])
  /\ ~ Spec.valid_as_specified (AuthServer.Date_now env) tokens
                               (AuthServer.hasValidTokens env f).2.
Proof.
  intros env tokens f. split; [reflexivity|].
  intros (_ & _ & [H | [(e & H & Hle) | (rt & nc & [])]]).
  - discriminate H.
  - injection H as <-. cbn in Hle. lia.
Qed.

(** A bundle without refresh token is rejected; a bundle that expires in
    the future is accepted as it is. *)
Lemma C6_witness :
  let env := Fixtures.envAt 1000 (fun _ => AuthServer.Listening) in
  let noRefresh := mkTokens (Val "ya29.a0"%string) Undefined (Val 5000) Undefined Undefined in
  AuthServer.hasValidTokens env
    {| credentialsFile := Json Fixtures.desktopCredentials; tokenFile := Json noRefresh |}
  = (false,
     {| credentialsFile := Json Fixtures.desktopCredentials; tokenFile := Json noRefresh |},
     [])
  /\ AuthServer.hasValidTokens env
       {| credentialsFile := Json Fixtures.desktopCredentials;
          tokenFile := Json (Fixtures.someTokens (Val 5000)) |}
     = (true,
        {| credentialsFile := Json Fixtures.desktopCredentials;
           tokenFile := Json (Fixtures.someTokens (Val 5000)) |},
        []).
Proof.
  intros env noRefresh. split.
  - apply (proj1 (C6_hasValidTokens_condition env
                    {| credentialsFile := Json Fixtures.desktopCredentials;
                       tokenFile := Json noRefresh |}) noRefresh eq_refl).
    right. reflexivity.
  - apply (proj2 (proj2 (C6_hasValidTokens_condition env
                           {| credentialsFile := Json Fixtures.desktopCredentials;
                              tokenFile := Json (Fixtures.someTokens (Val 5000)) |}))
             (Fixtures.someTokens (Val 5000)) eq_refl eq_refl eq_refl).
    right. exists 5000. split; [reflexivity | cbn; lia].
Defined.

(** ** The authorization flow *)

Section AuthorizationFlow.

Import AuthServer.

Variable env : Env.

(** What a request can do to the world: nothing, or set the flag. *)
Lemma requestHandler_cases (req : Request) (x : Exchange) (w : World) :
  let w' := (requestHandler env req x w).1 in
  (w' = w
   \/ w' = set_authCompletedSuccessfully false w
   \/ (Spec.successfulCallback (HttpRequest req x) = true
       /\ exists f', w' = set_authCompletedSuccessfully true (set_fs f' w))).
Proof.
  unfold requestHandler. cbn [Spec.successfulCallback].
  destruct (String.eqb (pathname req) "/").
  { left. by destruct (oAuth2Client (self w)). }
  destruct (String.eqb (pathname req) "/oauth2callback"); [|by left].
  destruct (truthy_str (error req)); [by left|].
  destruct (truthy_str (code req)); [|by left].
  destruct (oAuth2Client (self w)); cbn; [|by right; left].
  destruct (getToken x); cbn; [|by right; left].
  unfold saveTokens. destruct (write x); cbn; [|by right; left].
  right; right. split; [done|]. by eexists.
Qed.

(** A request that is not a successful callback cannot set the flag. *)
Lemma requestHandler_flag (req : Request) (x : Exchange) (w : World) :
  authCompletedSuccessfully (self (requestHandler env req x w).1) = true ->
  Spec.successfulCallback (HttpRequest req x) = true
  \/ authCompletedSuccessfully (self w) = true.
Proof.
  destruct (requestHandler_cases req x w) as [-> | [-> | [H _]]]; auto.
  cbn. done.
Qed.

Lemma deliver_flag (ev : Event) (w : World) :
  authCompletedSuccessfully (self (deliver env ev w)) = true ->
  Spec.successfulCallback ev = true \/ authCompletedSuccessfully (self w) = true.
Proof.
  destruct ev as [s|s|req x| | |]; cbn [deliver]; auto.
  apply requestHandler_flag.
Qed.

(** No event closes the listener or destroys a socket. *)
Lemma deliver_frame (ev : Event) (w : World) :
  server (self (deliver env ev w)) = server (self w)
  /\ destroyed (deliver env ev w) = destroyed w.
Proof.
  destruct ev as [s|s|req x| | |]; cbn [deliver]; try done.
  by destruct (requestHandler_cases req x w) as [-> | [-> | [_ [f' ->]]]].
Qed.

Lemma deliverAll_cons (ev : Event) (evs : list Event) (w : World) :
  deliverAll env w (ev :: evs) = deliverAll env (deliver env ev w) evs.
Proof. reflexivity. Qed.

Lemma deliverAll_frame (evs : list Event) :
  forall w, server (self (deliverAll env w evs)) = server (self w)
            /\ destroyed (deliverAll env w evs) = destroyed w.
Proof.
  induction evs as [|ev evs IH]; intros w; [done|].
  rewrite deliverAll_cons.
  destruct (IH (deliver env ev w)) as [-> ->]. apply deliver_frame.
Qed.

(** The flag is up after a run of events only if it was up before or a
    successful callback is among them. *)
Lemma deliverAll_flag (evs : list Event) :
  forall w,
    authCompletedSuccessfully (self (deliverAll env w evs)) = true ->
    authCompletedSuccessfully (self w) = true
    \/ exists ev, In ev evs /\ Spec.successfulCallback ev = true.
Proof.
  induction evs as [|ev evs IH]; intros w; [cbn; auto|].
  rewrite deliverAll_cons.
  intros H. destruct (IH _ H) as [H1 | (ev' & Hin & Hs)].
  - destruct (deliver_flag _ _ H1); [right; exists ev; split; [by left|done] | by left].
  - right. exists ev'. split; [by right|done].
Qed.

(** The promise resolves to [true] exactly at a tick that finds the flag
    up while the interval is still set. *)
Lemma awaitAuth_true_iff (evs : list Event) :
  forall polling w,
    (awaitAuth env polling w evs).1 = Resolved true
    <-> polling = true
        /\ exists pre post,
            evs = pre ++ IntervalTick :: post
            /\ ~ In TimeoutFired pre
            /\ authCompletedSuccessfully (self (deliverAll env w pre)) = true.
Proof.
  induction evs as [|ev evs IH]; intros polling w.
  - cbn. split; [done|]. intros (_ & pre & post & H & _). by destruct pre.
  - destruct ev as [s|s|req x| | |].
    1-4: cbn [awaitAuth]; rewrite IH; split;
      [ intros (Hp & pre & post & -> & Hnt & Hflag); split; [done|];
        eexists (_ :: pre), post; repeat split; [|done];
        intros [H|H]; [done | by apply Hnt]
      | intros (Hp & pre & post & Heq & Hnt & Hflag); split; [done|];
        destruct pre as [|ev' pre]; [done|];
        injection Heq as <- ->; exists pre, post; repeat split; [|done];
        intros H; apply Hnt; by right ].
    + cbn [awaitAuth].
      destruct (polling && authCompletedSuccessfully (self w)) eqn:Hb.
      * apply andb_prop in Hb as [-> Hflag]. split; [|done].
        intros _. split; [done|]. exists [], evs. repeat split; [by intros []|done].
      * rewrite IH. split.
        -- intros (Hp & pre & post & -> & Hnt & Hflag). split; [done|].
           exists (IntervalTick :: pre), post. repeat split; [|done].
           intros [H|H]; [done | by apply Hnt].
        -- intros (Hp & pre & post & Heq & Hnt & Hflag). split; [done|].
           destruct pre as [|ev' pre].
           ++ cbn in Hflag. subst polling. by rewrite Hflag in Hb.
           ++ injection Heq as <- ->. exists pre, post. repeat split; [|done].
              intros H; apply Hnt; by right.
    + cbn [awaitAuth].
      destruct (authCompletedSuccessfully (self w)) eqn:Hflag.
      * rewrite IH. split; [by intros [? _]|].
        intros (_ & pre & post & Heq & Hnt & _).
        destruct pre as [|ev' pre]; [done|].
        injection Heq as <- ->. exfalso. apply Hnt. by left.
      * cbn. split; [done|].
        intros (_ & pre & post & Heq & Hnt & Hf).
        destruct pre as [|ev' pre]; [done|].
        injection Heq as <- ->. exfalso. apply Hnt. by left.
Qed.

(** The promise resolves to [false] exactly at a timeout that finds the
    flag down, no earlier tick having resolved it. *)
Lemma awaitAuth_timeout (pre post : list Event) :
  forall polling w,
    authCompletedSuccessfully (self w) = false ->
    (forall ev, In ev pre -> Spec.successfulCallback ev = false) ->
    (awaitAuth env polling w (pre ++ TimeoutFired :: post)).1 = Resolved false.
Proof.
  induction pre as [|ev pre IH]; intros polling w Hflag Hnone.
  - cbn. by rewrite Hflag.
  - assert (Hrest : forall ev', In ev' pre -> Spec.successfulCallback ev' = false)
      by (intros ev' H; apply Hnone; by right).
    assert (Hstep : authCompletedSuccessfully (self (deliver env ev w)) = false).
    { destruct (authCompletedSuccessfully (self (deliver env ev w))) eqn:Hd; [|done].
      destruct (deliver_flag _ _ Hd) as [H|H]; [|congruence].
      rewrite (Hnone ev) in H; [done | by left]. }
    destruct ev as [s|s|req x| | |]; cbn [app awaitAuth].
    1-4: by apply IH.
    + rewrite Hflag, andb_false_r. by apply IH.
    + by rewrite Hflag.
Qed.

(** The waiting promise never rejects, and the world it hands back has
    the listener and the sockets as the events left them. *)
Lemma awaitAuth_frame (evs : list Event) :
  forall polling w,
    (forall e, (awaitAuth env polling w evs).1 <> Rejected e)
    /\ server (self (awaitAuth env polling w evs).2) = server (self w)
    /\ destroyed (awaitAuth env polling w evs).2 = destroyed w.
Proof.
  induction evs as [|ev evs IH]; intros polling w; [done|].
  destruct ev as [s|s|req x| | |]; cbn [awaitAuth].
  1-4: match goal with |- context [deliver env ?ev ?w0] =>
         destruct (IH polling (deliver env ev w0)) as (H1 & H2 & H3);
         rewrite H2, H3; split; [done|]; apply deliver_frame
       end.
  - destruct (polling && _); [done|]. apply IH.
  - destruct (authCompletedSuccessfully _); [apply IH|done].
Qed.

(** [start], branch by branch. *)
Lemma start_valid (ob : bool) (w : World) (evs : list Event) :
  (hasValidTokens env (fs w)).1.1 = true ->
  start env ob w evs
  = (Resolved true,
     set_authCompletedSuccessfully true (set_fs (hasValidTokens env (fs w)).1.2 w)).
Proof.
  unfold start, start_try.
  destruct (hasValidTokens env (fs w)) as [[valid f1] log]. cbn. by intros ->.
Qed.

Lemma start_invalid (ob : bool) (w : World) (evs : list Event) :
  (hasValidTokens env (fs w)).1.1 = false ->
  start env ob w evs
  = match loadCredentials (fs w) with
    | Throw _ => (Resolved false, w)
    | Return credentials =>
      match findAvailablePort env 3000 3010 w with
      | (Throw _, w2) => (Resolved false, w2)
      | (Return port, w2) =>
        awaitAuth env true
          (set_oAuth2Client
             (Some (createOAuth2Client credentials
                      ("http://localhost:" ++ show_int port ++ "/oauth2callback")%string))
             w2)
          evs
      end
    end.
Proof.
  intros Hinvalid. unfold start, start_try.
  pose proof (hasValidTokens_false_fs env (fs w) Hinvalid) as Hfs.
  destruct (hasValidTokens env (fs w)) as [[valid f1] log].
  cbn in Hinvalid, Hfs. subst valid f1. rewrite set_fs_same.
  destruct (loadCredentials (fs w)) as [c|]; [|done].
  destruct (findAvailablePort env 3000 3010 w) as [[port|] w2]; [|done].
  by destruct (awaitAuth env true _ evs).
Qed.

Lemma scanPorts_flag (s e : Z) (n : nat) :
  forall port w r w',
    scanPorts env s e n port w = (r, w') ->
    authCompletedSuccessfully (self w') = authCompletedSuccessfully (self w).
Proof.
  induction n as [|n IH]; intros port w r w'; cbn.
  - by intros [= _ <-].
  - destruct (listen env port); [by intros [= _ <-] | apply IH | by intros [= _ <-]].
Qed.

(** The OAuth client, once set, stays set while events are delivered. *)
Lemma deliver_client (ev : Event) (w : World) :
  oAuth2Client (self (deliver env ev w)) = oAuth2Client (self w).
Proof.
  destruct ev as [s|s|req x| | |]; cbn [deliver]; try done.
  by destruct (requestHandler_cases req x w) as [-> | [-> | [_ [f' ->]]]].
Qed.

Lemma deliverAll_client (evs : list Event) :
  forall w, oAuth2Client (self (deliverAll env w evs)) = oAuth2Client (self w).
Proof.
  induction evs as [|ev evs IH]; intros w; [done|].
  rewrite deliverAll_cons, IH. apply deliver_client.
Qed.

Lemma deliverAll_app (evs1 evs2 : list Event) (w : World) :
  deliverAll env w (evs1 ++ evs2) = deliverAll env (deliverAll env w evs1) evs2.
Proof. unfold deliverAll. apply fold_left_app. Qed.

(** A successful callback raises the flag when the client is set. *)
Lemma deliver_success (ev : Event) (w : World) :
  Spec.successfulCallback ev = true ->
  is_Some (oAuth2Client (self w)) ->
  authCompletedSuccessfully (self (deliver env ev w)) = true.
Proof.
  destruct ev as [s|s|req x| | |]; cbn [Spec.successfulCallback deliver]; try done.
  intros [[[Hp He]%andb_prop Hc]%andb_prop Hx]%andb_prop [c Hsome].
  unfold requestHandler.
  apply String.eqb_eq in Hp. rewrite Hp. cbn [String.eqb Ascii.eqb Bool.eqb].
  apply negb_true_iff in He. rewrite He, Hc, Hsome. cbn.
  destruct (getToken x); [|done]. cbn. unfold saveTokens.
  by destruct (write x).
Qed.

(** Events that are not requests leave the flag alone. *)
Lemma deliverAll_quiet (evs : list Event) :
  forall w,
    (forall ev req x, In ev evs -> ev <> HttpRequest req x) ->
    authCompletedSuccessfully (self (deliverAll env w evs))
    = authCompletedSuccessfully (self w).
Proof.
  induction evs as [|ev evs IH]; intros w Hq; [done|].
  rewrite deliverAll_cons, IH.
  - destruct ev as [s|s|req x| | |]; try done.
    exfalso. by apply (Hq (HttpRequest req x) req x); [left|].
  - intros ev' req x Hin. apply Hq. by right.
Qed.

(** Once resolved, the promise is not touched by what comes later. *)
Lemma awaitAuth_stable (evs more : list Event) (b : bool) :
  forall polling w,
    (awaitAuth env polling w evs).1 = Resolved b ->
    awaitAuth env polling w (evs ++ more) = awaitAuth env polling w evs.
Proof.
  induction evs as [|ev evs IH]; intros polling w; [done|].
  destruct ev as [s|s|req x| | |]; cbn [app awaitAuth]; try apply IH.
  - destruct (polling && _); [done | apply IH].
  - destruct (authCompletedSuccessfully _); [apply IH | done].
Qed.

(** C1 as amended. For a fresh instance, [start(openBrowser)]
    - never rejects;
    - resolves to [true] at once when [hasValidTokens] holds, with no
      callback at all;
    - resolves to [true] only then, or when a callback carrying a code,
      exchanged and persisted with success, came before a poll tick that
      itself came before the timeout;
    - resolves to [true] when such a callback is followed, before the
      timeout and with no other request in between, by a poll tick;
    - resolves to [false] when the credentials cannot be loaded or no port
      can be bound;
    - resolves to [false] when the timeout fires with no successful
      callback before it, whether or not a browser was opened. *)
Theorem C1_start_outcome (openBrowser : bool) (w : World) (evs : list Event) :
  authCompletedSuccessfully (self w) = false ->
  let valid := (hasValidTokens env (fs w)).1.1 in
  let result := (start env openBrowser w evs).1 in
  (forall e, result <> Rejected e)
  /\ (valid = true -> result = Resolved true)
  /\ (result = Resolved true ->
      valid = true
      \/ exists pre post ev,
           evs = pre ++ IntervalTick :: post
           /\ ~ In TimeoutFired pre
           /\ In ev pre /\ Spec.successfulCallback ev = true)
  /\ (valid = false ->
      forall c port w' pre cb mid post,
        loadCredentials (fs w) = Return c ->
        findAvailablePort env 3000 3010 w = (Return port, w') ->
        evs = pre ++ cb :: mid ++ IntervalTick :: post ->
        Spec.successfulCallback cb = true ->
        ~ In TimeoutFired (pre ++ mid) ->
        (forall ev req x, In ev mid -> ev <> HttpRequest req x) ->
        result = Resolved true)
  /\ (valid = false ->
      (exists e, loadCredentials (fs w) = Throw e)
      \/ (exists e w', findAvailablePort env 3000 3010 w = (Throw e, w')) ->
      result = Resolved false)
  /\ (valid = false ->
      forall pre post,
        evs = pre ++ TimeoutFired :: post ->
        (forall ev, In ev pre -> Spec.successfulCallback ev = false) ->
        result = Resolved false).
Proof.
  intros Hfresh valid result. subst valid result.
  destruct ((hasValidTokens env (fs w)).1.1) eqn:Hvalid.
  - rewrite (start_valid _ _ _ Hvalid). cbn [fst].
    repeat split; try done. by left.
  - rewrite (start_invalid _ _ _ Hvalid).
    destruct (loadCredentials (fs w)) as [c|e0] eqn:Hload.
    2: { cbn [fst]. repeat split; try done. }
    destruct (findAvailablePort env 3000 3010 w) as [[port|e0] w2] eqn:Hport.
    2: { cbn [fst]. repeat split; try done. }
    set (w3 := set_oAuth2Client _ w2).
    assert (Hflag3 : authCompletedSuccessfully (self w3) = false).
    { unfold findAvailablePort in Hport.
      apply scanPorts_flag in Hport. cbn. by rewrite Hport. }
    repeat split.
    + apply awaitAuth_frame.
    + done.
    + intros (_ & pre & post & Hevs & Hnt & Hup)%awaitAuth_true_iff. right.
      destruct (deliverAll_flag _ _ Hup) as [H | (ev & Hin & Hs)]; [congruence|].
      by exists pre, post, ev.
    + intros _ c' port' w' pre cb mid post _ _ -> Hs Hnt Hquiet.
      apply awaitAuth_true_iff. split; [done|].
      exists (pre ++ cb :: mid), post. repeat split.
      * by rewrite <- app_assoc.
      * intros Hin. apply Hnt. apply in_app_or in Hin as [H | [H | H]].
        -- apply in_or_app. by left.
        -- subst cb. done.
        -- apply in_or_app. by right.
      * rewrite deliverAll_app, deliverAll_cons, deliverAll_quiet by done.
        apply deliver_success; [done|].
        rewrite deliverAll_client. by eexists.
    + intros _ [[e He] | (e & w' & He)]; congruence.
    + intros _ pre post -> Hnone. by apply awaitAuth_timeout.
Qed.

(** C4 as amended. A request on the redirect path whose [error] parameter
    is non-empty is answered with the failure page (status 400) showing
    that error, and changes nothing: the success flag is neither raised
    nor lowered, the files are untouched, and the flow goes on waiting as
    if the request had not come. *)
Theorem C4_error_callback_changes_nothing (req : Request) (x : Exchange) (w : World) :
  pathname req = "/oauth2callback"%string ->
  truthy_str (error req) = true ->
  requestHandler env req x w
  = (w, Some {| status := 400; body := AuthFailedPage (or_str (error req) "") |})
  /\ (forall polling evs,
         awaitAuth env polling w (HttpRequest req x :: evs)
         = awaitAuth env polling w evs).
Proof.
  intros Hpath Herr.
  assert (Hh : requestHandler env req x w
               = (w, Some {| status := 400;
                             body := AuthFailedPage (or_str (error req) "") |})).
  { unfold requestHandler. rewrite Hpath, Herr. reflexivity. }
  split; [exact Hh|].
  intros polling evs. cbn [awaitAuth deliver]. by rewrite Hh.
Qed.

(** C2 as amended. [stop()] on an instance that holds a listener destroys
    every tracked socket and clears the set, then closes the listener and
    resolves with [server] reset to [null]: when the close callback comes
    within 2000 ms, at that moment, and otherwise after 2000 ms with the
    listener given up. [cleanup()] runs exactly that. Reaching a resolved
    state in [start] only ends the polling: what comes later does not
    change the outcome, and the listener and the tracked sockets are as
    the events left them, not closed and not destroyed. *)
Theorem C2_teardown_happens_in_stop (w : World) (port : Z) :
  server (self w) = Some port ->
  (let '(w', how, ms) := stop env w in
   activeConnections (self w') = ∅
   /\ destroyed w' = destroyed w ∪ activeConnections (self w)
   /\ server (self w') = None
   /\ ms <= 2000
   /\ (how = ClosedInTime <-> exists d, close_after env = Some d /\ d < 2000 /\ ms = d)
   /\ (how = GraceExpired <-> ms = 2000 /\ forall d, close_after env = Some d -> 2000 <= d))
  /\ (forall s,
        McpServer.authServer s = Some (self w) ->
        McpServer.files s = fs w ->
        McpServer.destroyedSockets s = destroyed w ->
        McpServer.authServer (McpServer.cleanup env s) = Some (self (stop env w).1.1)
        /\ McpServer.destroyedSockets (McpServer.cleanup env s)
           = destroyed w ∪ activeConnections (self w))
  /\ (forall polling evs b,
        (awaitAuth env polling w evs).1 = Resolved b ->
        (forall more, awaitAuth env polling w (evs ++ more) = awaitAuth env polling w evs)
        /\ server (self (awaitAuth env polling w evs).2) = Some port
        /\ destroyed (awaitAuth env polling w evs).2 = destroyed w).
Proof.
  intros Hserver. split; [|split].
  - unfold stop. rewrite Hserver.
    destruct (close_after env) as [d|] eqn:Hclose.
    + destruct (Z.ltb_spec d 2000) as [Hlt|Hge]; cbn [self set_server set_activeConnections
                                                     set_destroyed activeConnections
                                                     destroyed server].
      * split; [done|]. split; [done|]. split; [done|]. split; [lia|]. split.
        -- split; [|done]. intros _. by exists d.
        -- split; [done|]. intros [-> _]. lia.
      * split; [done|]. split; [done|]. split; [done|]. split; [lia|]. split.
        -- split; [done|]. intros (d' & [= <-] & Hlt' & _). lia.
        -- split; [|done]. intros _. split; [done|]. intros d' [= <-]. lia.
    + cbn. split; [done|]. split; [done|]. split; [done|]. split; [lia|]. split.
      * split; [done|]. by intros (d' & [=] & _).
      * split; [|done]. intros _. by split.
  - intros s Ha Hf Hd. unfold McpServer.cleanup. rewrite Ha, Hf, Hd.
    replace {| self := self w; fs := fs w; destroyed := destroyed w |} with w
      by (by destruct w).
    unfold stop. rewrite Hserver.
    destruct (close_after env) as [d|]; [destruct (d <? 2000)|]; done.
  - intros polling evs b Hres. split; [|split].
    + intros more. by apply awaitAuth_stable with (b := b).
    + destruct (awaitAuth_frame evs polling w) as (_ & -> & _). done.
    + by destruct (awaitAuth_frame evs polling w) as (_ & _ & ->).
Qed.

End AuthorizationFlow.

(** ** Port selection *)

Section PortSelection.

Import AuthServer.

Variable env : Env.

(** Ports in use are skipped one by one. *)
Lemma scanPorts_skip (s e : Z) (k : nat) :
  forall (n : nat) (port : Z) (w : World),
    (forall i : nat, (i < k)%nat -> listen env (port + Z.of_nat i) = EADDRINUSE) ->
    scanPorts env s e (k + n) port w = scanPorts env s e n (port + Z.of_nat k) w.
Proof.
  induction k as [|k IH]; intros n port w Hbusy.
  - simpl. by rewrite Z.add_0_r.
  - cbn [Nat.add scanPorts].
    specialize (Hbusy 0%nat ltac:(lia)) as H0.
    rewrite Z.add_0_r in H0. rewrite H0.
    rewrite IH.
    + f_equal. lia.
    + intros i Hi. specialize (Hbusy (S i) ltac:(lia)).
      rewrite <- Hbusy. f_equal. lia.
Qed.

(** C3. Port selection over 3000..3010: when the ports below [3000 + k]
    are all in use and [3000 + k] is free, [findAvailablePort] returns
    [3000 + k] with the listener bound there, and that is the listener
    [start] holds when it goes on to wait; when all eleven ports are in use
    it throws [NoPortAvailable 3000 3010], [start] returns [false] and the
    instance holds no listener ([server] is left as it was). *)
Theorem C3_first_free_port_is_bound :
  (forall (k : Z) (w : World),
      0 <= k <= 10 ->
      (forall p, 3000 <= p < 3000 + k -> listen env p = EADDRINUSE) ->
      listen env (3000 + k) = Listening ->
      findAvailablePort env 3000 3010 w
      = (Return (3000 + k), set_server (Some (3000 + k)) w)
      /\ (forall evs openBrowser c,
             (hasValidTokens env (fs w)).1.1 = false ->
             loadCredentials (fs w) = Return c ->
             server (self (start env openBrowser w evs).2) = Some (3000 + k)))
  /\
  (forall (w : World),
      (forall p, 3000 <= p <= 3010 -> listen env p = EADDRINUSE) ->
      findAvailablePort env 3000 3010 w = (Throw (NoPortAvailable 3000 3010), w)
      /\ (forall evs openBrowser,
             (hasValidTokens env (fs w)).1.1 = false ->
             (start env openBrowser w evs).1 = Resolved false
             /\ server (self (start env openBrowser w evs).2) = server (self w))).
Proof.
  split.
  - intros k w Hk Hbusy Hfree.
    assert (Hscan : findAvailablePort env 3000 3010 w
                    = (Return (3000 + k), set_server (Some (3000 + k)) w)).
    { unfold findAvailablePort.
      replace (Z.to_nat (3010 - 3000 + 1))
        with (Z.to_nat k + S (Z.to_nat (10 - k)))%nat by lia.
      rewrite scanPorts_skip.
      - cbn [scanPorts]. rewrite Z2Nat.id by lia. by rewrite Hfree.
      - intros i Hi. apply Hbusy. lia. }
    split; [exact Hscan|].
    intros evs ob c Hinvalid Hload.
    rewrite (start_invalid env ob w evs Hinvalid), Hload, Hscan.
    by destruct (awaitAuth_frame env evs true
                   (set_oAuth2Client
                      (Some (createOAuth2Client c
                               ("http://localhost:" ++ show_int (3000 + k)
                                ++ "/oauth2callback")%string))
                      (set_server (Some (3000 + k)) w))) as (_ & -> & _).
  - intros w Hbusy.
    assert (Hscan : findAvailablePort env 3000 3010 w
                    = (Throw (NoPortAvailable 3000 3010), w)).
    { unfold findAvailablePort.
      replace (Z.to_nat (3010 - 3000 + 1)) with (11 + 0)%nat by lia.
      rewrite scanPorts_skip; [done|].
      intros i Hi. apply Hbusy. lia. }
    split; [exact Hscan|].
    intros evs ob Hinvalid.
    rewrite (start_invalid env ob w evs Hinvalid).
    destruct (loadCredentials (fs w)) as [c|e]; [|done].
    by rewrite Hscan.
Qed.

End PortSelection.

(** Ports 3000..3002 taken, 3003 free: the listener is bound to 3003. *)
Lemma C3_witness :
  AuthServer.findAvailablePort
    (Fixtures.envAt 0 Fixtures.listen_3003) 3000 3010 Fixtures.freshWorld
  = (Return 3003, AuthServer.set_server (Some 3003) Fixtures.freshWorld).
Proof.
  apply (proj1 (C3_first_free_port_is_bound
                  (Fixtures.envAt 0 Fixtures.listen_3003)) 3 Fixtures.freshWorld).
  - lia.
  - intros p Hp. cbn. unfold Fixtures.listen_3003.
    destruct (Z.leb_spec 3000 p); [|lia].
    destruct (Z.leb_spec p 3002); [reflexivity|lia].
  - reflexivity.
Defined.

(** With a valid token file [start] resolves to [true] although nothing is
    ever delivered: no callback came before the timeout. *)
Lemma C1_counterexample :
  (AuthServer.start (Fixtures.envAt 1000 (fun _ => AuthServer.Listening)) true
     {| AuthServer.self := AuthServer.new;
        AuthServer.fs := Fixtures.filesWithTokens;
        AuthServer.destroyed := ∅ |} []).1
  = AuthServer.Resolved true
  /\ ~ Spec.callback_before_timeout [].
Proof.
  split; [reflexivity|].
  intros (pre & ev & post & H & _). by destruct pre.
Qed.

(** A callback followed by a poll tick resolves to [true]; the timeout alone
    resolves to [false], no browser having been opened. *)
Lemma C1_witness :
  (AuthServer.start Fixtures.quietEnv false Fixtures.freshWorld
     [Fixtures.goodCallback; AuthServer.IntervalTick]).1 = AuthServer.Resolved true
  /\ (AuthServer.start Fixtures.quietEnv false Fixtures.freshWorld
        [AuthServer.TimeoutFired]).1 = AuthServer.Resolved false.
Proof.
  split.
  - eapply (proj1 (proj2 (proj2 (proj2
             (C1_start_outcome Fixtures.quietEnv false Fixtures.freshWorld
                [Fixtures.goodCallback; AuthServer.IntervalTick] eq_refl))))
             eq_refl _ _ _ [] Fixtures.goodCallback [] []).
    + reflexivity.
    + reflexivity.
    + reflexivity.
    + reflexivity.
    + intros [].
    + intros ev req x [].
  - apply (proj2 (proj2 (proj2 (proj2 (proj2
             (C1_start_outcome Fixtures.quietEnv false Fixtures.freshWorld
                [AuthServer.TimeoutFired] eq_refl)))))
             eq_refl [] []).
    + reflexivity.
    + intros ev [].
Defined.

(** The success that lands after the last poll tick: the timeout clears the
    interval, finds the flag up and resolves nothing, so the promise stays
    pending whatever comes next. A later failed exchange lowers the flag
    again, and the timeout then reports failure. *)
Example start_pending_after_late_success :
  (AuthServer.start Fixtures.quietEnv true Fixtures.freshWorld
     [Fixtures.goodCallback; AuthServer.TimeoutFired; AuthServer.IntervalTick]).1
  = AuthServer.Pending
  /\ (AuthServer.start Fixtures.quietEnv true Fixtures.freshWorld
        [Fixtures.goodCallback; Fixtures.rejectedCallback;
         AuthServer.IntervalTick; AuthServer.TimeoutFired]).1
     = AuthServer.Resolved false.
Proof. split; reflexivity. Qed.

(** After [error=access_denied] the session is not failed: the flow still
    completes with success on the next callback. And a request whose error
    parameter is empty is not treated as an error at all: its code is
    exchanged and the flag raised. *)
Lemma C4_counterexample :
  ~ Spec.marked_failed Fixtures.quietEnv
      (AuthServer.deliver Fixtures.quietEnv Fixtures.deniedCallback Fixtures.waitingWorld)
  /\ (AuthServer.start Fixtures.quietEnv true Fixtures.freshWorld
        [Fixtures.deniedCallback; Fixtures.goodCallback; AuthServer.IntervalTick]).1
     = AuthServer.Resolved true
  /\ AuthServer.authCompletedSuccessfully
       (AuthServer.self
          (AuthServer.deliver Fixtures.quietEnv Fixtures.emptyErrorCallback
                              Fixtures.waitingWorld))
     = true.
Proof.
  split; [|split; reflexivity].
  intros H.
  by apply (H true [Fixtures.goodCallback; AuthServer.IntervalTick]).
Qed.

(** The denied callback is answered with the failure page, status 400. *)
Lemma C4_witness :
  AuthServer.requestHandler Fixtures.quietEnv
    {| AuthServer.pathname := "/oauth2callback"; AuthServer.code := Null;
       AuthServer.error := Val "access_denied"%string |}
    {| AuthServer.getToken := Throw (ProviderError "unused");
       AuthServer.write := Return tt |}
    Fixtures.waitingWorld
  = (Fixtures.waitingWorld,
     Some {| AuthServer.status := 400;
             AuthServer.body := AuthServer.AuthFailedPage "access_denied" |}).
Proof.
  apply (proj1 (C4_error_callback_changes_nothing Fixtures.quietEnv
                  {| AuthServer.pathname := "/oauth2callback"; AuthServer.code := Null;
                     AuthServer.error := Val "access_denied"%string |}
                  {| AuthServer.getToken := Throw (ProviderError "unused");
                     AuthServer.write := Return tt |}
                  Fixtures.waitingWorld eq_refl eq_refl)).
Defined.

(** The flow completes, by success or by timeout, with socket 7 open: the
    listener is still bound to port 3000 and the socket is tracked and not
    destroyed when [start] returns, and still so when
    [initializeAuthentication] has returned. *)
Lemma C2_counterexample :
  let completed :=
    AuthServer.start Fixtures.quietEnv true Fixtures.freshWorld
      [AuthServer.Connection 7; Fixtures.goodCallback; AuthServer.IntervalTick] in
  let timedOut :=
    AuthServer.start Fixtures.quietEnv true Fixtures.freshWorld
      [AuthServer.Connection 7; AuthServer.TimeoutFired] in
  let initialized :=
    McpServer.initializeAuthentication Fixtures.quietEnv Fixtures.twoEventCalendar
      [AuthServer.Connection 7; Fixtures.goodCallback; AuthServer.IntervalTick]
      Fixtures.freshMcpServer in
  (completed.1 = AuthServer.Resolved true
   /\ AuthServer.server (AuthServer.self completed.2) = Some 3000
   /\ 7%nat ∈ AuthServer.activeConnections (AuthServer.self completed.2)
   /\ 7%nat ∉ AuthServer.destroyed completed.2)
  /\ (timedOut.1 = AuthServer.Resolved false
      /\ AuthServer.server (AuthServer.self timedOut.2) = Some 3000
      /\ 7%nat ∈ AuthServer.activeConnections (AuthServer.self timedOut.2)
      /\ 7%nat ∉ AuthServer.destroyed timedOut.2)
  /\ (initialized.1 = AuthServer.Resolved true
      /\ McpServer.isAuthenticated initialized.2 = true
      /\ (AuthServer.server <$> McpServer.authServer initialized.2) = Some (Some 3000)
      /\ 7%nat ∉ McpServer.destroyedSockets initialized.2).
Proof.
  cbn. split; [|split].
  1-2: split; [reflexivity|]; split; [reflexivity|]; split; set_solver.
  split; [reflexivity|]. split; [reflexivity|]. split; [reflexivity|]. set_solver.
Qed.

(** [stop()] on the world the completed flow left behind. *)
Lemma C2_witness :
  let w := (AuthServer.start Fixtures.quietEnv true Fixtures.freshWorld
              [AuthServer.Connection 7; Fixtures.goodCallback;
               AuthServer.IntervalTick]).2 in
  AuthServer.server (AuthServer.self (AuthServer.stop Fixtures.quietEnv w).1.1) = None
  /\ AuthServer.destroyed (AuthServer.stop Fixtures.quietEnv w).1.1
     = AuthServer.destroyed w ∪ AuthServer.activeConnections (AuthServer.self w).
Proof.
  intros w.
  pose proof (proj1 (C2_teardown_happens_in_stop Fixtures.quietEnv w 3000 eq_refl)) as H.
  destruct H as (_ & Hd & Hs & _).
  split; [exact Hs | exact Hd].
Defined.

(** ** The meeting record *)

Section MeetingRecord.

Import GoogleMeetAPI.

Lemma or_str_default (x : Js string) (d : string) :
  truthy_str x = false -> or_str x d = d.
Proof.
  destruct x as [| |s]; cbn; try done.
  by destruct (String.eqb s "").
Qed.

Lemma formatAttendee_defaults (a : Attendee.t) :
  MeetingAttendee.email (formatAttendee a) = Attendee.email a
  /\ (truthy_str (Attendee.responseStatus a) = false ->
      MeetingAttendee.status (formatAttendee a) = "needsAction"%string)
  /\ (truthy_bool (Attendee.optional a) = false ->
      MeetingAttendee.optional (formatAttendee a) = false).
Proof.
  repeat split; cbn.
  - apply or_str_default.
  - done.
Qed.

(** C10 as amended. [_formatMeetingData] returns [null] exactly when the
    event is absent or has no [conferenceData]. For an event with [conferenceData],
    [start] and [end] it returns a record, so that the formatting-error
    branch is not taken in [getMeeting], [createMeeting] and
    [updateMeeting] when the provider hands back such an event. In that
    record every attendee without [responseStatus] has status
    'needsAction' and every attendee without [optional] is not optional;
    a missing [summary] reads '無標題'; [meet_link] is the empty string
    when there is no video entry point, and with one it is the [uri] of
    the first such entry as it is, [undefined] when that entry has none;
    [phone_info] is the empty string when there is no phone entry point; a
    missing [conferenceId] or [location] reads as the empty string. *)
Theorem C10_formatMeetingData_total_with_defaults :
  (forall event : Js Event.t,
      _formatMeetingData event = Return None
      <-> match event with
          | Val ev => truthy_obj (Event.conferenceData ev) = false
          | _ => True
          end)
  /\
  (forall (ev : Event.t) cd s e,
      Event.conferenceData ev = Val cd ->
      Event.start ev = Val s ->
      Event.end_ ev = Val e ->
      exists m,
        _formatMeetingData (Val ev) = Return (Some m)
        /\ formatted ev = Return m
        /\ (forall cal meetingId,
               events_get cal (mkGetParams "primary" meetingId 1) = Return ev ->
               getMeeting (Some cal) meetingId = Return m)
        /\ (forall cal now random36 summary startTime endTime description attendees p,
               (createMeeting (Some cal) now random36 summary startTime endTime
                              description attendees).1 = Some p ->
               events_insert cal p = Return ev ->
               (createMeeting (Some cal) now random36 summary startTime endTime
                              description attendees).2 = Return m)
        /\ (forall cal meetingId u updates,
               updateMeeting_resource (Some cal) meetingId u = Return updates ->
               events_update cal (updateParams meetingId updates) = Return ev ->
               updateMeeting (Some cal) meetingId u = Return m)
        /\ Meeting.attendees m = map formatAttendee (or_nil (Event.attendees ev))
        /\ (forall a, In a (Meeting.attendees m) ->
               exists a0, In a0 (or_nil (Event.attendees ev))
                 /\ MeetingAttendee.email a = Attendee.email a0
                 /\ (truthy_str (Attendee.responseStatus a0) = false ->
                     MeetingAttendee.status a = "needsAction"%string)
                 /\ (truthy_bool (Attendee.optional a0) = false ->
                     MeetingAttendee.optional a = false))
        /\ (truthy_str (Event.summary ev) = false ->
            Meeting.summary m = "無標題"%string)
        /\ (Spec.entry_of "video" cd = Undefined -> Meeting.meet_link m = Val ""%string)
        /\ (forall ep, Spec.entry_of "video" cd = Val ep ->
                       Meeting.meet_link m = EntryPoint.uri ep)
        /\ (Spec.entry_of "phone" cd = Undefined -> Meeting.phone_info m = ""%string)
        /\ (truthy_str (ConferenceData.conferenceId cd) = false ->
            Meeting.conference_id m = ""%string)
        /\ (truthy_str (Event.location ev) = false -> Meeting.location m = ""%string)).
Proof.
  split.
  - intros [| |ev]; cbn; try done.
    destruct (Event.conferenceData ev) as [| |cd]; cbn; try done.
    destruct (time_of (Event.start ev)); cbn; [|done].
    destruct (time_of (Event.end_ ev)); cbn; done.
  - intros ev cd s e Hcd Hs He.
    assert (Hfmt : exists m, _formatMeetingData (Val ev) = Return (Some m)).
    { cbn. rewrite Hcd, Hs, He. cbn. by eexists. }
    destruct Hfmt as [m Hm]. exists m.
    assert (Hformatted : formatted ev = Return m).
    { unfold formatted. by rewrite Hm. }
    split; [done|]. split; [done|].
    split.
    { intros cal meetingId Hget. unfold getMeeting. cbn.
      rewrite Hget. cbn. rewrite Hcd. cbn. by rewrite Hformatted. }
    split.
    { intros cal now random36 summary startTime endTime description attendees p.
      unfold createMeeting.
      destruct (formatEmails (default attendees [])) as [fa|]; cbn; [|done].
      intros [= <-] Hins. rewrite Hins. cbn. by rewrite Hformatted. }
    split.
    { intros cal meetingId u updates Hres Hupd. unfold updateMeeting.
      cbn [the_calendar bind]. rewrite Hres. cbn. rewrite Hupd. cbn.
      by rewrite Hformatted. }
    cbn in Hm. rewrite Hcd, Hs, He in Hm. cbn in Hm.
    injection Hm as <-. cbn.
    split; [done|].
    split.
    { intros a (a0 & <- & Hin)%in_map_iff. exists a0. split; [done|].
      apply formatAttendee_defaults. }
    split; [apply or_str_default|].
    unfold Spec.entry_of, meetLink_of, phoneInfo_of.
    split.
    { destruct (ConferenceData.entryPoints cd); try done. by intros ->. }
    split.
    { intros ep. destruct (ConferenceData.entryPoints cd); try done. by intros ->. }
    split.
    { destruct (ConferenceData.entryPoints cd); try done. by intros ->. }
    split; apply or_str_default.
Qed.

End MeetingRecord.

(** The untitled meeting formats to a record with the defaults filled in. *)
Lemma C10_witness :
  exists m,
    GoogleMeetAPI.getMeeting (Some Fixtures.twoEventCalendar) "evt1" = Return m
    /\ GoogleMeetAPI.Meeting.summary m = "無標題"%string
    /\ GoogleMeetAPI.Meeting.phone_info m = ""%string
    /\ GoogleMeetAPI.Meeting.location m = ""%string.
Proof.
  destruct (proj2 C10_formatMeetingData_total_with_defaults
              Fixtures.untitledMeeting _ _ _ eq_refl eq_refl eq_refl)
    as (m & _ & _ & Hget & _ & _ & _ & _ & Hsum & _ & _ & Hphone & _ & Hloc).
  exists m. split; [|split; [|split]].
  - apply (Hget Fixtures.twoEventCalendar "evt1"%string). reflexivity.
  - apply Hsum. reflexivity.
  - apply Hphone. reflexivity.
  - apply Hloc. reflexivity.
Defined.

(** An event whose video entry point carries no [uri]: the link is missing,
    the record is built all the same, and its [meet_link] is [undefined],
    not the empty string. *)
Lemma C10_counterexample :
  exists cd m,
    GoogleMeetAPI.Event.conferenceData Fixtures.linklessMeeting = Val cd
    /\ Spec.link_of cd = Undefined
    /\ GoogleMeetAPI._formatMeetingData (Val Fixtures.linklessMeeting) = Return (Some m)
    /\ GoogleMeetAPI.Meeting.meet_link m = Undefined
    /\ ~ Spec.meet_link_defaulted cd m.
Proof.
  eexists _, _. split; [reflexivity|]. split; [reflexivity|].
  split; [reflexivity|]. split; [reflexivity|].
  intros H. specialize (H eq_refl). discriminate H.
Qed.

(** ** The conference request identifier *)

Section RequestId.

Import GoogleMeetAPI.

Lemma append_inj_r (p x y : string) :
  (p ++ x)%string = (p ++ y)%string -> x = y.
Proof.
  induction p as [|c p IH]; cbn; [done|].
  intros [= H]. by apply IH.
Qed.

(** C9 as amended. Every [createMeeting] call that reaches the provider
    asks for a conference, with [conferenceDataVersion] 1 and a request
    identifier made of 'meet-', the clock reading, '-' and up to nine
    characters of the random draw; the identifier is never empty; and two
    calls within the same millisecond get distinct identifiers exactly
    when their random suffixes differ. *)
Theorem C9_request_identifier (now : Z) (random36 : string) :
  (forall calendar summary startTime endTime description attendees p,
      (createMeeting calendar now random36 summary startTime endTime
                     description attendees).1 = Some p ->
      wr_conferenceDataVersion p = 1
      /\ exists cd,
          Event.conferenceData (wr_resource p) = Val cd
          /\ ConferenceData.createRequest_requestId cd
             = Val ("meet-" ++ show_int now ++ "-" ++ substr 2 9 random36)%string)
  /\ requestId now random36 <> ""%string
  /\ (forall other36,
        requestId now random36 <> requestId now other36
        <-> substr 2 9 random36 <> substr 2 9 other36).
Proof.
  split; [|split].
  - intros calendar summary startTime endTime description attendees p.
    unfold createMeeting.
    destruct (formatEmails _) as [fa|]; [|done].
    destruct (the_calendar calendar) as [cal|]; [|done].
    intros [= <-]. split; [done|]. by eexists.
  - done.
  - intros other36. unfold requestId. split.
    + intros Hne Heq. apply Hne. by rewrite Heq.
    + intros Hne Heq. apply Hne.
      apply append_inj_r in Heq. apply append_inj_r in Heq.
      by apply append_inj_r in Heq.
Qed.

End RequestId.

(** Two calls in the same millisecond whose random draws differ only after
    the ninth digit, or are equal, ask with the same identifier. *)
Lemma C9_counterexample :
  "0.4fzyo82mvyr"%string <> "0.4fzyo82mvzz"%string
  /\ GoogleMeetAPI.requestId 1735725600000 "0.4fzyo82mvyr"
     = GoogleMeetAPI.requestId 1735725600000 "0.4fzyo82mvzz"
  /\ GoogleMeetAPI.requestId 1735725600000 "0.4fzyo82mvyr"
     = "meet-1735725600000-4fzyo82mv"%string.
Proof. repeat split; done. Qed.

(** A call at 1735725600000 with draw 0.4fzyo82mvyr. *)
Lemma C9_witness :
  exists p cd,
    (GoogleMeetAPI.createMeeting (Some Fixtures.twoEventCalendar) 1735725600000
       "0.4fzyo82mvyr" (Val "Sync"%string)
       (Val "2025-01-01T10:00:00Z"%string) (Val "2025-01-01T11:00:00Z"%string)
       Undefined Undefined).1 = Some p
    /\ GoogleMeetAPI.Event.conferenceData (GoogleMeetAPI.wr_resource p) = Val cd
    /\ GoogleMeetAPI.ConferenceData.createRequest_requestId cd
       = Val "meet-1735725600000-4fzyo82mv"%string.
Proof.
  destruct (proj1 (C9_request_identifier 1735725600000 "0.4fzyo82mvyr")
              (Some Fixtures.twoEventCalendar) (Val "Sync"%string)
              (Val "2025-01-01T10:00:00Z"%string) (Val "2025-01-01T11:00:00Z"%string)
              Undefined Undefined _ eq_refl) as (_ & cd & Hcd & Hid).
  eexists _, cd. split; [reflexivity|]. split; [exact Hcd | exact Hid].
Defined.

(** ** Partial update *)

Section PartialUpdate.

Import GoogleMeetAPI.

(** The object written back differs from the existing event at most in
    the fields the call provides. *)
Lemma applyUpdates_frame (existing updates : Event.t) (u : Updates) :
  applyUpdates existing u = Return updates ->
  (u_summary u = Undefined -> Event.summary updates = Event.summary existing)
  /\ (u_description u = Undefined ->
      Event.description updates = Event.description existing)
  /\ (u_startTime u = Undefined -> Event.start updates = Event.start existing)
  /\ (u_endTime u = Undefined -> Event.end_ updates = Event.end_ existing)
  /\ (u_attendees u = Undefined -> Event.attendees updates = Event.attendees existing)
  /\ Event.id updates = Event.id existing
  /\ Event.conferenceData updates = Event.conferenceData existing
  /\ Event.created updates = Event.created existing
  /\ Event.updated updates = Event.updated existing
  /\ Event.creator updates = Event.creator existing
  /\ Event.organizer updates = Event.organizer existing
  /\ Event.status updates = Event.status existing
  /\ Event.htmlLink updates = Event.htmlLink existing
  /\ Event.location updates = Event.location existing.
Proof.
  unfold applyUpdates.
  destruct (u_attendees u) as [| |l] eqn:Hatt; cbn; try done.
  all: intros [= <-]; cbn; repeat split; try done.
  all: by intros ->.
Qed.

Lemma applyUpdates_times (existing updates : Event.t) (u : Updates) :
  applyUpdates existing u = Return updates ->
  Event.start updates
  = (if defined (u_startTime u) then Val (utc (u_startTime u))
     else Event.start existing)
  /\ Event.end_ updates
     = (if defined (u_endTime u) then Val (utc (u_endTime u))
        else Event.end_ existing).
Proof.
  unfold applyUpdates.
  destruct (u_attendees u) as [| |l]; cbn; try done.
  all: by intros [= <-].
Qed.

(** C8. [updateMeeting] fetches the existing event and writes back a copy
    in which only the fields given in the call are replaced: a field the
    call omits ([summary], [description], [startTime], [endTime],
    [attendees]) is in the written object what it was in the existing
    event, as is every field the call cannot name. When the provider hands
    back the object it was sent, the same holds of the resulting meeting
    record against the record of the existing event. *)
Theorem C8_updateMeeting_leaves_omitted_fields
    (cal : Calendar) (meetingId : string) (u : Updates) (existing : Event.t) :
  events_get cal (mkGetParams "primary" meetingId 1) = Return existing ->
  forall updates,
    updateMeeting_resource (Some cal) meetingId u = Return updates ->
    ((u_summary u = Undefined -> Event.summary updates = Event.summary existing)
     /\ (u_description u = Undefined ->
         Event.description updates = Event.description existing)
     /\ (u_startTime u = Undefined -> Event.start updates = Event.start existing)
     /\ (u_endTime u = Undefined -> Event.end_ updates = Event.end_ existing)
     /\ (u_attendees u = Undefined ->
         Event.attendees updates = Event.attendees existing)
     /\ Event.id updates = Event.id existing
     /\ Event.conferenceData updates = Event.conferenceData existing
     /\ Event.location updates = Event.location existing)
    /\
    (forall before,
        formatted existing = Return before ->
        events_update cal (updateParams meetingId updates) = Return updates ->
        exists after,
          updateMeeting (Some cal) meetingId u = Return after
          /\ (u_summary u = Undefined -> Meeting.summary after = Meeting.summary before)
          /\ (u_description u = Undefined ->
              Meeting.description after = Meeting.description before)
          /\ (u_startTime u = Undefined ->
              Meeting.start_time after = Meeting.start_time before)
          /\ (u_endTime u = Undefined ->
              Meeting.end_time after = Meeting.end_time before)
          /\ (u_attendees u = Undefined ->
              Meeting.attendees after = Meeting.attendees before)
          /\ Meeting.id after = Meeting.id before
          /\ Meeting.meet_link after = Meeting.meet_link before
          /\ Meeting.conference_id after = Meeting.conference_id before).
Proof.
  intros Hget updates Hres.
  assert (Happly : applyUpdates existing u = Return updates).
  { unfold updateMeeting_resource in Hres. cbn in Hres. by rewrite Hget in Hres. }
  pose proof (applyUpdates_frame _ _ _ Happly)
    as (Hsum & Hdesc & Hstart & Hend & Hatt & Hid & Hcd & _ & _ & _ & _ & _ & _ & Hloc).
  split; [done|].
  intros before Hbefore Hecho.
  unfold formatted in Hbefore. cbn in Hbefore.
  destruct (Event.conferenceData existing) as [| |cd] eqn:Hcd0; try done.
  destruct (Event.start existing) as [| |s0] eqn:Hs0; try done.
  destruct (Event.end_ existing) as [| |e0] eqn:He0; try done.
  cbn in Hbefore. injection Hbefore as <-.
  destruct (applyUpdates_times _ _ _ Happly) as [Hst Het].
  rewrite Hs0 in Hst. rewrite He0 in Het.
  assert (Hs : exists s, Event.start updates = Val s
                         /\ (u_startTime u = Undefined -> s = s0)).
  { destruct (defined (u_startTime u)) eqn:Hd.
    - exists (utc (u_startTime u)). split; [done|].
      intros Hu. by rewrite Hu in Hd.
    - by exists s0. }
  assert (He : exists e, Event.end_ updates = Val e
                         /\ (u_endTime u = Undefined -> e = e0)).
  { destruct (defined (u_endTime u)) eqn:Hd.
    - exists (utc (u_endTime u)). split; [done|].
      intros Hu. by rewrite Hu in Hd.
    - by exists e0. }
  destruct Hs as (s & Hs & Hs'), He as (e & He & He').
  eexists. split.
  { unfold updateMeeting. cbn [the_calendar bind]. rewrite Hres. cbn [bind].
    rewrite Hecho. cbn [bind wrap]. unfold formatted. cbn.
    rewrite Hcd, Hs, He. cbn. reflexivity. }
  cbn. repeat split.
  - intros H. by rewrite (Hsum H).
  - intros H. by rewrite (Hdesc H).
  - intros H. by rewrite (Hs' H).
  - intros H. by rewrite (He' H).
  - intros H. by rewrite (Hatt H).
  - done.
Qed.

End PartialUpdate.

(** [updateMeeting(id, {summary: "New"})] on the untitled meeting. *)
Lemma C8_witness :
  exists after,
    GoogleMeetAPI.updateMeeting (Some Fixtures.twoEventCalendar) "evt1"
      (GoogleMeetAPI.mkUpdates (Val "New"%string) Undefined Undefined Undefined Undefined)
    = Return after
    /\ GoogleMeetAPI.Meeting.start_time after = Val "2025-01-01T09:30:00Z"%string
    /\ GoogleMeetAPI.Meeting.end_time after = Val "2025-01-01T10:30:00Z"%string
    /\ GoogleMeetAPI.Meeting.attendees after
       = [ {| GoogleMeetAPI.MeetingAttendee.email := Val "ann@example.com"%string;
              GoogleMeetAPI.MeetingAttendee.status := "needsAction";
              GoogleMeetAPI.MeetingAttendee.optional := false |} ].
Proof.
  destruct (C8_updateMeeting_leaves_omitted_fields
              Fixtures.twoEventCalendar "evt1"
              (GoogleMeetAPI.mkUpdates (Val "New"%string) Undefined Undefined
                                       Undefined Undefined)
              Fixtures.untitledMeeting eq_refl _ eq_refl) as [_ Hrecord].
  destruct (Hrecord _ eq_refl eq_refl)
    as (after & Hafter & _ & _ & Hstart & Hend & Hatt & _).
  exists after. split; [exact Hafter|].
  split; [exact (Hstart eq_refl)|].
  split; [exact (Hend eq_refl) | exact (Hatt eq_refl)].
Defined.

(** ** Time conflicts *)

Section TimeConflicts.

Import GoogleMeetAPI.

Variable Date_new : Js string -> option Z.





End TimeConflicts.


(* ===================================================================== *)
(** * Further properties of the authorization server                      *)
(* ===================================================================== *)

Section PortScan.

Import AuthServer.

Variable env : Env.

Lemma scanPorts_result (s e : Z) (n : nat) :
  forall port w,
    match scanPorts env s e n port w with
    | (Return p, w') =>
      port <= p < port + Z.of_nat n
      /\ listen env p = Listening
      /\ (forall q, port <= q < p -> listen env q = EADDRINUSE)
      /\ w' = set_server (Some p) w
    | (Throw err, w') =>
      w' = w
      /\ ((err = NoPortAvailable s e
           /\ forall q, port <= q < port + Z.of_nat n -> listen env q = EADDRINUSE)
          \/ exists p c,
               err = ListenError c
               /\ port <= p < port + Z.of_nat n
               /\ listen env p = ListenFailed c
               /\ forall q, port <= q < p -> listen env q = EADDRINUSE)
    end.
Proof.
  induction n as [|n IH]; intros port w.
  - cbn. split; [done|]. left. split; [done|]. lia.
  - cbn [scanPorts]. destruct (listen env port) as [| |c0] eqn:Hl.
    + repeat split; try done; lia.
    + specialize (IH (port + 1) w).
      destruct (scanPorts env s e n (port + 1) w) as [[p|err] w'].
      * destruct IH as (Hp & Hfree & Hbusy & ->). repeat split; try done; try lia.
        intros q Hq. destruct (decide (q = port)) as [->|]; [done|]. apply Hbusy. lia.
      * destruct IH as (-> & [[-> Hall] | (p & c & -> & Hp & Hfail & Hbusy)]).
        -- split; [done|]. left. split; [done|].
           intros q Hq. destruct (decide (q = port)) as [->|]; [done|]. apply Hall. lia.
        -- split; [done|]. right. exists p, c. repeat split; try done; try lia.
           intros q Hq. destruct (decide (q = port)) as [->|]; [done|]. apply Hbusy. lia.
    + split; [done|]. right. eexists port, _. repeat split; try done; lia.
Qed.

(** For any range, [findAvailablePort] answers with the lowest port of the
    range that is not in use: it returns that port, bound, when it
    listens; it throws the listen error of that port otherwise, leaving the
    ports above untried; and it throws the no-port error exactly when every
    port of the range is in use, which includes the empty range. Unless it
    returns a port, the instance is left as it was. *)
Theorem findAvailablePort_answers_with_lowest_port (startPort endPort : Z) (w : World) :
  match findAvailablePort env startPort endPort w with
  | (Return p, w') =>
    startPort <= p <= endPort
    /\ listen env p = Listening
    /\ (forall q, startPort <= q < p -> listen env q = EADDRINUSE)
    /\ w' = set_server (Some p) w
  | (Throw err, w') =>
    w' = w
    /\ ((err = NoPortAvailable startPort endPort
         /\ forall q, startPort <= q <= endPort -> listen env q = EADDRINUSE)
        \/ exists p c,
             err = ListenError c
             /\ startPort <= p <= endPort
             /\ listen env p = ListenFailed c
             /\ forall q, startPort <= q < p -> listen env q = EADDRINUSE)
  end.
Proof.
  unfold findAvailablePort.
  pose proof (scanPorts_result startPort endPort
                (Z.to_nat (endPort - startPort + 1)) startPort w) as H.
  destruct (scanPorts env startPort endPort _ startPort w) as [[p|err] w'].
  - destruct H as (Hp & Hfree & Hbusy & ->). repeat split; try done; lia.
  - destruct H as (-> & [[-> Hall] | (p & c & -> & Hp & Hfail & Hbusy)]).
    + split; [done|]. left. split; [done|]. intros q Hq. apply Hall. lia.
    + split; [done|]. right. exists p, c. repeat split; try done; lia.
Qed.

(** A listen error other than address-in-use ends the flow: when the lowest
    port of 3000..3010 that is not in use fails to listen, [start] returns
    [false] and holds no listener, whatever the ports above would do. *)
Theorem start_gives_up_on_listen_error
    (openBrowser : bool) (w : World) (evs : list Event) (p : Z) (c : string) :
  (hasValidTokens env (fs w)).1.1 = false ->
  3000 <= p <= 3010 ->
  (forall q, 3000 <= q < p -> listen env q = EADDRINUSE) ->
  listen env p = ListenFailed c ->
  (start env openBrowser w evs).1 = Resolved false
  /\ server (self (start env openBrowser w evs).2) = server (self w).
Proof.
  intros Hinvalid Hp Hbusy Hfail.
  rewrite (start_invalid env openBrowser w evs Hinvalid).
  destruct (loadCredentials (fs w)) as [cr|]; [|done].
  pose proof (findAvailablePort_result_aux := scanPorts_result 3000 3010
                (Z.to_nat (3010 - 3000 + 1)) 3000 w).
  unfold findAvailablePort.
  destruct (scanPorts env 3000 3010 _ 3000 w) as [[p'|err] w'].
  - exfalso. destruct findAvailablePort_result_aux as (Hp' & Hfree & Hbusy' & _).
    destruct (Z.lt_trichotomy p p') as [Hlt | [-> | Hgt]].
    + rewrite (Hbusy' p) in Hfail; [done | lia].
    + congruence.
    + rewrite (Hbusy p') in Hfree; [done | lia].
  - by destruct findAvailablePort_result_aux as (-> & _).
Qed.

End PortScan.

(** Port 3000 in use, port 3001 refused for lack of permission, port 3002
    free: the flow gives up. *)
Lemma start_gives_up_on_listen_error_witness :
  (AuthServer.start
     (Fixtures.envAt 0 (fun port =>
        if port =? 3000 then AuthServer.EADDRINUSE
        else if port =? 3001 then AuthServer.ListenFailed "EACCES"
        else AuthServer.Listening))
     true Fixtures.freshWorld [Fixtures.goodCallback; AuthServer.IntervalTick]).1
  = AuthServer.Resolved false.
Proof.
  apply (start_gives_up_on_listen_error
           (Fixtures.envAt 0 (fun port =>
              if port =? 3000 then AuthServer.EADDRINUSE
              else if port =? 3001 then AuthServer.ListenFailed "EACCES"
              else AuthServer.Listening))
           true Fixtures.freshWorld [Fixtures.goodCallback; AuthServer.IntervalTick]
           3001 "EACCES").
  - reflexivity.
  - lia.
  - intros q Hq. cbn. replace q with 3000 by lia. reflexivity.
  - reflexivity.
Defined.

Section CallbackHandler.

Import AuthServer.

Variable env : Env.

(** The handler, branch by branch. *)
Ltac handler_branches req x w :=
  unfold requestHandler;
  destruct (String.eqb (pathname req) "/") eqn:?;
    [ destruct (oAuth2Client (self w)) eqn:?
    | destruct (String.eqb (pathname req) "/oauth2callback") eqn:?;
      [ destruct (truthy_str (error req)) eqn:?;
        [ | destruct (truthy_str (code req)) eqn:?;
            [ destruct (oAuth2Client (self w)) eqn:?;
              [ destruct (getToken x) eqn:?;
                [ unfold saveTokens; destruct (write x) eqn:? | ] | ] | ] ]
      | ] ];
  cbn.

Lemma requestHandler_frame (req : Request) (x : Exchange) (w : World) :
  let w' := (requestHandler env req x w).1 in
  server (self w') = server (self w)
  /\ oAuth2Client (self w') = oAuth2Client (self w)
  /\ activeConnections (self w') = activeConnections (self w)
  /\ destroyed w' = destroyed w
  /\ credentialsFile (fs w') = credentialsFile (fs w).
Proof. handler_branches req x w; repeat split; done. Qed.

(** The success page is sent only once the tokens are on disk: when the
    handler answers with it, the token file holds exactly the bundle the
    provider returned for the code and the flag is up. With any other
    answer the files are as before, and after the failure page of the
    exchange (status 500) the flag is down. In no case does a request touch
    the credentials file, the listener, the client or the sockets. *)
Theorem requestHandler_success_means_persisted (req : Request) (x : Exchange) (w : World) :
  let w' := (requestHandler env req x w).1 in
  let answer := (requestHandler env req x w).2 in
  let success := Some {| status := 200; body := AuthSucceededPage |} in
  (answer = success ->
   exists tokens,
     getToken x = Return tokens
     /\ tokenFile (fs w') = Json tokens
     /\ authCompletedSuccessfully (self w') = true)
  /\ (answer <> success -> fs w' = fs w)
  /\ (forall e, answer = Some {| status := 500; body := SaveFailedPage e |} ->
                authCompletedSuccessfully (self w') = false)
  /\ credentialsFile (fs w') = credentialsFile (fs w)
  /\ server (self w') = server (self w)
  /\ oAuth2Client (self w') = oAuth2Client (self w)
  /\ activeConnections (self w') = activeConnections (self w)
  /\ destroyed w' = destroyed w.
Proof.
  cbn zeta.
  destruct (requestHandler_frame req x w) as (Hs & Hc & Ha & Hd & Hcf).
  split; [|split; [|split]]; [| | |by repeat split].
  - handler_branches req x w; try done. intros _. by eexists.
  - handler_branches req x w; done.
  - intros e. handler_branches req x w; done.
Qed.

Lemma requestHandler_idle (req : Request) (x : Exchange) (w : World) :
  Vocabulary.exchangeAttempt (HttpRequest req x) = false ->
  (requestHandler env req x w).1 = w.
Proof. cbn [Vocabulary.exchangeAttempt]. handler_branches req x w; done. Qed.


End CallbackHandler.


Section WaitingFlow.

Import AuthServer.

Variable env : Env.

Lemma deliver_not_attempt (ev : Event) (w : World) :
  Vocabulary.exchangeAttempt ev = false ->
  authCompletedSuccessfully (self (deliver env ev w)) = authCompletedSuccessfully (self w).
Proof.
  destruct ev as [s|s|req x| | |]; cbn [deliver]; try done.
  intros Hno. by rewrite (requestHandler_idle env req x w Hno).
Qed.

Lemma deliver_attempt (ev : Event) (w : World) :
  Vocabulary.exchangeAttempt ev = true ->
  is_Some (oAuth2Client (self w)) ->
  authCompletedSuccessfully (self (deliver env ev w)) = Spec.successfulCallback ev.
Proof.
  destruct ev as [s|s|req x| | |]; cbn [Vocabulary.exchangeAttempt]; try done.
  intros Hyes [c Hc]. cbn [deliver Spec.successfulCallback]. rewrite Hyes.
  apply andb_prop in Hyes as [[Hp He]%andb_prop Hcode].
  apply negb_true_iff in He.
  unfold requestHandler. apply String.eqb_eq in Hp. rewrite Hp.
  cbn [String.eqb Ascii.eqb Bool.eqb]. rewrite He, Hcode, Hc. cbn.
  destruct (getToken x); cbn; [|done].
  unfold saveTokens. by destruct (write x).
Qed.

(** While the flow waits, the completion flag tells how the last exchange
    went, not whether one ever succeeded: after any run of events it is up
    exactly when the last callback that reached the exchange succeeded (and
    is what it was when there was none). A failed exchange thus takes back
    an earlier success that no poll tick has seen yet. *)
Theorem flag_follows_last_exchange (w : World) (evs : list Event) :
  is_Some (oAuth2Client (self w)) ->
  authCompletedSuccessfully (self (deliverAll env w evs))
  = match Vocabulary.lastAttempt evs with
    | Some ev => Spec.successfulCallback ev
    | None => authCompletedSuccessfully (self w)
    end.
Proof.
  revert w. induction evs as [|ev evs IH]; intros w Hclient; [done|].
  rewrite deliverAll_cons, IH by (by rewrite deliver_client).
  cbn [Vocabulary.lastAttempt].
  destruct (Vocabulary.lastAttempt evs); [done|].
  destruct (Vocabulary.exchangeAttempt ev) eqn:Hev.
  - by apply deliver_attempt.
  - by apply deliver_not_attempt.
Qed.

(** With the interval cleared and no timeout to come, nothing resolves. *)
Lemma awaitAuth_cleared (evs : list Event) :
  forall w, ~ In TimeoutFired evs -> (awaitAuth env false w evs).1 = Pending.
Proof.
  induction evs as [|ev evs IH]; intros w Hnt; [done|].
  assert (~ In TimeoutFired evs) by (intros H; apply Hnt; by right).
  destruct ev as [s|s|req x| | |]; cbn [awaitAuth andb]; try by apply IH.
  exfalso. apply Hnt. by left.
Qed.

(** A run without timeout that no tick resolves leaves the promise to the
    rest of the events. *)
Lemma awaitAuth_pending_app (pre rest : list Event) :
  forall polling w,
    ~ In TimeoutFired pre ->
    (awaitAuth env polling w pre).1 = Pending ->
    awaitAuth env polling w (pre ++ rest)
    = awaitAuth env polling (deliverAll env w pre) rest.
Proof.
  induction pre as [|ev pre IH]; intros polling w Hnt Hp; [done|].
  assert (~ In TimeoutFired pre) by (intros H; apply Hnt; by right).
  destruct ev as [s|s|req x| | |]; cbn [app awaitAuth] in *; rewrite ?deliverAll_cons.
  1-4: by apply IH.
  - destruct (polling && _); [done|]. by apply IH.
  - exfalso. apply Hnt. by left.
Qed.

(** A success that no poll tick saw before the timeout is lost for good:
    when the only timeout of the run fires with the flag up and the promise
    still pending, the timeout clears the interval and resolves nothing, and
    the promise of [start] stays pending whatever is delivered after. *)
Theorem late_success_never_settles (w : World) (pre post : list Event) :
  ~ In TimeoutFired pre ->
  ~ In TimeoutFired post ->
  (awaitAuth env true w pre).1 = Pending ->
  authCompletedSuccessfully (self (deliverAll env w pre)) = true ->
  (awaitAuth env true w (pre ++ TimeoutFired :: post)).1 = Pending.
Proof.
  intros Hpre Hpost Hpending Hup.
  rewrite awaitAuth_pending_app by done.
  cbn [awaitAuth]. rewrite Hup. by apply awaitAuth_cleared.
Qed.

End WaitingFlow.

(** A success followed by a rejected exchange: the flag is down again. *)
Lemma flag_follows_last_exchange_witness :
  AuthServer.authCompletedSuccessfully
    (AuthServer.self
       (AuthServer.deliverAll Fixtures.quietEnv Fixtures.waitingWorld
          [Fixtures.goodCallback; AuthServer.Connection 3; Fixtures.rejectedCallback]))
  = false.
Proof.
  apply (flag_follows_last_exchange Fixtures.quietEnv Fixtures.waitingWorld
           [Fixtures.goodCallback; AuthServer.Connection 3; Fixtures.rejectedCallback]).
  by eexists.
Defined.

(** The callback succeeds after the last tick; the timeout and later ticks
    resolve nothing. *)
Lemma late_success_never_settles_witness :
  (AuthServer.awaitAuth Fixtures.quietEnv true Fixtures.waitingWorld
     ([AuthServer.IntervalTick; Fixtures.goodCallback]
      ++ AuthServer.TimeoutFired :: [AuthServer.IntervalTick; AuthServer.IntervalTick])).1
  = AuthServer.Pending.
Proof.
  apply (late_success_never_settles Fixtures.quietEnv Fixtures.waitingWorld
           [AuthServer.IntervalTick; Fixtures.goodCallback]
           [AuthServer.IntervalTick; AuthServer.IntervalTick]).
  - intros [H | [H | []]]; discriminate H.
  - intros [H | [H | []]]; discriminate H.
  - reflexivity.
  - reflexivity.
Defined.

Section Teardown.

Import AuthServer.

Variable env : Env.

(** [stop()] is safe to call at any time and any number of times: without
    a listener it resolves at once and changes nothing, so a second call
    after a first is such a no-op. It never touches the files, the
    completion flag or the OAuth client, and never takes a socket out of
    the destroyed ones. *)
Theorem stop_is_idempotent (w : World) :
  (server (self w) = None -> stop env w = (w, NoServer, 0))
  /\ stop env (stop env w).1.1 = ((stop env w).1.1, NoServer, 0)
  /\ fs (stop env w).1.1 = fs w
  /\ authCompletedSuccessfully (self (stop env w).1.1)
     = authCompletedSuccessfully (self w)
  /\ oAuth2Client (self (stop env w).1.1) = oAuth2Client (self w)
  /\ destroyed w ⊆ destroyed (stop env w).1.1.
Proof.
  unfold stop. destruct (server (self w)) as [port|] eqn:Hs.
  - destruct (close_after env) as [d|]; [destruct (d <? 2000)|]; cbn.
    all: split; [done|]. all: split; [done|]. all: split; [done|].
    all: split; [done|]. all: split; [done|].
    all: intros s Hs'; apply elem_of_union; by left.
  - cbn. rewrite Hs. by repeat split.
Qed.

Lemma deliver_tracks (s : nat) (ev : Event) (w : World) :
  (s ∈ activeConnections (self (deliver env ev w)))
  <-> ev = Connection s \/ (ev <> SocketClose s /\ s ∈ activeConnections (self w)).
Proof.
  destruct ev as [s'|s'|req x| | |]; cbn [deliver].
  - cbn. rewrite elem_of_union, elem_of_singleton. split.
    + intros [H | ->]; [right; by split | by left].
    + intros [[= ->] | [_ H]]; [by right | by left].
  - cbn. rewrite elem_of_difference, elem_of_singleton. split.
    + intros [H Hne]. right. split; [|done]. by intros [= ->].
    + intros [[=] | [Hne H]]. split; [done|]. by intros ->.
  - destruct (requestHandler_frame env req x w) as (_ & _ & -> & _). split.
    + intros H. right. by split.
    + by intros [[=] | [_ H]].
  - split; [intros H; right; by split | by intros [[=] | [_ H]]].
  - split; [intros H; right; by split | by intros [[=] | [_ H]]].
  - split; [intros H; right; by split | by intros [[=] | [_ H]]].
Qed.

(** Events about other sockets do not move a socket in or out. *)
Lemma deliverAll_tracks_other (s : nat) (evs : list Event) :
  forall w,
    (forall ev, In ev evs -> ev <> Connection s /\ ev <> SocketClose s) ->
    (s ∈ activeConnections (self (deliverAll env w evs)))
    <-> (s ∈ activeConnections (self w)).
Proof.
  induction evs as [|ev evs IH]; intros w Hother; [done|].
  rewrite deliverAll_cons, IH by (intros ev' H; apply Hother; by right).
  rewrite deliver_tracks.
  destruct (Hother ev ltac:(by left)) as [Hc Hcl]. split.
  - by intros [-> | [_ H]].
  - intros H. right. by split.
Qed.

(** The tracked set follows the sockets: after a run of events a socket is
    tracked when its last connection came after its last close, and not
    tracked when its last close came after its last connection. Calling
    [stop()] on a bound listener then destroys every socket still tracked
    and no socket that has already closed. *)
Theorem stop_destroys_the_open_sockets (w : World) (s : nat) (pre post : list Event) :
  (forall ev, In ev post -> ev <> Connection s /\ ev <> SocketClose s) ->
  let opened := deliverAll env w (pre ++ Connection s :: post) in
  let closed := deliverAll env w (pre ++ SocketClose s :: post) in
  (s ∈ activeConnections (self opened))
  /\ (s ∉ activeConnections (self closed))
  /\ (is_Some (server (self w)) -> s ∈ destroyed (stop env opened).1.1)
  /\ ((s ∈ destroyed (stop env closed).1.1) <-> (s ∈ destroyed w)).
Proof.
  intros Hpost opened closed.
  assert (Hopen : s ∈ activeConnections (self opened)).
  { subst opened.
    rewrite deliverAll_app, deliverAll_cons, deliverAll_tracks_other, deliver_tracks by done.
    by left. }
  assert (Hclosed : s ∉ activeConnections (self closed)).
  { subst closed.
    rewrite deliverAll_app, deliverAll_cons, deliverAll_tracks_other, deliver_tracks by done.
    by intros [[=] | [H _]]. }
  destruct (deliverAll_frame env (pre ++ Connection s :: post) w) as [Hsrv1 _].
  destruct (deliverAll_frame env (pre ++ SocketClose s :: post) w) as [Hsrv2 Hd2].
  fold opened in Hsrv1. fold closed in Hsrv2, Hd2.
  clearbody opened closed.
  split; [done|]. split; [done|]. split.
  - intros [port Hport]. unfold stop. rewrite Hsrv1, Hport.
    destruct (close_after env) as [d|]; [destruct (d <? 2000)|]; cbn;
      apply elem_of_union; by right.
  - unfold stop. rewrite Hsrv2.
    destruct (server (self w)); [|cbn; by rewrite Hd2].
    destruct (close_after env) as [d|]; [destruct (d <? 2000)|]; cbn;
      rewrite elem_of_union, Hd2; (split; [by intros [H | H] | by left]).
Qed.

End Teardown.

(** Socket 7 connects, a callback is handled, socket 7 closes: [stop()]
    does not destroy it. Socket 8 connects and stays: it is tracked. *)
Lemma stop_destroys_the_open_sockets_witness :
  8%nat ∈ AuthServer.activeConnections
            (AuthServer.self
               (AuthServer.deliverAll Fixtures.quietEnv Fixtures.waitingWorld
                  ([AuthServer.Connection 7] ++ AuthServer.Connection 8
                   :: [Fixtures.goodCallback; AuthServer.SocketClose 7]))).
Proof.
  refine (proj1 (stop_destroys_the_open_sockets Fixtures.quietEnv Fixtures.waitingWorld 8
                   [AuthServer.Connection 7]
                   [Fixtures.goodCallback; AuthServer.SocketClose 7] _)).
  intros ev [<- | [<- | []]]; split; discriminate.
Defined.

Section Credentials.

Import AuthServer.

Variable env : Env.

(** Without usable credentials no listener is ever started. When the
    credentials file is missing, is not JSON, or has neither a [web] nor an
    [installed] entry, [loadCredentials] throws its wrapped error, and
    [start] neither rejects nor binds a port: it returns [true] if the
    stored tokens are still valid as they are, and [false] otherwise. *)
Theorem start_without_credentials_never_listens
    (openBrowser : bool) (w : World) (evs : list Event) :
  match credentialsFile (fs w) with
  | Json credentials =>
    truthy_obj (web credentials) = false /\ truthy_obj (installed credentials) = false
  | _ => True
  end ->
  (exists cause, loadCredentials (fs w) = Throw (LoadCredentialsFailed cause))
  /\ server (self (start env openBrowser w evs).2) = server (self w)
  /\ (forall e, (start env openBrowser w evs).1 <> Rejected e)
  /\ (start env openBrowser w evs).1 = Resolved (hasValidTokens env (fs w)).1.1.
Proof.
  intros Hbad.
  assert (Hload : exists cause, loadCredentials (fs w) = Throw (LoadCredentialsFailed cause)).
  { unfold loadCredentials. destruct (credentialsFile (fs w)) as [| |credentials]; cbn.
    - by eexists.
    - by eexists.
    - destruct Hbad as [Hweb Hinst].
      destruct (web credentials); try done; destruct (installed credentials); try done;
        by eexists. }
  split; [done|]. destruct Hload as [cause Hload].
  destruct ((hasValidTokens env (fs w)).1.1) eqn:Hvalid.
  - rewrite (start_valid env openBrowser w evs Hvalid). by repeat split.
  - rewrite (start_invalid env openBrowser w evs Hvalid), Hload. by repeat split.
Qed.

End Credentials.

(** A credentials file with neither entry, and no token file. *)
Lemma start_without_credentials_never_listens_witness :
  AuthServer.server
    (AuthServer.self
       (AuthServer.start Fixtures.quietEnv true
          {| AuthServer.self := AuthServer.new;
             AuthServer.fs := {| credentialsFile := Json (mkCredentialsFile Undefined Null);
                                 tokenFile := Absent |};
             AuthServer.destroyed := ∅ |}
          [Fixtures.goodCallback; AuthServer.IntervalTick]).2)
  = None.
Proof.
  refine (proj1 (proj2 (start_without_credentials_never_listens Fixtures.quietEnv true
                          {| AuthServer.self := AuthServer.new;
                             AuthServer.fs :=
                               {| credentialsFile := Json (mkCredentialsFile Undefined Null);
                                  tokenFile := Absent |};
                             AuthServer.destroyed := ∅ |}
                          [Fixtures.goodCallback; AuthServer.IntervalTick] _))).
  split; reflexivity.
Defined.

(* ===================================================================== *)
(** * Further properties of the calendar gateway                          *)
(* ===================================================================== *)

Section Initialize.

Import GoogleMeetAPI.

Variable now : Z.
Variable refresh : OAuth2Client -> Js string -> Exc (option Tokens).
Variable writeFile : Exc unit.
Variable client : Calendar.

(** [initialize], by what the credentials file holds. *)
Lemma initialize_cases (f : FS) :
  match credentialsFile f with
  | Absent =>
    initialize now refresh writeFile client f = (Throw CredentialsFileNotFound, f, [])
  | Garbage => initialize now refresh writeFile client f = (Throw SyntaxError, f, [])
  | Json credentials =>
    match Vocabulary.clientConfigOf credentials with
    | None =>
      initialize now refresh writeFile client f = (Throw InvalidCredentialsFormat, f, [])
    | Some cfg =>
      match first_redirect cfg with
      | Throw e => initialize now refresh writeFile client f = (Throw e, f, [])
      | Return r =>
        initialize now refresh writeFile client f
        = match loadToken now
                  (refresh (mkOAuth2Client (client_id cfg) (client_secret cfg) r))
                  writeFile f with
          | (Throw e, f', log) => (Throw e, f', log)
          | (Return _, f', log) => (Return client, f', log)
          end
      end
    end
  end.
Proof.
  unfold initialize, Vocabulary.clientConfigOf.
  destruct (credentialsFile f) as [| |credentials]; try done.
  destruct (web credentials) as [| |c1];
    [destruct (installed credentials) as [| |c2]
    |destruct (installed credentials) as [| |c2]|]; cbn; try done.
  all: match goal with |- context [first_redirect ?c] =>
         by destruct (first_redirect c) end.
Qed.

(** The token part: when it goes through, and what it throws. *)
Lemma loadToken_result (rf : Js string -> Exc (option Tokens)) (f : FS) :
  ((loadToken now rf writeFile f).1.1 = Return tt
   <-> exists token,
         tokenFile f = Json token
         /\ (AuthServer.expired now token = false
             \/ (writeFile = Return tt
                 /\ exists nc, rf (refresh_token token) = Return (Some nc))))
  /\ (forall e, (loadToken now rf writeFile f).1.1 = Throw e ->
                (loadToken now rf writeFile f).1.2 = f /\ exists cause, e = NoValidToken cause).
Proof.
  unfold loadToken.
  destruct (tokenFile f) as [| |token]; cbn [readJson].
  - cbn. split; [split; [done | by intros (? & [=] & _)]|].
    intros e [= <-]. split; [done | by eexists].
  - cbn. split; [split; [done | by intros (? & [=] & _)]|].
    intros e [= <-]. split; [done | by eexists].
  - destruct (AuthServer.expired now token) eqn:Hexp.
    + destruct (rf (refresh_token token)) as [[nc|]|e2] eqn:Href.
      * destruct writeFile as [[]|e3]; cbn.
        -- split; [|done]. split; [|done]. intros _. exists token. split; [done|].
           right. split; [done|]. by exists nc.
        -- split.
           ++ split; [done|]. intros (t' & [= <-] & [H | [[=] _]]). congruence.
           ++ intros e [= <-]. split; [done | by eexists].
      * cbn. split.
        -- split; [done|]. intros (t' & [= <-] & [H | [_ [nc Hnc]]]); congruence.
        -- intros e [= <-]. split; [done | by eexists].
      * cbn. split.
        -- split; [done|]. intros (t' & [= <-] & [H | [_ [nc Hnc]]]); congruence.
        -- intros e [= <-]. split; [done | by eexists].
    + cbn. split; [|done]. split; [|done]. intros _. exists token. split; [done|]. by left.
Qed.

(** When [initialize] goes through, and what it leaves behind when not. *)
Lemma initialize_result (f : FS) :
  ((initialize now refresh writeFile client f).1.1 = Return client
   <-> exists credentials cfg r token,
         credentialsFile f = Json credentials
         /\ Vocabulary.clientConfigOf credentials = Some cfg
         /\ first_redirect cfg = Return r
         /\ tokenFile f = Json token
         /\ (AuthServer.expired now token = false
             \/ (writeFile = Return tt
                 /\ exists nc,
                     refresh (mkOAuth2Client (client_id cfg) (client_secret cfg) r)
                             (refresh_token token) = Return (Some nc))))
  /\ (forall cal, (initialize now refresh writeFile client f).1.1 = Return cal ->
                  cal = client)
  /\ (forall e, (initialize now refresh writeFile client f).1.1 = Throw e ->
                (initialize now refresh writeFile client f).1.2 = f
                /\ (credentialsFile f = Absent -> e = CredentialsFileNotFound)
                /\ (forall credentials cfg r,
                       credentialsFile f = Json credentials ->
                       Vocabulary.clientConfigOf credentials = Some cfg ->
                       first_redirect cfg = Return r ->
                       exists cause, e = NoValidToken cause)).
Proof.
  pose proof (initialize_cases f) as Hi.
  destruct (credentialsFile f) as [| |credentials] eqn:Hc.
  1-2: rewrite Hi; cbn;
       (split; [split; [done | by intros (? & ? & ? & ? & [=] & _)]
               | split; [done | intros e [= <-]; by repeat split]]).
  destruct (Vocabulary.clientConfigOf credentials) as [cfg|] eqn:Hcfg.
  2: { rewrite Hi. cbn. split; [|split; [done|]].

       - split; [done|]. intros (? & ? & ? & ? & [= <-] & Hsome & _). congruence.
       - intros e [= <-]. split; [done|]. split; [done|].
         intros ? ? ? [= <-] Hsome. congruence. }
  destruct (first_redirect cfg) as [r|e1] eqn:Hr.
  2: { rewrite Hi. cbn. split; [|split; [done|]].
       - split; [done|].
         intros (? & ? & ? & ? & [= <-] & Hsome & Hred & _). congruence.
       - intros e [= <-]. split; [done|]. split; [done|].
         intros ? ? ? [= <-] Hsome Hred. congruence. }
  rewrite Hi.
  destruct (loadToken_result
              (refresh (mkOAuth2Client (client_id cfg) (client_secret cfg) r)) f)
    as [Hok Hfail].
  destruct (loadToken now _ writeFile f) as [[[[]|e0] f'] log]; cbn in *.
  - split; [|split; [by intros cal [= <-] | done]].
    split; [|done]. intros _.
    destruct (proj1 Hok eq_refl) as (token & Ht & Hcond).
    by exists credentials, cfg, r, token.
  - split; [|split; [done|]].
    + split; [done|].
      intros (c' & cfg' & r' & token & [= <-] & Hcfg' & Hr' & Ht & Hcond).
      rewrite Hcfg in Hcfg'. injection Hcfg' as <-.
      rewrite Hr in Hr'. injection Hr' as <-.
      assert (Throw e0 = Return tt) as [=]. apply Hok. by exists token.
    + intros e [= <-]. destruct (Hfail e0 eq_refl) as [-> Hcause].
      split; [done|]. split; [done|]. by intros.
Qed.

(** [initialize] succeeds exactly when the credentials file parses and has
    a [web] or else an [installed] entry with a [redirect_uris] array, the
    token file parses, and the stored bundle either has not expired or the
    refresh call resolves with a bundle under [credentials] that is then
    written back. It hands out the calendar client then. The token fields
    themselves are not looked at. When it fails, the files are as before; a
    missing credentials file is reported as such, and any failure of the
    token part as a missing valid token. In particular an expired bundle
    whose refresh resolves with no [credentials] property makes
    [initialize] fail on the [TypeError] of writing nothing, whatever the
    disk would do. *)
Theorem initialize_succeeds_iff (f : FS) :
  ((initialize now refresh writeFile client f).1.1 = Return client
   <-> exists credentials cfg r token,
         credentialsFile f = Json credentials
         /\ Vocabulary.clientConfigOf credentials = Some cfg
         /\ first_redirect cfg = Return r
         /\ tokenFile f = Json token
         /\ (AuthServer.expired now token = false
             \/ (writeFile = Return tt
                 /\ exists nc,
                     refresh (mkOAuth2Client (client_id cfg) (client_secret cfg) r)
                             (refresh_token token) = Return (Some nc))))
  /\ (forall credentials cfg r token,
        credentialsFile f = Json credentials ->
        Vocabulary.clientConfigOf credentials = Some cfg ->
        first_redirect cfg = Return r ->
        tokenFile f = Json token ->
        AuthServer.expired now token = true ->
        refresh (mkOAuth2Client (client_id cfg) (client_secret cfg) r)
                (refresh_token token) = Return None ->
        (initialize now refresh writeFile client f).1
        = (Throw (NoValidToken TypeError), f))
  /\ (forall cal, (initialize now refresh writeFile client f).1.1 = Return cal ->
                  cal = client)
  /\ (forall e, (initialize now refresh writeFile client f).1.1 = Throw e ->
                (initialize now refresh writeFile client f).1.2 = f
                /\ (credentialsFile f = Absent -> e = CredentialsFileNotFound)
                /\ (forall credentials cfg r,
                       credentialsFile f = Json credentials ->
                       Vocabulary.clientConfigOf credentials = Some cfg ->
                       first_redirect cfg = Return r ->
                       exists cause, e = NoValidToken cause)).
Proof.
  destruct (initialize_result f) as (Hiff & Hclient & Hfail).
  split; [exact Hiff|]. split; [|by split].
  intros credentials cfg r token Hc Hcfg Hr Ht Hexp Hnone.
  pose proof (initialize_cases f) as Hi.
  rewrite Hc, Hcfg, Hr in Hi. rewrite Hi.
  rewrite (loadToken_expired now _ writeFile f token Ht Hexp).
  cbn zeta. by rewrite Hnone.
Qed.

End Initialize.

Section Authentication.

Import AuthServer.

Variable env : Env.
Variable client : GoogleMeetAPI.Calendar.

Lemma start_never_rejects (openBrowser : bool) (w : World) (evs : list Event) :
  forall e, (start env openBrowser w evs).1 <> Rejected e.
Proof.
  intros e. destruct ((hasValidTokens env (fs w)).1.1) eqn:Hvalid.
  - by rewrite (start_valid env openBrowser w evs Hvalid).
  - rewrite (start_invalid env openBrowser w evs Hvalid).
    destruct (loadCredentials (fs w)); [|done].
    destruct (findAvailablePort env 3000 3010 w) as [[port|] w2]; [|done].
    apply awaitAuth_frame.
Qed.

Lemma tryInitialize_ok (s s' : McpServer.t) :
  McpServer.tryInitialize env client s = Return s' ->
  McpServer.isAuthenticated s' = true
  /\ is_Some (McpServer.googleMeet_calendar s')
  /\ McpServer.authServer s' = McpServer.authServer s.
Proof.
  unfold McpServer.tryInitialize.
  destruct (GoogleMeetAPI.initialize _ _ _ client (McpServer.files s)) as [[[cal|] f'] log];
    [|done].
  intros [= <-]. cbn. by repeat split.
Qed.

(** What [initializeAuthentication] leaves behind, by its outcome. *)
Lemma initializeAuthentication_result (evs : list Event) (s0 : McpServer.t) :
  let r := (McpServer.initializeAuthentication env client evs s0).1 in
  let s' := (McpServer.initializeAuthentication env client evs s0).2 in
  (forall e, r <> Rejected e)
  /\ (r = Resolved true ->
      McpServer.isAuthenticated s' = true /\ is_Some (McpServer.googleMeet_calendar s'))
  /\ (r <> Resolved true ->
      McpServer.isAuthenticated s' = McpServer.isAuthenticated s0).
Proof.
  unfold McpServer.initializeAuthentication.
  set (s := {| McpServer.googleMeet_calendar := None |}).
  destruct (McpServer.tryInitialize env client s) as [s1|] eqn:Hfirst.
  { apply tryInitialize_ok in Hfirst as (H1 & H2 & _). cbn. by repeat split. }
  pose proof (start_never_rejects true
                {| self := AuthServer.new; fs := McpServer.files s;
                   destroyed := McpServer.destroyedSockets s |} evs) as Hnr.
  destruct (start env true _ evs) as [[[|]|err|] w]; cbn in *.
  - match goal with |- context [McpServer.tryInitialize env client ?x] =>
      destruct (McpServer.tryInitialize env client x) as [s2|] eqn:Hsecond
    end; cbn.
    + apply tryInitialize_ok in Hsecond as (H1 & H2 & _). by repeat split.
    + by repeat split.
  - by repeat split.
  - by destruct (Hnr err).
  - by repeat split.
Qed.

(** A tool only runs with a calendar client in place. If the server keeps
    a client whenever it calls itself authenticated, it still does after
    [ensureAuthenticated]; when that call returns, the server is
    authenticated and has a client; when it throws, it throws the
    invalid-request error and the server is not authenticated; it never
    fails in another way; and an authenticated server is let through as it
    is, no file read and no flow started. *)
Theorem ensureAuthenticated_guards_the_client (evs : list Event) (s : McpServer.t) :
  Vocabulary.authenticatedWithClient s ->
  let guard := (ToolHandlers.ensureAuthenticated env client evs s).1 in
  let s' := (ToolHandlers.ensureAuthenticated env client evs s).2 in
  Vocabulary.authenticatedWithClient s'
  /\ (forall e, guard <> ToolHandlers.Crashed e)
  /\ (guard = ToolHandlers.Passed ->
      McpServer.isAuthenticated s' = true /\ is_Some (McpServer.googleMeet_calendar s'))
  /\ (forall e, guard = ToolHandlers.Refused e ->
        e = ToolHandlers.InvalidRequest "認證失敗。請檢查您的憑證設定並重新啟動服務。"
        /\ McpServer.isAuthenticated s' = false)
  /\ (McpServer.isAuthenticated s = true ->
      ToolHandlers.ensureAuthenticated env client evs s = (ToolHandlers.Passed, s)).
Proof.
  intros Hinv. unfold ToolHandlers.ensureAuthenticated.
  unfold Vocabulary.authenticatedWithClient in *.
  destruct (McpServer.isAuthenticated s) eqn:Hauth.
  { cbn. repeat split; try done; intros; by apply Hinv. }
  destruct (initializeAuthentication_result evs s) as (Hnr & Hok & Hno).
  destruct (McpServer.initializeAuthentication env client evs s) as [[[|]|err|] s'];
    cbn in *.
  - destruct (Hok eq_refl) as [H1 H2]. repeat split; try done.
  - assert (McpServer.isAuthenticated s' = false) as Hf by (rewrite Hno; done).
    repeat split; try done.
    + intros H. congruence.
    + congruence.
  - by destruct (Hnr err).
  - assert (McpServer.isAuthenticated s' = false) as Hf by (rewrite Hno; done).
    repeat split; try done. intros H. congruence.
Qed.

(** The startup check is weaker than the check of the authorization
    server: a stored bundle that has not expired is accepted by
    [GoogleMeetAPI.initialize] even when its [access_token] or
    [refresh_token] is missing, although [hasValidTokens] rejects it. The
    server then calls itself authenticated without starting the
    authorization flow. *)
Theorem initialize_accepts_bundle_without_tokens
    (f : FS) (credentials : CredentialsFile) (cfg : ClientConfig) (r : Js string)
    (token : Tokens) :
  credentialsFile f = Json credentials ->
  Vocabulary.clientConfigOf credentials = Some cfg ->
  GoogleMeetAPI.first_redirect cfg = Return r ->
  tokenFile f = Json token ->
  expired (Date_now env) token = false ->
  truthy_str (access_token token) = false \/ truthy_str (refresh_token token) = false ->
  (hasValidTokens env f).1.1 = false
  /\ GoogleMeetAPI.initialize (Date_now env) (refreshToken env) (fs_write env) client f
     = (Return client, f, [])
  /\ (forall evs s0,
        McpServer.files s0 = f ->
        McpServer.initializeAuthentication env client evs s0
        = (Resolved true,
           {| McpServer.googleMeet_calendar := Some client;
              McpServer.authServer := McpServer.authServer s0;
              McpServer.isAuthenticated := true;
              McpServer.files := f;
              McpServer.destroyedSockets := McpServer.destroyedSockets s0 |})).
Proof.
  intros Hc Hcfg Hr Ht Hexp Hmissing.
  assert (Hinit : GoogleMeetAPI.initialize (Date_now env) (refreshToken env)
                    (fs_write env) client f = (Return client, f, [])).
  { pose proof (initialize_cases (Date_now env) (refreshToken env) (fs_write env)
                  client f) as Hi.
    rewrite Hc, Hcfg, Hr in Hi. rewrite Hi.
    unfold GoogleMeetAPI.loadToken. rewrite Ht. cbn [readJson]. by rewrite Hexp. }
  split; [|split; [done|]].
  - unfold hasValidTokens. rewrite Ht. cbn [readJson].
    destruct Hmissing as [-> | ->]; cbn; [done|]. by rewrite orb_true_r.
  - intros evs s0 <-. unfold McpServer.initializeAuthentication, McpServer.tryInitialize.
    cbn [McpServer.files]. by rewrite Hinit.
Qed.

End Authentication.

(** A bundle that expires in the future and has lost its access token. *)
Lemma initialize_accepts_bundle_without_tokens_witness :
  (AuthServer.hasValidTokens Fixtures.quietEnv
     {| credentialsFile := Json Fixtures.desktopCredentials;
        tokenFile := Json (mkTokens Undefined (Val "1//0g"%string) (Val 5000)
                                    Undefined Undefined) |}).1.1 = false
  /\ GoogleMeetAPI.initialize 0 (AuthServer.refreshToken Fixtures.quietEnv) (Return tt)
       Fixtures.twoEventCalendar
       {| credentialsFile := Json Fixtures.desktopCredentials;
          tokenFile := Json (mkTokens Undefined (Val "1//0g"%string) (Val 5000)
                                      Undefined Undefined) |}
     = (Return Fixtures.twoEventCalendar,
        {| credentialsFile := Json Fixtures.desktopCredentials;
           tokenFile := Json (mkTokens Undefined (Val "1//0g"%string) (Val 5000)
                                       Undefined Undefined) |},
        []).
Proof.
  destruct (initialize_accepts_bundle_without_tokens Fixtures.quietEnv
              Fixtures.twoEventCalendar
              {| credentialsFile := Json Fixtures.desktopCredentials;
                 tokenFile := Json (mkTokens Undefined (Val "1//0g"%string) (Val 5000)
                                             Undefined Undefined) |}
              Fixtures.desktopCredentials _ _ _
              eq_refl eq_refl eq_refl eq_refl eq_refl (or_introl eq_refl))
    as (H1 & H2 & _).
  split; [exact H1 | exact H2].
Defined.

(** A server that is not yet authenticated, with no files it could use and
    a flow that times out: the guard refuses. *)
Lemma ensureAuthenticated_guards_the_client_witness :
  (ToolHandlers.ensureAuthenticated Fixtures.quietEnv Fixtures.twoEventCalendar
     [AuthServer.TimeoutFired] Fixtures.freshMcpServer).1
  = ToolHandlers.Refused
      (ToolHandlers.InvalidRequest "認證失敗。請檢查您的憑證設定並重新啟動服務。")
  /\ McpServer.isAuthenticated
       (ToolHandlers.ensureAuthenticated Fixtures.quietEnv Fixtures.twoEventCalendar
          [AuthServer.TimeoutFired] Fixtures.freshMcpServer).2 = false.
Proof.
  pose proof (ensureAuthenticated_guards_the_client Fixtures.quietEnv
                Fixtures.twoEventCalendar [AuthServer.TimeoutFired]
                Fixtures.freshMcpServer) as H.
  assert (Hinv : Vocabulary.authenticatedWithClient Fixtures.freshMcpServer).
  { intros Hauth. discriminate Hauth. }
  destruct (H Hinv) as (_ & _ & _ & Hrefused & _).
  split; [reflexivity|].
  exact (proj2 (Hrefused _ eq_refl)).
Defined.

Section Listing.

Import GoogleMeetAPI.

(** The loop appends, in order, the records of the conference events. *)
Lemma collectMeetings_spec (events : list Event.t) :
  forall acc out,
    collectMeetings events acc = Return out ->
    exists new,
      out = acc ++ new
      /\ Forall2 (fun ev m => _formatMeetingData (Val ev) = Return (Some m))
                 (Vocabulary.conferenceEvents events) new.
Proof.
  induction events as [|event rest IH]; intros acc out;
    cbn [collectMeetings Vocabulary.conferenceEvents List.filter].
  - intros [= <-]. exists []. split; [by rewrite app_nil_r | constructor].
  - fold (Vocabulary.conferenceEvents rest).
    destruct (truthy_obj (Event.conferenceData event)) eqn:Hcd.
    + destruct (_formatMeetingData (Val event)) as [[m|]|] eqn:Hfmt;
        cbn [bind]; [| |done].
      * intros (new & -> & Hnew)%IH. exists (m :: new).
        split; [by rewrite <- app_assoc|]. by constructor.
      * exfalso. cbn in Hfmt.
        destruct (Event.conferenceData event); try done.
        destruct (time_of (Event.start event)); cbn in Hfmt; [|done].
        by destruct (time_of (Event.end_ event)).
    + apply IH.
Qed.

(** One conference event without [start] or [end] fails the whole loop. *)
Lemma collectMeetings_malformed (events : list Event.t) :
  forall acc ev,
    In ev events ->
    truthy_obj (Event.conferenceData ev) = true ->
    truthy_obj (Event.start ev) = false \/ truthy_obj (Event.end_ ev) = false ->
    collectMeetings events acc = Throw TypeError.
Proof.
  induction events as [|event rest IH]; intros acc ev Hin Hcd Hbad; [done|].
  cbn [collectMeetings].
  assert (Hthrows : forall e0,
             _formatMeetingData (Val e0) = Throw TypeError
             \/ exists r, _formatMeetingData (Val e0) = Return r).
  { intros e0. cbn.
    destruct (Event.conferenceData e0) as [| |cd]; [right; by eexists..|].
    destruct (Event.start e0) as [| |st]; cbn; [by left..|].
    destruct (Event.end_ e0) as [| |en]; cbn; [by left..|]. right; by eexists. }
  destruct Hin as [<- | Hin].
  - rewrite Hcd. cbn.
    destruct (Event.conferenceData event); try done.
    destruct Hbad as [Hs | He].
    + by destruct (Event.start event).
    + destruct (Event.start event); cbn; try done.
      by destruct (Event.end_ event).
  - destruct (truthy_obj (Event.conferenceData event)); [|by eapply IH].
    destruct (Hthrows event) as [-> | [r ->]]; [done|]. cbn. by eapply IH.
Qed.

(** [listMeetings] returns the conference events of the provider's answer
    and nothing else: the list it returns holds, in the provider's order,
    the record of every listed event that carries conference data, so never
    more entries than events were listed. It asks for the primary calendar
    from [timeMin], or from now when [timeMin] is missing or empty, sorted
    by start time. One listed conference event without [start] or [end]
    makes the whole call fail. *)
Theorem listMeetings_returns_the_conference_events
    (cal : Calendar) (nowISO : string) (maxResults : Js Z) (timeMin timeMax : Js string) :
  let params := listMeetingsParams nowISO maxResults timeMin timeMax in
  (ls_calendarId params = "primary"%string
   /\ ls_orderBy params = "startTime"%string
   /\ (truthy_str timeMin = false -> ls_timeMin params = Val nowISO)
   /\ (truthy_str timeMin = true -> ls_timeMin params = timeMin))
  /\ (forall meetings,
        listMeetings (Some cal) nowISO maxResults timeMin timeMax = Return meetings ->
        exists items,
          events_list cal params = Return items
          /\ Forall2 (fun ev m => _formatMeetingData (Val ev) = Return (Some m))
                     (Vocabulary.conferenceEvents (or_nil items)) meetings
          /\ (length meetings <= length (or_nil items))%nat)
  /\ (forall items ev,
        events_list cal params = Return items ->
        In ev (or_nil items) ->
        truthy_obj (Event.conferenceData ev) = true ->
        truthy_obj (Event.start ev) = false \/ truthy_obj (Event.end_ ev) = false ->
        listMeetings (Some cal) nowISO maxResults timeMin timeMax
        = Throw (GatewayError "listMeetings" TypeError)).
Proof.
  cbn zeta. split; [|split].
  - unfold listMeetingsParams. cbn. repeat split; try done.
    + by intros ->.
    + by intros ->.
  - intros meetings. unfold listMeetings. cbn.
    destruct (events_list cal _) as [items|] eqn:Hlist; cbn; [|done].
    destruct (collectMeetings (or_nil items) []) as [out|] eqn:Hc; cbn; [|done].
    intros [= <-]. apply collectMeetings_spec in Hc as (new & -> & Hnew). cbn.
    exists items. split; [done|]. split; [done|].
    apply Forall2_length in Hnew. rewrite <- Hnew.
    unfold Vocabulary.conferenceEvents. apply filter_length_le.
  - intros items ev Hlist Hin Hcd Hbad. unfold listMeetings. cbn. rewrite Hlist. cbn.
    by rewrite (collectMeetings_malformed _ [] ev Hin Hcd Hbad).
Qed.

End Listing.

(** The two fixture events: only the first carries conference data. *)
Lemma listMeetings_returns_the_conference_events_witness :
  exists meetings items,
    GoogleMeetAPI.listMeetings (Some Fixtures.twoEventCalendar)
      "2025-01-01T00:00:00.000Z" Undefined Undefined Undefined
    = Return meetings
    /\ GoogleMeetAPI.events_list Fixtures.twoEventCalendar
         (GoogleMeetAPI.listMeetingsParams "2025-01-01T00:00:00.000Z" Undefined
                                           Undefined Undefined)
       = Return items
    /\ length meetings = 1%nat
    /\ length (or_nil items) = 2%nat.
Proof.
  eexists _, _. split; [reflexivity|].
  destruct (proj1 (proj2 (listMeetings_returns_the_conference_events
                            Fixtures.twoEventCalendar "2025-01-01T00:00:00.000Z"
                            Undefined Undefined Undefined))
              _ eq_refl) as (items & Hitems & _).
  split; [reflexivity|]. split; reflexivity.
Defined.

Section GatewayErrors.

Import GoogleMeetAPI.

Variable Date_new : Js string -> option Z.

Lemma wrap_throw {A : Type} (operation : string) (m : Exc A) (e : Error) :
  wrap operation m = Throw e -> exists cause, e = GatewayError operation cause /\ m = Throw cause.
Proof. destruct m; [done|]. intros [= <-]. by eexists. Qed.

(** Every failure of the gateway names the operation that failed and keeps
    its cause. What a method throws is the error of its own operation
    wrapped around what went wrong, a failure of the provider being passed
    on as that cause; [checkAvailability] wraps the error of
    [checkTimeConflicts] once more. Two calls fail before their [try] is
    entered, with a [TypeError] that escapes unwrapped and nothing sent:
    [createMeeting] with [attendees] set to [null], and [updateMeeting]
    with [null] as its second argument. Before [initialize], with no
    calendar client, the cause is the [TypeError] of reading it; the
    conflict check reads the client once per calendar, so with an empty
    list of calendars it goes through without one. *)
Theorem gateway_failures_name_their_operation
    (calendar : option Calendar) (e : Error) :
  (forall id, getMeeting calendar id = Throw e ->
              exists cause, e = GatewayError "getMeeting" cause)
  /\ (forall nowISO n tmin tmax,
        listMeetings calendar nowISO n tmin tmax = Throw e ->
        exists cause, e = GatewayError "listMeetings" cause)
  /\ (forall id u, updateMeeting calendar id u = Throw e ->
                   exists cause, e = GatewayError "updateMeeting" cause)
  /\ (forall id arg, updateMeeting_call calendar id arg = Throw e ->
                     (exists cause, e = GatewayError "updateMeeting" cause)
                     \/ (e = TypeError /\ arg = Null))
  /\ (forall del id, deleteMeeting calendar del id = Throw e ->
                     exists cause, e = GatewayError "deleteMeeting" cause)
  /\ (forall s t cals, checkTimeConflicts Date_new calendar s t cals = Throw e ->
                       exists cause, e = GatewayError "checkTimeConflicts" cause)
  /\ (forall s t cals, checkAvailability Date_new calendar s t cals = Throw e ->
                       exists cause,
                         e = GatewayError "checkAvailability"
                               (GatewayError "checkTimeConflicts" cause))
  /\ (forall q s t cals, getFreeBusy calendar q s t cals = Throw e ->
                         exists cause, e = GatewayError "getFreeBusy" cause)
  /\ (forall now random36 summary s t description attendees,
        (createMeeting calendar now random36 summary s t description attendees).2
        = Throw e ->
        (exists cause, e = GatewayError "createMeeting" cause)
        \/ (e = TypeError /\ attendees = Null
            /\ (createMeeting calendar now random36 summary s t description attendees).1
               = None))
  /\ (forall cal id cause,
        calendar = Some cal ->
        events_get cal (mkGetParams "primary" id 1) = Throw cause ->
        getMeeting calendar id = Throw (GatewayError "getMeeting" cause)
        /\ forall u, updateMeeting calendar id u
                     = Throw (GatewayError "updateMeeting" cause))
  /\ (forall cal id ev,
        calendar = Some cal ->
        events_get cal (mkGetParams "primary" id 1) = Return ev ->
        truthy_obj (Event.conferenceData ev) = false ->
        getMeeting calendar id = Throw (GatewayError "getMeeting" (NoConferenceData id)))
  /\ (calendar = None ->
      (forall id, getMeeting calendar id = Throw (GatewayError "getMeeting" TypeError))
      /\ (forall del id,
            deleteMeeting calendar del id = Throw (GatewayError "deleteMeeting" TypeError))
      /\ (forall s t cals,
            cals <> Val [] ->
            checkTimeConflicts Date_new calendar s t cals
            = Throw (GatewayError "checkTimeConflicts" TypeError)
            /\ checkAvailability Date_new calendar s t cals
               = Throw (GatewayError "checkAvailability"
                          (GatewayError "checkTimeConflicts" TypeError)))
      /\ (forall s t,
            checkTimeConflicts Date_new calendar s t (Val []) = Return []
            /\ checkAvailability Date_new calendar s t (Val [])
               = Return {| available := true;
                           conflicts := [];
                           checked_calendars := Val [];
                           time_range := (s, t) |})).
Proof.
  split_and!.
  - intros id (c & -> & _)%wrap_throw. by eexists.
  - intros nowISO n tmin tmax (c & -> & _)%wrap_throw. by eexists.
  - intros id u (c & -> & _)%wrap_throw. by eexists.
  - intros id [| |u]; cbn.
    + intros (c & -> & _)%wrap_throw. left. by eexists.
    + intros [= <-]. by right.
    + intros (c & -> & _)%wrap_throw. left. by eexists.
  - intros del id (c & -> & _)%wrap_throw. by eexists.
  - intros s t cals (c & -> & _)%wrap_throw. by eexists.
  - intros s t cals (c & -> & H)%wrap_throw.
    destruct (checkTimeConflicts Date_new calendar s t (default cals ["primary"%string]))
      as [found|c'] eqn:Hc; [done|].
    cbn in H. injection H as <-.
    apply wrap_throw in Hc as (c'' & -> & _). by eexists.
  - intros q s t cals (c & -> & _)%wrap_throw. by eexists.
  - intros now random36 summary s t description attendees. unfold createMeeting.
    destruct attendees as [| |l]; cbn.
    + destruct (the_calendar calendar); cbn.
      * intros (c & -> & _)%wrap_throw. left. by eexists.
      * intros [= <-]. left. by eexists.
    + intros [= <-]. by right.
    + destruct (the_calendar calendar); cbn.
      * intros (c & -> & _)%wrap_throw. left. by eexists.
      * intros [= <-]. left. by eexists.
  - intros cal id cause -> Hget. split.
    + unfold getMeeting. cbn. by rewrite Hget.
    + intros u. unfold updateMeeting, updateMeeting_resource. cbn. by rewrite Hget.
  - intros cal id ev -> Hget Hcd. unfold getMeeting. cbn [the_calendar bind].
    rewrite Hget. cbn [bind]. by rewrite Hcd.
  - intros ->. split_and!; try done.
    intros s t cals Hcals.
    assert (Hc : checkTimeConflicts Date_new None s t cals
                 = Throw (GatewayError "checkTimeConflicts" TypeError)).
    { unfold checkTimeConflicts. destruct cals as [| |[|c l]]; done. }
    split; [done|]. unfold checkAvailability.
    destruct cals as [| |[|c l]]; done.
Qed.

End GatewayErrors.

Section FreeBusyShape.

Import GoogleMeetAPI.


End FreeBusyShape.

(* ===================================================================== *)
(** * Further properties of the tool handlers                             *)
(* ===================================================================== *)

Section ToolReplies.

Import GoogleMeetAPI ToolHandlers.

Variable toLocaleString : Js string -> string.
Variable Date_new : Js string -> option Z.

(** The reply of [handleListMeetings] never reads 'no upcoming meetings'.
    The fallback text is the alternative of the whole sum of the header and
    the joined entries, which is never empty, so with no meeting at all the
    text is the bare header with the count 0; and the text is the header
    followed by the entries in every case. A failure of the gateway is
    passed on as an internal error with its cause. *)
Theorem handleListMeetings_never_shows_the_fallback
    (calendar : option Calendar) (nowISO : string) (args : ListArgs) :
  (forall meetings,
      listText toLocaleString meetings <> "目前沒有即將到來的會議。"%string
      /\ listText toLocaleString meetings
         = ("📅 **找到 " ++ show_int (Z.of_nat (length meetings))
            ++ " 個即將到來的 Google Meet 會議**" ++ nl ++ nl
            ++ String.concat nl (listEntries toLocaleString 0 meetings))%string)
  /\ listText toLocaleString []
     = ("📅 **找到 0 個即將到來的 Google Meet 會議**" ++ nl ++ nl)%string
  /\ (forall text,
        handleListMeetings toLocaleString calendar nowISO args = Content text ->
        text <> "目前沒有即將到來的會議。"%string)
  /\ (forall e,
        listMeetings calendar nowISO (default (max_results args) 10)
                     (time_min args) (time_max args) = Throw e ->
        handleListMeetings toLocaleString calendar nowISO args
        = McpThrow (InternalError "列出會議時發生錯誤: " e)).
Proof.
  assert (Htext : forall meetings,
             listText toLocaleString meetings <> "目前沒有即將到來的會議。"%string
             /\ listText toLocaleString meetings
                = ("📅 **找到 " ++ show_int (Z.of_nat (length meetings))
                   ++ " 個即將到來的 Google Meet 會議**" ++ nl ++ nl
                   ++ String.concat nl (listEntries toLocaleString 0 meetings))%string).
  { intros meetings. unfold listText, or_text.
    cbn [append String.eqb]. split; [discriminate | reflexivity]. }
  split_and!.
  - exact Htext.
  - reflexivity.
  - intros text. unfold handleListMeetings.
    destruct (listMeetings _ _ _ _ _) as [meetings|]; [|done].
    intros [= <-]. apply Htext.
  - intros e He. unfold handleListMeetings. by rewrite He.
Qed.

(** The update tool cannot move a meeting. The schema names the times
    [start_time] and [end_time], while [updateMeeting] reads [startTime]
    and [endTime] from the same object; so for arguments that keep to the
    schema the object written back has the [start] and [end] of the
    existing event whatever times were given, and the reply is the one for
    the same arguments without times. A missing or empty [meeting_id] is
    refused before anything is fetched. *)
Theorem handleUpdateMeeting_ignores_the_times
    (calendar : option Calendar) (args : UpdateArgs) :
  ua_startTime args = Undefined ->
  ua_endTime args = Undefined ->
  (forall cal id existing updates,
      calendar = Some cal ->
      events_get cal (mkGetParams "primary" id 1) = Return existing ->
      updateMeeting_resource calendar id (updateFields args) = Return updates ->
      Event.start updates = Event.start existing
      /\ Event.end_ updates = Event.end_ existing)
  /\ handleUpdateMeeting toLocaleString calendar args
     = handleUpdateMeeting toLocaleString calendar
         {| ua_meeting_id := ua_meeting_id args;
            ua_summary := ua_summary args;
            ua_description := ua_description args;
            ua_start_time := Undefined;
            ua_end_time := Undefined;
            ua_attendees := ua_attendees args;
            ua_startTime := Undefined;
            ua_endTime := Undefined |}
  /\ (truthy_str (ua_meeting_id args) = false ->
      handleUpdateMeeting toLocaleString calendar args
      = McpThrow (InvalidParams "缺少必要參數: meeting_id")).
Proof.
  intros Hs He. split_and!.
  - intros cal id existing updates -> Hget Hres.
    unfold updateMeeting_resource in Hres. cbn in Hres. rewrite Hget in Hres.
    destruct (applyUpdates_times _ _ _ Hres) as [Hst Het].
    cbn in Hst, Het. by rewrite Hs in Hst; rewrite He in Het.
  - unfold handleUpdateMeeting, updateFields. cbn. by rewrite Hs, He.
  - unfold handleUpdateMeeting. destruct (ua_meeting_id args) as [| |id]; try done.
    cbn. by intros ->%negb_false_iff.
Qed.

(** [handleCreateMeeting] checks its arguments before anything else and
    treats conflicts as a warning only. Without a summary, a start or an
    end it refuses and sends nothing. When the conflict check itself fails,
    it fails and sends nothing. When the check finds conflicts, however
    many, the meeting is created all the same and the reply is the success
    text with the warning put in. With [check_conflicts] set to [false] no
    check is made and the reply carries no warning. *)
Theorem handleCreateMeeting_warns_but_creates
    (calendar : option Calendar) (now : Z) (random36 : string) (args : CreateArgs) :
  let created :=
    createMeeting calendar now random36 (ca_summary args) (ca_start_time args)
      (ca_end_time args) (default (ca_description args) ""%string)
      (default (ca_attendees args) []) in
  let check :=
    checkTimeConflicts Date_new calendar (ca_start_time args) (ca_end_time args)
                       Undefined in
  (truthy_str (ca_summary args) = false \/ truthy_str (ca_start_time args) = false
   \/ truthy_str (ca_end_time args) = false ->
   handleCreateMeeting toLocaleString Date_new calendar now random36 args
   = (None, McpThrow (InvalidParams "缺少必要參數: summary, start_time, end_time")))
  /\ (truthy_str (ca_summary args) = true -> truthy_str (ca_start_time args) = true ->
      truthy_str (ca_end_time args) = true ->
      (truthy_bool (default (ca_check_conflicts args) true) = true ->
       (forall e, check = Throw e ->
          handleCreateMeeting toLocaleString Date_new calendar now random36 args
          = (None, McpThrow (InternalError "創建會議時發生錯誤: " e)))
       /\ (forall found meeting,
             check = Return found ->
             created.2 = Return meeting ->
             handleCreateMeeting toLocaleString Date_new calendar now random36 args
             = (created.1,
                Content (createText toLocaleString
                           (conflictWarning toLocaleString found) meeting
                           (or_nil (default (ca_attendees args) []))))))
      /\ (truthy_bool (default (ca_check_conflicts args) true) = false ->
          forall meeting,
            created.2 = Return meeting ->
            handleCreateMeeting toLocaleString Date_new calendar now random36 args
            = (created.1,
               Content (createText toLocaleString "" meeting
                          (or_nil (default (ca_attendees args) []))))))
  /\ (forall meeting, created.2 = Return meeting -> is_Some created.1).
Proof.
  cbn zeta. split_and!.
  - intros Hmissing. unfold handleCreateMeeting.
    assert (negb (truthy_str (ca_summary args)) || negb (truthy_str (ca_start_time args))
            || negb (truthy_str (ca_end_time args)) = true) as ->; [|done].
    destruct Hmissing as [-> | [-> | ->]]; cbn; rewrite ?orb_true_r; done.
  - intros H1 H2 H3. unfold handleCreateMeeting. rewrite H1, H2, H3. cbn [negb orb].
    split.
    + intros ->. split.
      * intros e ->. done.
      * intros found meeting -> Hm. cbn [bind].
        destruct (createMeeting _ _ _ _ _ _ _ _) as [sent [m|]]; cbn in *; [|done].
        by injection Hm as ->.
    + intros -> meeting Hm.
      destruct (createMeeting _ _ _ _ _ _ _ _) as [sent [m|]]; cbn in *; [|done].
      by injection Hm as ->.
  - intros meeting. unfold createMeeting.
    destruct (formatEmails _); [|done].
    destruct (the_calendar calendar); [|done]. cbn. by eexists.
Qed.

End ToolReplies.

(** The update tool is asked to move the untitled meeting to 11:00: the
    object written back still starts at 09:30 and ends at 10:30. *)
Lemma handleUpdateMeeting_ignores_the_times_witness :
  exists updates,
    GoogleMeetAPI.updateMeeting_resource (Some Fixtures.twoEventCalendar) "evt1"
      (ToolHandlers.updateFields Fixtures.retimeArgs) = Return updates
    /\ GoogleMeetAPI.Event.summary updates = Val "Moved"%string
    /\ GoogleMeetAPI.Event.start updates
       = Val (GoogleMeetAPI.utc (Val "2025-01-01T09:30:00Z"%string))
    /\ GoogleMeetAPI.Event.end_ updates
       = Val (GoogleMeetAPI.utc (Val "2025-01-01T10:30:00Z"%string)).
Proof.
  eexists. split; [reflexivity|]. split; [reflexivity|].
  apply (proj1 (handleUpdateMeeting_ignores_the_times Fixtures.plainLocale
                  (Some Fixtures.twoEventCalendar) Fixtures.retimeArgs eq_refl eq_refl)
           Fixtures.twoEventCalendar "evt1"%string Fixtures.untitledMeeting _
           eq_refl eq_refl eq_refl).
Defined.

(** A meeting from 10:00 to 11:00 is asked for while the untitled meeting
    runs until 10:30: the request is sent and the reply is a success. *)
Lemma handleCreateMeeting_warns_but_creates_witness :
  exists sent text,
    ToolHandlers.handleCreateMeeting Fixtures.plainLocale Fixtures.Date_new
      (Some Fixtures.twoEventCalendar) 1735725600000 "0.4fzyo82mvyr" Fixtures.syncArgs
    = (Some sent, ToolHandlers.Content text)
    /\ length (or_nil (GoogleMeetAPI.Event.attendees (GoogleMeetAPI.wr_resource sent)))
       = 1%nat.
Proof.
  pose proof (proj1 (proj1 (proj2 (handleCreateMeeting_warns_but_creates
                 Fixtures.plainLocale Fixtures.Date_new (Some Fixtures.twoEventCalendar)
                 1735725600000 "0.4fzyo82mvyr" Fixtures.syncArgs))
               eq_refl eq_refl eq_refl) eq_refl) as [_ Hcreates].
  eexists _, _. split; [exact (Hcreates _ _ eq_refl eq_refl)|reflexivity].
Defined.

Section AttendeeUpdate.

Import GoogleMeetAPI.

(** What the call provides is applied as given, and attendees are replaced
    wholesale. A provided summary or description is written as it is; a
    provided time becomes a [dateTime] in UTC with no [date] left; and a
    provided attendee list is written as objects holding only the e-mail,
    so the answers and the optional marks the existing attendees had are
    not carried over. Providing [null] for the attendees makes the call
    fail before anything is written. *)
Theorem updateMeeting_replaces_what_is_provided
    (cal : Calendar) (meetingId : string) (u : Updates) (existing : Event.t) :
  events_get cal (mkGetParams "primary" meetingId 1) = Return existing ->
  (forall updates,
      updateMeeting_resource (Some cal) meetingId u = Return updates ->
      (defined (u_summary u) = true -> Event.summary updates = u_summary u)
      /\ (defined (u_description u) = true -> Event.description updates = u_description u)
      /\ (defined (u_startTime u) = true ->
          Event.start updates
          = Val {| EventTime.dateTime := u_startTime u; EventTime.date := Undefined;
                   EventTime.timeZone := Val "UTC"%string |})
      /\ (defined (u_endTime u) = true ->
          Event.end_ updates
          = Val {| EventTime.dateTime := u_endTime u; EventTime.date := Undefined;
                   EventTime.timeZone := Val "UTC"%string |})
      /\ (forall emails,
            u_attendees u = Val emails ->
            Event.attendees updates
            = Val (map (fun email => Attendee.mk (Val email) Undefined Undefined) emails)
            /\ map formatAttendee (or_nil (Event.attendees updates))
               = map (fun email => MeetingAttendee.mk (Val email) "needsAction" false)
                     emails))
  /\ (u_attendees u = Null ->
      updateMeeting_resource (Some cal) meetingId u = Throw TypeError
      /\ updateMeeting (Some cal) meetingId u
         = Throw (GatewayError "updateMeeting" TypeError)).
Proof.
  intros Hget. split.
  - intros updates Hres.
    unfold updateMeeting_resource in Hres. cbn in Hres. rewrite Hget in Hres.
    cbn in Hres. unfold applyUpdates in Hres.
    destruct (u_attendees u) as [| |l] eqn:Hatt; cbn in Hres; [|done|].
    + injection Hres as <-. cbn. split_and!; try (by intros ->). done.
    + injection Hres as <-. cbn. split_and!; try (by intros ->).
      intros emails [= <-]. split; [done|].
      rewrite map_map. done.
  - intros Hnull.
    assert (Hres : updateMeeting_resource (Some cal) meetingId u = Throw TypeError).
    { unfold updateMeeting_resource. cbn. rewrite Hget. cbn.
      unfold applyUpdates. by rewrite Hnull. }
    split; [done|]. unfold updateMeeting. cbn [the_calendar bind]. by rewrite Hres.
Qed.

End AttendeeUpdate.

(** The attendees of the untitled meeting are set to two addresses. *)
Lemma updateMeeting_replaces_what_is_provided_witness :
  exists updates,
    GoogleMeetAPI.updateMeeting_resource (Some Fixtures.twoEventCalendar) "evt1"
      (GoogleMeetAPI.mkUpdates Undefined Undefined Undefined Undefined
         (Val ["ann@example.com"%string; "bob@example.com"%string]))
    = Return updates
    /\ map GoogleMeetAPI.formatAttendee (or_nil (GoogleMeetAPI.Event.attendees updates))
       = [ GoogleMeetAPI.MeetingAttendee.mk (Val "ann@example.com"%string)
             "needsAction" false;
           GoogleMeetAPI.MeetingAttendee.mk (Val "bob@example.com"%string)
             "needsAction" false ].
Proof.
  eexists. split; [reflexivity|].
  exact (proj2 (proj2 (proj2 (proj2 (proj2
           (proj1 (updateMeeting_replaces_what_is_provided Fixtures.twoEventCalendar
                     "evt1"
                     (GoogleMeetAPI.mkUpdates Undefined Undefined Undefined Undefined
                        (Val ["ann@example.com"%string; "bob@example.com"%string]))
                     Fixtures.untitledMeeting eq_refl) _ eq_refl))))
          _ eq_refl)).
Defined.
